(** * RDFin: the link ingestion and naming engine

    A shallow embedding of [app/rdfin_strm.py] and [app/app.py] and the
    properties of their naming, inference and grouping code.

    Python strings are modelled as lists of 8-bit characters: the
    embedding covers the strings whose code points are below 256, and the
    character classes used below ([str.isspace], [str.lower], the regular
    expression class [\d], case-insensitive matching of a letter) are
    Python's, restricted to that range. *)

From Stdlib Require Import Ascii String ZArith List Bool Lia.
From Stdlib Require Import Decimal DecimalString DecimalN.
From stdpp Require Import base option list gmap.

Import ListNotations.
Local Open Scope N_scope.

(** ** Python strings *)

Definition str := list ascii.

(** A string literal of the source. *)
Definition py (s : string) : str := list_ascii_of_string s.

Definition between (lo hi : N) (c : ascii) : bool :=
  (lo <=? N_of_ascii c) && (N_of_ascii c <=? hi).

(** [c.isspace()]: the white space that [str.strip()] removes. *)
Definition isspace (c : ascii) : bool :=
  between 9 13 c || between 28 32 c
  || (N_of_ascii c =? 133) || (N_of_ascii c =? 160).

(** The class [\d] of the [re] module. *)
Definition isdigit (c : ascii) : bool := between 48 57 c.

Definition lower_char (c : ascii) : ascii :=
  if between 65 90 c
     || (between 192 222 c && negb (N_of_ascii c =? 215))
  then ascii_of_N (N_of_ascii c + 32)
  else c.

(** [s.lower()] *)
Definition lower (s : str) : str := map lower_char s.

(** [c in chars] for a character [c]. *)
Definition mem (c : ascii) (chars : str) : bool :=
  existsb (Ascii.eqb c) chars.

Fixpoint lstrip_by (p : ascii -> bool) (s : str) : str :=
  match s with
  | c :: s' => if p c then lstrip_by p s' else s
  | [] => []
  end.

Definition rstrip_by (p : ascii -> bool) (s : str) : str :=
  rev (lstrip_by p (rev s)).

Definition strip_by (p : ascii -> bool) (s : str) : str :=
  rstrip_by p (lstrip_by p s).

(** [s.strip()] *)
Definition strip (s : str) : str := strip_by isspace s.

(** [s.strip(chars)] and [s.rstrip(chars)] *)
Definition strip_chars (chars s : str) : str :=
  strip_by (fun c => mem c chars) s.

Definition rstrip_chars (chars s : str) : str :=
  rstrip_by (fun c => mem c chars) s.

(** Truthiness of a string: [if s]. *)
Definition truthy (s : str) : bool :=
  match s with [] => false | _ :: _ => true end.

(** [s.startswith(p)] *)
Fixpoint startswith (p s : str) : bool :=
  match p, s with
  | [], _ => true
  | a :: p', b :: s' => Ascii.eqb a b && startswith p' s'
  | _ :: _, [] => false
  end.

(** [s.replace(a, b)] for one-character [a] and [b]. *)
Definition replace_char (a b : ascii) (s : str) : str :=
  map (fun c => if Ascii.eqb c a then b else c) s.

(** The pieces of [s.split(sep)] for a non-empty [sep]: a scan from the
    left over non-overlapping occurrences.  [skip] counts the characters
    of the current occurrence still to pass over and [cur] holds the
    current piece, reversed. *)
Fixpoint split_go (sep : str) (skip : nat) (cur : str) (s : str)
  : list str :=
  match s with
  | [] => [rev cur]
  | a :: s' =>
    match skip with
    | S k => split_go sep k cur s'
    | O =>
      if startswith sep s
      then rev cur :: split_go sep (length sep - 1) [] s'
      else split_go sep O (a :: cur) s'
    end
  end.

Definition split_on (sep s : str) : list str := split_go sep 0 [] s.

(** [s.partition(sep)[2]] for a one-character [sep]. *)
Fixpoint partition_after (sep : ascii) (s : str) : str :=
  match s with
  | [] => []
  | c :: s' => if Ascii.eqb c sep then s' else partition_after sep s'
  end.

(** [s.rfind(c)], [None] standing for -1. *)
Fixpoint rfind_char (c : ascii) (s : str) : option nat :=
  match s with
  | [] => None
  | a :: s' =>
    match rfind_char c s' with
    | Some i => Some (S i)
    | None => if Ascii.eqb a c then Some O else None
    end
  end.

Definition str_eqb (a b : str) : bool := bool_decide (a = b).

(** ** Exceptions *)

Inductive exn_kind :=
  RuntimeError | ValueError | IndexError | FileNotFoundError | OSError.

(** An exception object; [exn_msg] is what [str(e)] returns. *)
Record exn := Exn { exn_class : exn_kind; exn_msg : str }.

Inductive result (A : Type) :=
| Ret (a : A)
| Raise (e : exn).
Arguments Ret {A} a.
Arguments Raise {A} e.

#[global] Instance result_ret : MRet result := @Ret.
#[global] Instance result_bind : MBind result := fun A B f m =>
  match m with
  | Ret a => f a
  | Raise e => Raise e
  end.

#[global] Instance result_fmap : FMap result := fun A B f m =>
  match m with
  | Ret a => Ret (f a)
  | Raise e => Raise e
  end.

(** [try: body  except Exception: handler] *)
Definition try_except {A} (body : result A) (handler : exn -> result A)
  : result A :=
  match body with
  | Ret a => Ret a
  | Raise e => handler e
  end.

Definition returns {A} (m : result A) : Prop := exists a, m = Ret a.

(** [s.split(sep)]: an empty separator is a [ValueError]. *)
Definition py_split (sep s : str) : result (list str) :=
  if negb (truthy sep) then Raise (Exn ValueError (py "empty separator"))
  else Ret (split_on sep s).

(** [l[i]] for a non-negative index. *)
Definition py_index {A} (l : list A) (i : nat) : result A :=
  match nth_error l i with
  | Some a => Ret a
  | None => Raise (Exn IndexError (py "list index out of range"))
  end.

(** [l.index(x)] on a list of strings. *)
Fixpoint find_index (x : str) (l : list str) : option nat :=
  match l with
  | [] => None
  | y :: l' => if str_eqb y x then Some O else S <$> find_index x l'
  end.

Definition list_index (x : str) (l : list str) : result nat :=
  match find_index x l with
  | Some i => Ret i
  | None => Raise (Exn ValueError (py "x is not in list"))
  end.

Definition digit_value (c : ascii) : Z := Z.of_N (N_of_ascii c) - 48.

(** [int(s)] on a non-empty string of decimal digits.  On every other
    string the model raises [ValueError]; Python's [int] accepts a few
    more (a sign, surrounding white space), none of which the callers
    below pass. *)
Definition py_int (s : str) : result Z :=
  if truthy s && forallb isdigit s
  then Ret (fold_left (fun acc c => (10 * acc + digit_value c)%Z) s 0%Z)
  else Raise (Exn ValueError (py "invalid literal for int()")).

Definition decimal (n : N) : str := py (NilZero.string_of_uint (N.to_uint n)).

(** [f"{z:02d}"]: at least two characters, the sign included. *)
Definition fmt02d (z : Z) : str :=
  if (z <? 0)%Z then "-"%char :: decimal (Z.to_N (- z))
  else
    let d := decimal (Z.to_N z) in
    if (length d <? 2)%nat then "0"%char :: d else d.

(** ** The [re] module, for the patterns of the source

    Every pattern of the source is a sequence of one-character classes,
    some of them optional ([\d{1,2}] is a digit and an optional digit).
    [match_here] is a backtracking matcher for such sequences, with
    Python's preference for the longer alternative of an optional item;
    it returns the text each item consumed. *)

Inductive item :=
| One (cls : ascii -> bool)
| Opt (cls : ascii -> bool).

Definition pattern := list item.

Fixpoint match_here (p : pattern) (s : str) : option (list str) :=
  match p with
  | [] => Some []
  | One cls :: p' =>
    match s with
    | a :: s' => if cls a then cons [a] <$> match_here p' s' else None
    | [] => None
    end
  | Opt cls :: p' =>
    match s with
    | a :: s' =>
      if cls a then
        match match_here p' s' with
        | Some r => Some ([a] :: r)
        | None => cons [] <$> match_here p' s
        end
      else cons [] <$> match_here p' s
    | [] => cons [] <$> match_here p' []
    end
  end.

(** A match object: the text before the match and the text of each item. *)
Record rmatch := { m_before : str; m_items : list str }.

(** [re.search]: the leftmost position at which the pattern matches. *)
Fixpoint search_from (p : pattern) (before : str) (s : str)
  : option rmatch :=
  match match_here p s with
  | Some r => Some {| m_before := rev before; m_items := r |}
  | None =>
    match s with
    | [] => None
    | a :: s' => search_from p (a :: before) s'
    end
  end.

Definition re_search (p : pattern) (s : str) : option rmatch :=
  search_from p [] s.

(** The text of the items [i, j) of a match; [m.group(0)] is all of them. *)
Definition m_span (i j : nat) (m : rmatch) : str :=
  concat (take (j - i) (drop i (m_items m))).

Definition m_group0 (m : rmatch) : str := concat (m_items m).

(** A letter under [re.IGNORECASE] (or a class such as [[Ss]]). *)
Definition ichar (c : ascii) : ascii -> bool :=
  fun a => Ascii.eqb (lower_char a) (lower_char c).

Definition ilit (s : string) : pattern := map (fun c => One (ichar c)) (py s).

(** [S\d{2}E\d{2}] with [re.IGNORECASE] *)
Definition re_SddEdd : pattern :=
  [One (ichar "S"); One isdigit; One isdigit;
   One (ichar "E"); One isdigit; One isdigit].

(** [(\d{1,2})] *)
Definition re_d12 : pattern := [One isdigit; Opt isdigit].

(** [([Ss](\d{1,2})[Ee]\d{1,2})]: group 1 is every item, group 2 the
    items 1 and 2. *)
Definition re_SdEd : pattern :=
  [One (ichar "S"); One isdigit; Opt isdigit;
   One (ichar "E"); One isdigit; Opt isdigit].

(** [[Ss]eason[ ._-]?(\d{1,2})] with [re.IGNORECASE]: group 1 is the
    items 7 and 8. *)
Definition re_season : pattern :=
  ilit "season" ++ [Opt (fun c => mem c (py " ._-")); One isdigit; Opt isdigit].

(** ** pathlib, POSIX flavour

    A path is the tuple [p.parts]: the root (one slash, or two when the
    text starts with exactly two) followed by the segments that are
    neither empty nor a single dot. *)

Definition path := list str.

Definition slash : ascii := "/"%char.

Definition parse_parts (s : str) : path :=
  let rest := lstrip_by (Ascii.eqb slash) s in
  let n := (length s - length rest)%nat in
  let root :=
    if (n =? 0)%nat then []
    else if (n =? 2)%nat then [py "//"] else [py "/"] in
  root ++ List.filter (fun x => truthy x && negb (str_eqb x (py ".")))
                      (split_on [slash] rest).

(** [p / s] *)
Definition joinpath (p : path) (s : str) : path :=
  if startswith [slash] s then parse_parts s else p ++ parse_parts s.

(** [p.name]: the last segment, the empty string for a bare root. *)
Definition path_name (p : path) : str :=
  match last p with
  | Some x => if startswith [slash] x then [] else x
  | None => []
  end.

(** [p.stem]: the name without its last suffix. *)
Definition stem_of_name (name : str) : str :=
  match rfind_char "."%char name with
  | Some i =>
    if (0 <? i)%nat && (i <? length name - 1)%nat then take i name else name
  | None => name
  end.

Definition path_stem (p : path) : str := stem_of_name (path_name p).

(** [p.parent] *)
Definition path_parent (p : path) : path :=
  match p with
  | [] => []
  | [x] => if startswith [slash] x then p else []
  | _ => removelast p
  end.

(** [sep.join(l)] *)
Fixpoint py_join (sep : str) (l : list str) : str :=
  match l with
  | [] => []
  | x :: rest =>
    match rest with
    | [] => x
    | _ :: _ => x ++ sep ++ py_join sep rest
    end
  end.

(** [str(p)]: the root, then the segments joined by slashes; a dot for
    the empty path. *)
Definition path_str (p : path) : str :=
  match p with
  | [] => py "."
  | x :: rest =>
    if startswith [slash] x then x ++ py_join [slash] rest
    else py_join [slash] p
  end.

(** The file a path names.  [pathlib] keeps a segment [..] as it is, and
    the file system walks it: [..] leaves the directory reached so far,
    the parent of the root is the root, and two leading slashes are one.
    A relative path that climbs out of the working directory keeps its
    leading [..].  Symbolic links are left out. *)
Fixpoint resolve_go (done : list str) (p : path) : path :=
  match p with
  | [] => rev done
  | x :: rest =>
    if str_eqb x (py "..") then
      match done with
      | [] => resolve_go [x] rest
      | d :: done' =>
        if startswith [slash] d then resolve_go done rest
        else if str_eqb d (py "..") then resolve_go (x :: done) rest
        else resolve_go done' rest
      end
    else if str_eqb x (py "//") then resolve_go (py "/" :: done) rest
    else resolve_go (x :: done) rest
  end.

Definition resolve (p : path) : path := resolve_go [] p.

(** A segment that the file system takes as the name of an entry. *)
Definition walked (x : str) : Prop := x <> py ".." /\ x <> py "//".

(** ** The world outside

    [fs] holds the regular files, each under the resolved parts of its
    path; directories are the proper prefixes of the keys, so that a
    directory without a file in or below it is not seen.  [logs] is what
    [log_entry] has appended (the time stamp is left out) and [calls]
    counts the requests made to the unrestrict service, whose answer may
    change from one request to the next.  What the code prints is left
    out, and with it a standard output that refuses the text. *)

Record log_line := LogLine {
  log_media : str;
  log_link : str;
  log_target : path;
  log_rd_filename : str
}.

Record world := World {
  fs : gmap path str;
  logs : list log_line;
  calls : nat
}.

(** The canonical answer of [unrestrict]: the keys [filename] and
    [direct] of the returned dict, [None] when absent. *)
Record resp := Resp { filename : option str; direct : option str }.

(** The two fields of [urlparse]'s result that the source reads. *)
Record url := Url { url_path : str; url_netloc : str }.

(** How the file system ends the writing of a file: the file holds the
    whole text, or [OSError] is raised (a name too long, a directory in
    the way, no permission, no space) and the file is as it was ([None])
    or is left with some text, possibly none ([Some kept]). *)
Inductive write_outcome :=
| Written
| WriteFailed (e : exn) (kept : option str).

(** What the code takes from its environment and from libraries: the
    media root, [urllib.parse] (which rejects some texts with a
    [ValueError]), the service behind [unrestrict], which answers the
    n-th request for a link or raises, and the file system, which may
    refuse what it is asked: to write a file ([os_write]), to create a
    directory and its parents ([os_mkdir]), to append a line to the log
    of a media type ([os_append], [Some e] for the [OSError] raised,
    the log being as it was).  The file system is asked about the try
    made after [n] requests to the service; the code tries each thing at
    most once between two requests, so that the answers may change
    freely as time goes. *)
Class Env := {
  MEDIA_ROOT : path;
  urlparse : str -> result url;
  unquote : str -> result str;
  unrestrict_answer : nat -> str -> result resp;
  os_write : nat -> path -> write_outcome;
  os_mkdir : nat -> path -> option exn;
  os_append : nat -> str -> option exn
}.

(** Stateful code that may raise: the state reached is kept when an
    exception leaves the body of a [try]. *)
Definition prog (A : Type) : Type := world -> result A * world.

Definition pure {A} (m : result A) : prog A := fun w => (m, w).

Definition bind {A B} (m : prog A) (k : A -> prog B) : prog B :=
  fun w =>
    match m w with
    | (Ret a, w') => k a w'
    | (Raise e, w') => (Raise e, w')
    end.

Notation "'let*' x ':=' m 'in' k" := (bind m (fun x => k))
  (at level 10, x pattern, m at level 100, k at level 200).

Definition raise {A} (k : exn_kind) (msg : string) : prog A :=
  pure (Raise (Exn k (py msg))).

(** Truthiness of an optional string: [None] and the empty string are
    both false. *)
Definition truthy_opt (o : option str) : bool :=
  match o with Some s => truthy s | None => false end.

Definition ends_with (suffix s : str) : bool :=
  startswith (rev suffix) (rev s).

(** The name under [dir] through which the file [p] is reached, when [p]
    lies below [dir]. *)
Fixpoint child_of (dir p : path) : option str :=
  match dir, p with
  | [], n :: _ => Some n
  | d :: dir', x :: p' => if str_eqb d x then child_of dir' p' else None
  | _, [] => None
  end.

(** The entries of the directory that [dir] names, the directory being
    one that the process may list. *)
Definition listdir (dir : path) (files : gmap path str) : gset str :=
  list_to_set (omap (child_of (resolve dir)) (elements (dom files))).

(** [len(list(dir.glob("*.strm")))] *)
Definition count_strm (dir : path) (files : gmap path str) : nat :=
  length (List.filter (ends_with (py ".strm")) (elements (listdir dir files))).

(** ** rdfin_strm.py *)

Definition dquote : ascii := "034"%char.

(** The raw literal of [sanitize_name]: backslash, slash, colon, star,
    question mark, double quote, angle brackets and bar. *)
Definition reserved : str := py "\/:*?" ++ [dquote] ++ py "<>|".

Definition sanitize_name (name : str) : str :=
  if negb (truthy name) then py "unnamed"
  else
    let safe :=
      strip (List.filter (fun c => negb (mem c reserved)) name) in
    strip (rstrip_chars (py ". ") safe).

Definition strip_extension (name : str) : str :=
  if truthy name then path_stem (parse_parts name) else py "unnamed".

Section rdfin_strm.
Context `{!Env}.

Definition unrestrict (link : str) : prog resp :=
  fun w =>
    (unrestrict_answer (calls w) link,
     {| fs := fs w; logs := logs w; calls := S (calls w) |}).

Definition name_from_url_body (u : str) : result str :=
  p ← urlparse u;
  q ← unquote (url_path p);
  let name := path_name (parse_parts q) in
  let name :=
    if negb (truthy name) then replace_char "."%char "_"%char (url_netloc p)
    else name in
  Ret (sanitize_name name).

Definition name_from_url (u : str) : result str :=
  try_except (name_from_url_body u) (fun _ => Ret (py "unnamed")).

Definition newline : ascii := "010"%char.

(** [dest.parent.mkdir(parents=True, exist_ok=True)], then the file is
    opened for writing and the line written.  Whatever of this fails
    raises [OSError]. *)
Definition write_strm_file (dest : path) (direct_url : str) : prog unit :=
  fun w =>
    match os_write (calls w) dest with
    | Written =>
      (Ret tt,
       {| fs := <[resolve dest := strip direct_url ++ [newline]]> (fs w);
          logs := logs w; calls := calls w |})
    | WriteFailed e None => (Raise e, w)
    | WriteFailed e (Some kept) =>
      (Raise e,
       {| fs := <[resolve dest := kept]> (fs w);
          logs := logs w; calls := calls w |})
    end.

(** The directory of the logs is created, the log of the day opened and
    the line appended; the assertion on [media_type] holds at every call
    of the source. *)
Definition log_entry (media_type original_link : str) (target_path : path)
    (rd_filename : option str) : prog unit :=
  fun w =>
    match os_append (calls w) media_type with
    | None =>
      (Ret tt,
       {| fs := fs w;
          logs := logs w ++
            [LogLine media_type original_link target_path
                     (default [] rd_filename)];
          calls := calls w |})
    | Some e => (Raise e, w)
    end.

(** The destination of a movie whose sanitized stem is [safe]. *)
Definition movie_dest (safe : str) : path :=
  joinpath (joinpath (joinpath MEDIA_ROOT (py "movies")) safe)
           (safe ++ py ".strm").

Definition add_movie (title link : str) : prog unit :=
  let base := strip_extension title in
  let safe := sanitize_name base in
  let strm_path := movie_dest safe in
  let* r := unrestrict link in
  if negb (truthy_opt (direct r))
  then raise RuntimeError "No direct link returned from Real-Debrid."
  else
    let* _ := write_strm_file strm_path (default [] (direct r)) in
    log_entry (py "movies") link strm_path (filename r).

Definition season_folder (season : Z) : str := py "Season " ++ fmt02d season.

Definition sxxexx (season episode : Z) : str :=
  py "S" ++ fmt02d season ++ py "E" ++ fmt02d episode.

(** The file name of an episode: the base name as it is when it holds a
    marker, the base name with a marker built from [season] and [episode]
    otherwise. *)
Definition episode_final_name (base_safe : str) (season episode : Z) : str :=
  match re_search re_SddEdd base_safe with
  | Some _ => base_safe ++ py ".strm"
  | None => base_safe ++ py " - " ++ sxxexx season episode ++ py ".strm"
  end.

Definition season_dir (show_name : str) (season : Z) : path :=
  joinpath (joinpath (joinpath MEDIA_ROOT (py "tv")) show_name)
           (season_folder season).

Definition add_episode (show : str) (season episode : Z) (link : str)
  : prog unit :=
  let show_name := sanitize_name show in
  let* r := unrestrict link in
  if negb (truthy_opt (direct r))
  then raise RuntimeError "No direct link returned from Real-Debrid."
  else
    let direct_url := default [] (direct r) in
    let* base :=
      (if truthy_opt (filename r)
       then pure (Ret (strip_extension (default [] (filename r))))
       else let* b := pure (name_from_url direct_url) in
            pure (Ret (strip_extension b))) in
    let base_safe := sanitize_name base in
    let final_name := episode_final_name base_safe season episode in
    let dest := joinpath (season_dir show_name season) final_name in
    let* _ := write_strm_file dest direct_url in
    log_entry (py "tv") link dest (filename r).

(** [fname or name_from_url(link) or fallback], the argument of
    [strip_extension] in both batch handlers, [fname] being the service's
    file name or else the name taken from the direct URL. *)
Definition batch_candidate (r : resp) (link fallback : str) : result str :=
  fname ←
    (if negb (truthy_opt (filename r)) && truthy_opt (direct r)
     then Some <$> name_from_url (default [] (direct r))
     else Ret (filename r));
  if truthy_opt fname then Ret (default [] fname)
  else
    n ← name_from_url link;
    Ret (if truthy n then n else fallback).

(** The body of the [try] of [add_movie_links_from_list]. *)
Definition movie_link (link : str) : prog unit :=
  let* r := unrestrict link in
  if negb (truthy_opt (direct r))
  then raise RuntimeError "No direct URL returned"
  else
    let* cand := pure (batch_candidate r link (py "unnamed")) in
    let safe := sanitize_name (strip_extension cand) in
    let dest := movie_dest safe in
    let* _ := write_strm_file dest (default [] (direct r)) in
    log_entry (py "movies") link dest (filename r).

(** The body of the [try] of [add_episode_links_from_list]. *)
Definition episode_link (show_name : str) (season : Z) (link : str)
  : prog unit :=
  let season_path := season_dir show_name season in
  let* r := unrestrict link in
  if negb (truthy_opt (direct r))
  then raise RuntimeError "No direct URL returned"
  else
    let* cand := pure (batch_candidate r link (show_name ++ py "_ep")) in
    let base_safe := sanitize_name (strip_extension cand) in
    let* final_name :=
      (match re_search re_SddEdd base_safe with
       | Some _ => pure (Ret (base_safe ++ py ".strm"))
       | None =>
         fun w =>
           let existing := count_strm season_path (fs w) in
           let idx := Z.of_nat (existing + 1) in
           (Ret (base_safe ++ py " - " ++ sxxexx season idx ++ py ".strm"), w)
       end) in
    let dest := joinpath season_path final_name in
    let* _ := write_strm_file dest (default [] (direct r)) in
    log_entry (py "tv") link dest (filename r).

(** The loop shared by the two batch handlers: blank lines are skipped,
    an exception of the body is appended to [errors] and the loop goes
    on. *)
Fixpoint batch_loop (body : str -> prog unit) (links : list str)
    (written : nat) (errors : list (str * str)) (w : world)
  : (nat * list (str * str)) * world :=
  match links with
  | [] => ((written, errors), w)
  | l :: rest =>
    let link := strip l in
    if negb (truthy link) then batch_loop body rest written errors w
    else
      match body link w with
      | (Ret _, w') => batch_loop body rest (written + 1) errors w'
      | (Raise e, w') =>
        batch_loop body rest written (errors ++ [(link, exn_msg e)]) w'
      end
  end.

Definition add_movie_links_from_list (links : list str) (w : world)
  : (nat * list (str * str)) * world :=
  batch_loop movie_link links 0 [] w.

(** [season_path.mkdir(parents=True, exist_ok=True)] stands before the
    loop and outside its [try]: when it raises, the handler raises and
    no link is tried. *)
Definition add_episode_links_from_list (show : str) (season : Z)
    (links : list str) : prog (nat * list (str * str)) :=
  fun w =>
    let show_name := sanitize_name show in
    let season_path := season_dir show_name season in
    match os_mkdir (calls w) season_path with
    | Some e => (Raise e, w)
    | None =>
      let '(res, w') :=
        batch_loop (episode_link show_name season) links 0 [] w in
      (Ret res, w')
    end.

End rdfin_strm.

(** ** app.py *)

(** One parsed log line: the dict with the keys [link], [target], [raw]. *)
Record entry := Entry {
  e_link : option str;
  e_target : option str;
  e_raw : str
}.

(** The loop over the pipe-separated parts: the last [link=] and the last
    [target=] token win. *)
Definition scan_tokens (parts : list str) : option str * option str :=
  fold_left
    (fun '(link, target) p =>
       let lp := lower p in
       if startswith (py "link=") lp
       then (Some (strip (partition_after "="%char p)), target)
       else if startswith (py "target=") lp
       then (link, Some (strip (partition_after "="%char p)))
       else (link, target))
    parts (None, None).

(** The first part, from the right, that starts like a URL. *)
Definition bare_url (parts : list str) : option str :=
  List.find (fun p => startswith (py "http://") p || startswith (py "https://") p)
            (rev parts).

Definition parse_line (ln : str) : option entry :=
  let ln := strip ln in
  if negb (truthy ln) then None
  else
    let parts := map strip (split_on (py "|") ln) in
    let '(link, target) := scan_tokens parts in
    let link :=
      if negb (truthy_opt link)
      then match bare_url parts with Some p => Some p | None => link end
      else link in
    Some (Entry link target ln).

(** A log file is the list of its lines, [None] when it does not exist. *)
Definition parse_log_entries (file : option (list str)) : list entry :=
  match file with
  | None => []
  | Some lines => omap parse_line lines
  end.

(** [l[-k]] for a positive [k]. *)
Definition py_index_back {A} (l : list A) (k : nat) : result A :=
  if (k <=? length l)%nat then py_index l (length l - k)
  else Raise (Exn IndexError (py "list index out of range")).

(** [m = re.search(r'(\d{1,2})', folder); int(m.group(1)) if m else None] *)
Definition season_number (folder : str) : result (option Z) :=
  match re_search re_d12 folder with
  | Some m => Some <$> py_int (m_group0 m)
  | None => Ret None
  end.

(** The list [parts] of [infer_show_and_season_from_target]. *)
Definition segments (target : str) : list str :=
  List.filter (fun part => truthy part && negb (str_eqb part (py "/")))
              (parse_parts target).

(** The body of the [try]; [None] when control reaches its end without a
    [return]. *)
Definition infer_target_body (target : str)
  : result (option (option str * option Z)) :=
  let parts := segments target in
  let lower_parts := map lower parts in
  if existsb (fun x => str_eqb x (py "tv")) lower_parts then
    idx ← list_index (py "tv") lower_parts;
    show ←
      (if (idx + 1 <? length parts)%nat
       then Some <$> py_index parts (idx + 1) else Ret None);
    folder ←
      (if (idx + 2 <? length parts)%nat
       then Some <$> py_index parts (idx + 2) else Ret None);
    season_num ←
      (if truthy_opt folder then season_number (default [] folder)
       else Ret None);
    Ret (Some (show, season_num))
  else if (3 <=? length parts)%nat then
    show ← py_index_back parts 3;
    folder ← py_index_back parts 2;
    season_num ← season_number folder;
    Ret (Some (Some show, season_num))
  else Ret None.

Definition infer_show_and_season_from_target (target : str)
  : result (option str * option Z) :=
  if negb (truthy target) then Ret (None, None)
  else
    r ← try_except (infer_target_body target) (fun _ => Ret None);
    Ret (default (None, None) r).

Definition infer_from_filename_for_season (fname : str)
  : result (option str * option Z) :=
  if negb (truthy fname) then Ret (None, None)
  else
    let base := path_stem (parse_parts fname) in
    match re_search re_SdEd base with
    | Some m =>
      season_num ← py_int (m_span 1 3 m);
      pieces ← py_split (m_group0 m) base;
      first ← py_index pieces 0;
      let show_part := strip_chars (py " -._.") first in
      let show :=
        if truthy show_part
        then Some (strip (replace_char "."%char " "%char show_part))
        else None in
      Ret (show, Some season_num)
    | None =>
      match re_search re_season base with
      | Some m2 =>
        season_num ← py_int (m_span 7 9 m2);
        pieces ← py_split (m_group0 m2) base;
        first ← py_index pieces 0;
        let show := strip (replace_char "."%char " "%char first) in
        Ret (if truthy show then Some show else None, Some season_num)
      | None => Ret (None, None)
      end
    end.

(** Truthiness of an optional integer: [None] and [0] are both false. *)
Definition truthy_int (o : option Z) : bool :=
  match o with Some z => negb (z =? 0)%Z | None => false end.

(** The key under which the tv branch of [spawn_refresh_job_simple] files
    a record. *)
Definition group_key (link : str) (target : option str) : result (str * Z) :=
  let tgt := default [] target in
  '(show, season) ←
    (if truthy_opt target then
       '(s, sn) ← infer_show_and_season_from_target tgt;
       Ret (if truthy_opt s then (s, sn) else (None, None))
     else Ret (None, None));
  '(show, season) ←
    (if negb (truthy_opt show) && truthy_opt target then
       try_except
         ('(s, sn) ← infer_from_filename_for_season
                        (path_name (parse_parts tgt));
          Ret (if truthy_opt s || truthy_int sn then (s, sn)
               else (show, season)))
         (fun _ => Ret (show, season))
     else Ret (show, season));
  '(show, season) ←
    (if negb (truthy_opt show) then
       '(s, sn) ← infer_from_filename_for_season link;
       Ret (if truthy_opt s || truthy_int sn then (s, sn)
            else (show, season))
     else Ret (show, season));
  let show := if negb (truthy_opt show) then py "Unknown" else default [] show in
  let season := if negb (truthy_int season) then 1%Z else default 1%Z season in
  Ret (show, season).

(** [groups.setdefault(key, []).append(link)] on a dict, which keeps its
    keys in the order of their first insertion. *)
Fixpoint setdefault_append (key : str * Z) (link : str)
    (groups : list ((str * Z) * list str)) : list ((str * Z) * list str) :=
  match groups with
  | [] => [(key, [link])]
  | (k, links) :: rest =>
    if bool_decide (k = key) then (k, links ++ [link]) :: rest
    else (k, links) :: setdefault_append key link rest
  end.

Fixpoint group_entries (entries : list entry)
    (groups : list ((str * Z) * list str))
  : result (list ((str * Z) * list str)) :=
  match entries with
  | [] => Ret groups
  | e :: rest =>
    if negb (truthy_opt (e_link e)) then group_entries rest groups
    else
      let link := default [] (e_link e) in
      key ← group_key link (e_target e);
      group_entries rest (setdefault_append key link groups)
  end.

(** A started job: the links written to its temporary file and, for tv,
    the show and season given on the command line. *)
Inductive job :=
| MoviesJob (links : list str)
| TvJob (show : str) (season : Z) (links : list str).

Definition spawn_refresh_job_simple (media_type : str)
    (logfile : option (list str)) : result (list job) :=
  match logfile with
  | None => Raise (Exn FileNotFoundError (py "log not found"))
  | Some _ =>
    let entries := parse_log_entries logfile in
    match entries with
    | [] => Raise (Exn RuntimeError (py "no links found in log"))
    | _ :: _ =>
      if str_eqb media_type (py "movies") then
        let links :=
          omap (fun e => if truthy_opt (e_link e) then e_link e else None)
               entries in
        match links with
        | [] => Raise (Exn RuntimeError (py "no links found in movie log"))
        | _ :: _ => Ret [MoviesJob links]
        end
      else
        groups ← group_entries entries [];
        Ret (map (fun '((show, season), links) => TvJob show season links)
                 groups)
    end
  end.

(** ** The vocabulary of the properties *)

Definition tab : ascii := "009"%char.

(** [t] occurs in [s]. *)
Definition substring (t s : str) : Prop := exists a b, s = a ++ t ++ b.

(** A proper segment: not empty, not a single dot, without a slash. *)
Definition segment (s : str) : Prop :=
  truthy s = true /\ s <> py "." /\ mem slash s = false.

(** *** Patterns, read declaratively *)

(** The texts an item matches. *)
Definition accepts (i : item) (t : str) : Prop :=
  match i with
  | One cls => exists a, t = [a] /\ cls a = true
  | Opt cls => t = [] \/ exists a, t = [a] /\ cls a = true
  end.

(** [pieces] is one way of reading a text as the pattern [p]. *)
Definition reads (p : pattern) (pieces : list str) : Prop :=
  Forall2 accepts p pieces.

(** A text matches at its start when some prefix of it reads as [p]. *)
Definition matches_at (p : pattern) (s : str) : Prop :=
  exists r rest, reads p r /\ s = concat r ++ rest.

(** The text [s] holds a match of [p] somewhere. *)
Definition contains (p : pattern) (s : str) : Prop :=
  exists before after, s = before ++ after /\ matches_at p after.

(** *** Markers and season numbers *)

(** Written from the specification's words: the value of the first run of
    one or two digits of a text. *)
Fixpoint first_digit_run (s : str) : option Z :=
  match s with
  | [] => None
  | c :: s' =>
    if isdigit c then
      match s' with
      | d :: _ =>
        if isdigit d then Some (10 * digit_value c + digit_value d)%Z
        else Some (digit_value c)
      | [] => Some (digit_value c)
      end
    else first_digit_run s'
  end.

Definition digits12 (d : str) : Prop :=
  (length d = 1 \/ length d = 2)%nat /\ forallb isdigit d = true.

(** [t] is a marker S<1-2 digits>E<1-2 digits>, in either case, and [sd]
    its season digits. *)
Definition episode_marker (t sd : str) : Prop :=
  exists c1 c2 ed,
    t = c1 :: sd ++ c2 :: ed
    /\ ichar "S" c1 = true /\ ichar "E" c2 = true
    /\ digits12 sd /\ digits12 ed.

Definition has_episode_marker (s : str) : Prop :=
  exists pre t sd post, s = pre ++ t ++ post /\ episode_marker t sd.

(** [t] is the word season in any case, an optional separator among
    space, dot, underscore and dash, and one or two digits. *)
Definition season_token (t : str) : Prop :=
  exists w sep d,
    t = w ++ sep ++ d
    /\ lower w = py "season"
    /\ (sep = [] \/ exists c, sep = [c] /\ mem c (py " ._-") = true)
    /\ digits12 d.

Definition has_season_token (s : str) : Prop :=
  exists pre t post, s = pre ++ t ++ post /\ season_token t.

(** The show name the code makes of the text before a marker. *)
Definition show_before (pre : str) : option str :=
  let show_part := strip_chars (py " -._.") pre in
  if truthy show_part
  then Some (strip (replace_char "."%char " "%char show_part))
  else None.

(** [t] is S<2 digits>E<2 digits>, in either case. *)
Definition fixed_marker (t : str) : Prop :=
  exists c1 a b c2 c d,
    t = [c1; a; b; c2; c; d]
    /\ ichar "S" c1 = true /\ isdigit a = true /\ isdigit b = true
    /\ ichar "E" c2 = true /\ isdigit c = true /\ isdigit d = true.

Definition has_fixed_marker (s : str) : Prop :=
  exists pre t post, s = pre ++ t ++ post /\ fixed_marker t.

(** *** Batches and worlds *)

(** What a batch must do, item by item: a blank line is passed over, an
    item whose body returns counts as written, an item whose body raises
    leaves its link and the text of the exception in the error list, and
    in each case the rest of the batch is run from the world reached. *)
Inductive batch_run (body : str -> prog unit)
  : list str -> world -> nat -> list (str * str) -> world -> Prop :=
| run_done w : batch_run body [] w 0 [] w
| run_blank l links w n errs w' :
    truthy (strip l) = false ->
    batch_run body links w n errs w' ->
    batch_run body (l :: links) w n errs w'
| run_written l links w w1 n errs w' :
    truthy (strip l) = true ->
    body (strip l) w = (Ret tt, w1) ->
    batch_run body links w1 n errs w' ->
    batch_run body (l :: links) w (S n) errs w'
| run_failed l links w w1 e n errs w' :
    truthy (strip l) = true ->
    body (strip l) w = (Raise e, w1) ->
    batch_run body links w1 n errs w' ->
    batch_run body (l :: links) w n ((strip l, exn_msg e) :: errs) w'.

(** A request to the service advances the count of calls and nothing
    else. *)
Definition after_call (w : world) : world :=
  {| fs := fs w; logs := logs w; calls := S (calls w) |}.

(** The world after a request for which the descriptor was written and
    logged: the file lies where [dest] resolves, the log holds [dest] as
    the code built it. *)
Definition after_write (w : world) (media link : str) (dest : path)
    (r : resp) : world :=
  {| fs := <[resolve dest := strip (default [] (direct r)) ++ [newline]]>
             (fs w);
     logs := logs w ++
       [LogLine media link dest (default [] (filename r))];
     calls := S (calls w) |}.

Section names.
Context {E : Env}.

(** The two statements on which every handler ends: the descriptor is
    written, then the line is logged. *)
Definition deliver (media link : str) (dest : path) (r : resp) : prog unit :=
  let* _ := write_strm_file dest (default [] (direct r)) in
  log_entry media link dest (filename r).

(** After [n] requests the file system writes the file [dest] and
    appends to the log of [media]. *)
Definition carried_out (n : nat) (media : str) (dest : path) : Prop :=
  os_write n dest = Written /\ os_append n media = None.

(** The name the batch handler gives an episode, in a world whose files
    are [files]. *)
Definition batch_final_name (show_name : str) (season : Z)
    (files : gmap path str) (base_safe : str) : str :=
  match re_search re_SddEdd base_safe with
  | Some _ => base_safe ++ py ".strm"
  | None =>
    base_safe ++ py " - "
    ++ sxxexx season
         (Z.of_nat (count_strm (season_dir show_name season) files + 1))
    ++ py ".strm"
  end.

(** The base name of [add_episode]: the stem of the service's file name,
    or else of the name taken from the direct URL. *)
Definition episode_base (r : resp) : result str :=
  if truthy_opt (filename r)
  then Ret (strip_extension (default [] (filename r)))
  else strip_extension <$> name_from_url (default [] (direct r)).

End names.

(** *** Groups of a tv log *)

(** The key of a record, [group_key] never raising. *)
Definition key_of (e : entry) : str * Z :=
  match group_key (default [] (e_link e)) (e_target e) with
  | Ret k => k
  | Raise _ => (py "Unknown", 1%Z)
  end.

(** The links filed under [k] in a dict. *)
Fixpoint links_under (k : str * Z) (groups : list ((str * Z) * list str))
  : list str :=
  match groups with
  | [] => []
  | (k', links) :: rest =>
    if bool_decide (k' = k) then links else links_under k rest
  end.

(** The links of the records whose key is [k], in the order of the log. *)
Definition links_keyed (k : str * Z) (entries : list entry) : list str :=
  omap (fun e =>
          if truthy_opt (e_link e) && bool_decide (key_of e = k)
          then e_link e else None)
       entries.

Definition job_of_group (g : (str * Z) * list str) : job :=
  let '((show, season), links) := g in TvJob show season links.

Definition log_line_of (link target : string) : str :=
  py "2024-05-01T10:00:00+02:00 | link=" ++ py link
  ++ py " | target=" ++ py target ++ py " | rd_filename=".

(** *** A sample environment

    The media root is [/media].  The sample service refuses the links
    that start with [bad]; it answers the others with a direct URL and,
    unless the link starts with [anon], with the file name that follows
    the last slash of the link.  The sample [urlparse] reads the path of
    an absolute [http] URL without query or fragment and rejects a host
    with an unclosed bracket.  The sample file system refuses a path
    that has a segment of more than 255 bytes and carries out
    everything else. *)

Definition sample_urlparse (u : str) : result url :=
  let rest :=
    if startswith (py "https://") u then drop 8 u
    else if startswith (py "http://") u then drop 7 u else slash :: u in
  let host := List.hd [] (split_on [slash] rest) in
  if mem "["%char host && negb (mem "]"%char host)
  then Raise (Exn ValueError (py "Invalid IPv6 URL"))
  else Ret (Url (drop (length host) rest) host).

Definition sample_service (n : nat) (link : str) : result resp :=
  if startswith (py "bad") link
  then Raise (Exn RuntimeError (py "Real-Debrid error 503: unavailable"))
  else
    Ret (Resp (if startswith (py "anon") link then None
               else Some (path_name (parse_parts link)))
              (Some (py "https://cdn.example/d/" ++ path_name (parse_parts link)))).

(** The number of bytes of a text in UTF-8. *)
Definition utf8_length (s : str) : nat :=
  length s + length (List.filter (fun c => 128 <=? N_of_ascii c) s).

(** The shortest prefix of a path that ends with a segment of more than
    255 bytes. *)
Fixpoint too_long_prefix (before p : path) : option path :=
  match p with
  | [] => None
  | x :: rest =>
    if (255 <? utf8_length x)%nat then Some (before ++ [x])
    else too_long_prefix (before ++ [x]) rest
  end.

Definition sample_refusal (p : path) : option exn :=
  match too_long_prefix [] p with
  | Some q =>
    Some (Exn OSError
            (py "[Errno 36] File name too long: '" ++ path_str q ++ py "'"))
  | None => None
  end.

Definition sample_write (n : nat) (p : path) : write_outcome :=
  match sample_refusal p with
  | Some e => WriteFailed e None
  | None => Written
  end.

Definition sample_env : Env := {|
  MEDIA_ROOT := parse_parts (py "/media");
  urlparse := sample_urlparse;
  unquote := Ret;
  unrestrict_answer := sample_service;
  os_write := sample_write;
  os_mkdir := fun _ => sample_refusal;
  os_append := fun _ _ => None
|}.

(** The same, with a directory of logs that cannot be written. *)
Definition sample_env_without_log : Env := {|
  MEDIA_ROOT := parse_parts (py "/media");
  urlparse := sample_urlparse;
  unquote := Ret;
  unrestrict_answer := sample_service;
  os_write := sample_write;
  os_mkdir := fun _ => sample_refusal;
  os_append := fun _ media =>
    Some (Exn OSError
            (py "[Errno 13] Permission denied: '/fetch_logs/" ++ media
             ++ py "'"))
|}.

Definition empty_world : world := World ∅ [] 0.

(** A name of 300 characters, longer than a file name may be. *)
Definition long_name : str := List.repeat "a"%char 300.

(** ** Text files: the log and the lines of links *)

Definition cr : ascii := "013"%char.

(** The line that [log_entry] appends to the log of the day, [ts] being
    the time stamp. *)
Definition log_text (ts : str) (l : log_line) : str :=
  ts ++ py " | link=" ++ log_link l
  ++ py " | target=" ++ path_str (log_target l)
  ++ py " | rd_filename=" ++ log_rd_filename l ++ [newline].

(** What a file opened in text mode yields when iterated: a carriage
    return, alone or before a line feed, reads as a line feed, and each
    line keeps the line feed that ends it. *)
Fixpoint universal_newlines (s : str) : str :=
  match s with
  | [] => []
  | c :: s' =>
    if Ascii.eqb c cr then
      match s' with
      | d :: s'' =>
        if Ascii.eqb d newline then newline :: universal_newlines s''
        else newline :: universal_newlines s'
      | [] => [newline]
      end
    else c :: universal_newlines s'
  end.

Fixpoint lines_go (cur : str) (s : str) : list str :=
  match s with
  | [] => if truthy cur then [rev cur] else []
  | c :: s' =>
    if Ascii.eqb c newline then rev (c :: cur) :: lines_go [] s'
    else lines_go (c :: cur) s'
  end.

Definition file_lines (text : str) : list str :=
  lines_go [] (universal_newlines text).

(** The characters at which [str.splitlines] breaks a text. *)
Definition is_break (c : ascii) : bool :=
  between 10 13 c || between 28 30 c || (N_of_ascii c =? 133).

(** [s.splitlines()] *)
Fixpoint splitlines_go (cur : str) (s : str) : list str :=
  match s with
  | [] => if truthy cur then [rev cur] else []
  | c :: s' =>
    if Ascii.eqb c cr then
      match s' with
      | d :: s'' =>
        if Ascii.eqb d newline then rev cur :: splitlines_go [] s''
        else rev cur :: splitlines_go [] s'
      | [] => [rev cur]
      end
    else if is_break c then rev cur :: splitlines_go [] s'
    else splitlines_go (c :: cur) s'
  end.

Definition splitlines (s : str) : list str := splitlines_go [] s.

(** [[ln.strip() for ln in lines if ln.strip()]], as [main] cleans the
    lines of [--links] and of [--links-file]. *)
Definition clean_lines (lines : list str) : list str :=
  map strip (List.filter (fun ln => truthy (strip ln)) lines).

(** The links [main] takes from the text of [--links]. *)
Definition links_of_text (text : str) : list str :=
  clean_lines (splitlines text).

(** The links [main] takes from the file of [--links-file]. *)
Definition links_of_file (text : str) : list str :=
  clean_lines (file_lines text).

(** The temporary file that [spawn_refresh_job_simple] writes for a
    job: each link and a line feed. *)
Definition links_file (links : list str) : str :=
  concat (map (fun l => l ++ [newline]) links).

(** The links of a started job. *)
Definition job_links (j : job) : list str :=
  match j with
  | MoviesJob links => links
  | TvJob _ _ links => links
  end.

(** ** The vocabulary of further properties *)

(** Where the movie handler and the episode handler may write. *)
Definition movie_place {E : Env} (p : path) : Prop :=
  exists safe,
    mem slash safe = false
    /\ p = (MEDIA_ROOT ++ [py "movies"]) ++ parse_parts safe
           ++ [safe ++ py ".strm"].

Definition episode_place {E : Env} (show_name : str) (season : Z) (p : path)
  : Prop :=
  exists name,
    ends_with (py ".strm") name = true
    /\ mem slash name = false
    /\ p = season_dir show_name season ++ [name].

(** The longest run of digits at the start of a text. *)
Fixpoint take_while_digits (s : str) : str :=
  match s with
  | c :: s' => if isdigit c then c :: take_while_digits s' else []
  | [] => []
  end.

(** The digits that end a generated name, read back from the name. *)
Definition index_digits (name : str) : str :=
  rev (take_while_digits (drop 5 (rev name))).

(** *** Logs that read back *)

(** A text without a pipe and without a line break. *)
Definition plain (s : str) : bool :=
  forallb (fun c => negb (mem c ["|"%char; newline; cr])) s.

(** The characters of an ISO time stamp with its offset. *)
Definition stamp (ts : str) : bool :=
  forallb (fun c => isdigit c || mem c (py "-:T.+")) ts.

(** A log line whose fields hold no pipe and no line break, and whose
    link is not blank. *)
Definition loggable (l : log_line) : bool :=
  plain (log_link l) && truthy (strip (log_link l))
  && plain (path_str (log_target l)) && plain (log_rd_filename l).

(** The text of a log: the lines of [log_entry], each with its stamp. *)
Definition log_file (stamped : list (str * log_line)) : str :=
  concat (map (fun x => log_text (fst x) (snd x)) stamped).

(** The record expected from a line of [log_entry]. *)
Definition entry_of (x : str * log_line) : entry :=
  Entry (Some (strip (log_link (snd x))))
        (Some (strip (path_str (log_target (snd x)))))
        (strip (log_text (fst x) (snd x))).

(** The media root is an absolute path; none of its segments holds a
    pipe or a line break, and none reads [tv] in any case. *)
Definition plain_root {E : Env} : Prop :=
  exists segs,
    MEDIA_ROOT = py "/" :: segs
    /\ Forall (fun s => segment s /\ plain s = true /\ lower s <> py "tv")
              segs.

(** The show and season of a tv job. *)
Definition job_key (j : job) : option (str * Z) :=
  match j with
  | MoviesJob _ => None
  | TvJob show season _ => Some (show, season)
  end.

(** A link as [main] reads it back from a file of links: not empty,
    without white space around it and without a line break. *)
Definition clean_link (l : str) : Prop :=
  truthy l = true /\ strip l = l
  /\ mem newline l = false /\ mem cr l = false.

(** Two lines of a sample log of the season 2 of a show, with their
    stamps. *)
Definition sample_stamped : list (str * log_line) :=
  [(py "2024-05-01T10:00:00.123456+02:00",
    LogLine (py "tv") (py "https://host/f?id=1")
            (parse_parts (py "/media/tv/Show/Season 02/pilot - S02E01.strm"))
            (py "pilot.mkv"));
   (py "2024-05-01T10:00:02.654321+02:00",
    LogLine (py "tv") (py "https://host/f?id=2")
            (parse_parts (py "/media/tv/Show/Season 02/Show.S02E02.strm"))
            (py "Show.S02E02.mkv"))].

(* ================================================================== *)
(** * Properties *)

Example sanitize_plain :
  sanitize_name (py "  Movie: The *Best*?. ") = py "Movie The Best".
Proof. reflexivity. Qed.

(** ** Strings *)

Lemma lstrip_by_suffix p s :
  exists pre, s = pre ++ lstrip_by p s /\ forallb p pre = true.
Proof.
  induction s as [|c s IH]; simpl.
  - exists []. split; reflexivity.
  - destruct (p c) eqn:Hc.
    + destruct IH as (pre & Hs & Hp). exists (c :: pre). simpl.
      rewrite Hc, Hp. split; [congruence | reflexivity].
    + exists []. split; reflexivity.
Qed.

Lemma lstrip_by_head p s c t : lstrip_by p s = c :: t -> p c = false.
Proof.
  induction s as [|a s IH]; simpl; [discriminate|].
  destruct (p a) eqn:Ha; [exact IH|].
  intros [= -> _]. exact Ha.
Qed.

Lemma lstrip_by_In p s c : In c (lstrip_by p s) -> In c s.
Proof.
  destruct (lstrip_by_suffix p s) as (pre & Hs & _).
  intros Hin. rewrite Hs. apply in_or_app. right. exact Hin.
Qed.

Lemma rstrip_by_In p s c : In c (rstrip_by p s) -> In c s.
Proof.
  unfold rstrip_by. intros Hin.
  apply in_rev in Hin. apply lstrip_by_In in Hin. apply in_rev. exact Hin.
Qed.

Lemma strip_by_In p s c : In c (strip_by p s) -> In c s.
Proof.
  unfold strip_by. intros Hin.
  apply rstrip_by_In in Hin. apply lstrip_by_In in Hin. exact Hin.
Qed.

(** What a right strip leaves does not end with a stripped character. *)
Lemma rstrip_by_last p s t c : rstrip_by p s = t ++ [c] -> p c = false.
Proof.
  unfold rstrip_by. intros H.
  apply (f_equal (@rev ascii)) in H.
  rewrite rev_involutive, rev_app_distr in H. simpl in H.
  eapply lstrip_by_head. exact H.
Qed.

Lemma strip_by_last p s t c : strip_by p s = t ++ [c] -> p c = false.
Proof. unfold strip_by. apply rstrip_by_last. Qed.

Lemma mem_In c chars : mem c chars = true <-> In c chars.
Proof.
  unfold mem. rewrite existsb_exists. split.
  - intros (x & Hx & Heq). apply Ascii.eqb_eq in Heq. subst. exact Hx.
  - intros Hin. exists c. split; [exact Hin | apply Ascii.eqb_refl].
Qed.

(** ** [sanitize_name] *)

(** No reserved character survives. *)
Lemma sanitize_name_no_reserved name c :
  In c (sanitize_name name) -> mem c reserved = false.
Proof.
  unfold sanitize_name. destruct (truthy name) eqn:Hn; simpl.
  - intros Hin. unfold strip, rstrip_chars in Hin.
    apply strip_by_In, rstrip_by_In, strip_by_In in Hin.
    apply filter_In in Hin. destruct Hin as [_ Hc].
    apply negb_true_iff in Hc. exact Hc.
  - intros Hin.
    repeat (destruct Hin as [<- | Hin]; [reflexivity|]). destruct Hin.
Qed.

(** The result does not end with white space, a space in particular. *)
Lemma sanitize_name_no_trailing_space name t c :
  sanitize_name name = t ++ [c] -> isspace c = false.
Proof.
  unfold sanitize_name. destruct (truthy name); simpl.
  - unfold strip. apply strip_by_last.
  - intros H. apply (f_equal (@rev ascii)) in H.
    rewrite rev_app_distr in H. simpl in H.
    injection H as <- _. reflexivity.
Qed.

(** The fallback is returned for the empty name only: a name that
    cleaning empties gives the empty string. *)
Lemma sanitize_name_unnamed_only name :
  truthy name = true ->
  Forall (fun c => mem c reserved = true \/ isspace c = true) name ->
  sanitize_name name = [].
Proof.
  intros Hn Hall. unfold sanitize_name. rewrite Hn. cbn [negb].
  assert (Hs : strip (List.filter (fun c => negb (mem c reserved)) name) = []).
  { unfold strip, strip_by.
    assert (Hl : lstrip_by isspace
                   (List.filter (fun c => negb (mem c reserved)) name) = []).
    { clear Hn. induction Hall as [|c l Hc _ IH]; [reflexivity|].
      cbn [List.filter].
      destruct (mem c reserved) eqn:Hm; cbn [negb lstrip_by]; [exact IH|].
      destruct Hc as [Hc | Hc]; [discriminate|]. rewrite Hc. exact IH. }
    rewrite Hl. reflexivity. }
  rewrite Hs. reflexivity.
Qed.

(** C4 (the code departs from the claim).  No reserved character and no
    trailing white space survive, whatever the name.  But
    [sanitize_name] tests for the empty name before it cleans, so a name
    made of reserved characters gives the empty string and not the
    fallback ["unnamed"]; and its last [strip()] runs after the dots were
    trimmed, so a dot that stood before a trailing tab ends the
    result. *)
Theorem sanitize_name_failing_inputs :
  (forall name c, In c (sanitize_name name) -> mem c reserved = false)
  /\ (forall name t c, sanitize_name name = t ++ [c] -> isspace c = false)
  /\ (forall name,
        truthy name = true ->
        Forall (fun c => mem c reserved = true \/ isspace c = true) name ->
        sanitize_name name = [])
  /\ sanitize_name (py "???") = py ""
  /\ sanitize_name (py "|") = py ""
  /\ sanitize_name [ "a"; "."; tab; "." ]%char = py "a."
  /\ sanitize_name [ "."; tab; "." ]%char = py ".".
Proof.
  split; [exact sanitize_name_no_reserved|].
  split; [exact sanitize_name_no_trailing_space|].
  split; [exact sanitize_name_unnamed_only|].
  repeat split; reflexivity.
Qed.

(** ** The matcher against a declarative reading of patterns *)

Lemma match_here_sound p : forall s r,
  match_here p s = Some r ->
  reads p r /\ exists rest, s = concat r ++ rest.
Proof.
  induction p as [|[cls|cls] p IH]; intros s r; simpl.
  - intros [= <-]. split; [constructor | exists s; reflexivity].
  - destruct s as [|a s']; [discriminate|].
    destruct (cls a) eqn:Ha; [|discriminate].
    destruct (match_here p s') as [r'|] eqn:Hm; [|discriminate].
    intros [= <-]. destruct (IH _ _ Hm) as (Hr & rest & ->).
    split; [constructor; [exists a; auto | exact Hr] | exists rest; reflexivity].
  - assert (Hskip : forall t, cons [] <$> match_here p t = Some r ->
                reads (Opt cls :: p) r /\ exists rest, t = concat r ++ rest).
    { intros t Ht. destruct (match_here p t) as [r'|] eqn:Hm; [|discriminate].
      injection Ht as <-. destruct (IH _ _ Hm) as (Hr & rest & ->).
      split; [constructor; [left; reflexivity | exact Hr]
             | exists rest; reflexivity]. }
    destruct s as [|a s']; [apply Hskip|].
    destruct (cls a) eqn:Ha; [|apply Hskip].
    destruct (match_here p s') as [r'|] eqn:Hm; [|apply Hskip].
    intros [= <-]. destruct (IH _ _ Hm) as (Hr & rest & ->).
    split; [constructor; [right; exists a; auto | exact Hr]
           | exists rest; reflexivity].
Qed.

Lemma match_here_complete p r : reads p r ->
  forall rest, is_Some (match_here p (concat r ++ rest)).
Proof.
  induction 1 as [|i t p r Hacc _ IH]; intros rest; simpl.
  - eexists; reflexivity.
  - destruct i as [cls|cls]; simpl in Hacc.
    + destruct Hacc as (a & -> & Ha). simpl. rewrite Ha.
      destruct (IH rest) as [r' ->]. eexists; reflexivity.
    + assert (Hskip : forall t, is_Some (match_here p t) ->
                is_Some (cons [] <$> match_here p t)).
      { intros t0 [r' ->]. eexists; reflexivity. }
      destruct Hacc as [-> | (a & -> & Ha)]; simpl.
      * destruct (concat r ++ rest) as [|a s'] eqn:Hs.
        -- apply Hskip. rewrite <- Hs. apply IH.
        -- destruct (cls a); [|apply Hskip; rewrite <- Hs; apply IH].
           destruct (match_here p s'); [eexists; reflexivity|].
           apply Hskip. rewrite <- Hs. apply IH.
      * rewrite Ha. destruct (IH rest) as [r' ->]. eexists; reflexivity.
Qed.

Lemma match_here_iff p s : is_Some (match_here p s) <-> matches_at p s.
Proof.
  split.
  - intros [r Hr]. destruct (match_here_sound _ _ _ Hr) as (H1 & rest & H2).
    exists r, rest. split; assumption.
  - intros (r & rest & Hr & ->). apply match_here_complete. exact Hr.
Qed.

(** [re.search] finds the leftmost position with a match. *)
Lemma search_from_Some p : forall s before m,
  search_from p before s = Some m ->
  exists skipped rest,
    s = skipped ++ concat (m_items m) ++ rest
    /\ m_before m = rev before ++ skipped
    /\ reads p (m_items m)
    /\ match_here p (concat (m_items m) ++ rest) = Some (m_items m)
    /\ forall k, (k < length skipped)%nat -> ~ matches_at p (drop k s).
Proof.
  induction s as [|a s IH]; intros before m; simpl.
  - destruct (match_here p []) as [r|] eqn:Hm; [|discriminate].
    intros [= <-]. destruct (match_here_sound _ _ _ Hm) as (Hr & rest & Hs).
    exists [], rest. simpl. rewrite app_nil_r. rewrite <- Hs.
    repeat split; auto. intros k Hk. inversion Hk.
  - destruct (match_here p (a :: s)) as [r|] eqn:Hm.
    + intros [= <-]. destruct (match_here_sound _ _ _ Hm) as (Hr & rest & Hs).
      exists [], rest. simpl. rewrite app_nil_r. rewrite <- Hs.
      repeat split; auto. intros k Hk. inversion Hk.
    + intros Hsearch. destruct (IH _ _ Hsearch) as (sk & rest & Hs & Hb & Hr & Hm' & Hleft).
      exists (a :: sk), rest. simpl. rewrite Hs at 1.
      repeat split; auto.
      * rewrite Hb. simpl. rewrite <- app_assoc. reflexivity.
      * intros [|k] Hk; simpl.
        -- intros Hat. apply match_here_iff in Hat. rewrite Hm in Hat.
           destruct Hat; discriminate.
        -- apply Hleft. simpl in Hk. lia.
Qed.

Lemma search_from_None p : forall s before,
  search_from p before s = None ->
  forall k, ~ matches_at p (drop k s).
Proof.
  induction s as [|a s IH]; intros before; simpl.
  - destruct (match_here p []) eqn:Hm; [discriminate|].
    intros _ k Hat. rewrite drop_nil in Hat.
    apply match_here_iff in Hat. rewrite Hm in Hat. destruct Hat; discriminate.
  - destruct (match_here p (a :: s)) eqn:Hm; [discriminate|].
    intros Hs [|k]; simpl.
    + intros Hat. apply match_here_iff in Hat. rewrite Hm in Hat.
      destruct Hat; discriminate.
    + eapply IH. exact Hs.
Qed.

Lemma re_search_contains p s : is_Some (re_search p s) <-> contains p s.
Proof.
  unfold re_search. split.
  - intros [m Hm]. destruct (search_from_Some _ _ _ _ Hm)
      as (sk & rest & Hs & _ & Hr & _ & _).
    exists sk, (concat (m_items m) ++ rest). split; [exact Hs|].
    exists (m_items m), rest. split; [exact Hr | reflexivity].
  - intros (before & after & -> & Hat).
    destruct (search_from p [] (before ++ after)) eqn:Hsearch;
      [eexists; reflexivity|].
    exfalso. apply (search_from_None _ _ _ Hsearch (length before)).
    rewrite drop_app_length. exact Hat.
Qed.

(** ** Season numbers *)

Lemma season_number_search s : forall before,
  match search_from re_d12 before s with
  | Some m => Some <$> py_int (m_group0 m)
  | None => Ret None
  end = Ret (first_digit_run s).
Proof.
  induction s as [|c s IH]; intros before; [reflexivity|].
  cbn [search_from first_digit_run]. unfold re_d12. cbn [match_here].
  destruct (isdigit c) eqn:Hc; [|apply IH].
  destruct s as [|d s']; cbn [match_here fmap option_fmap option_map].
  - unfold py_int, m_group0. cbn. rewrite Hc. cbn. f_equal.
  - destruct (isdigit d) eqn:Hd; cbn [fmap option_fmap option_map];
      unfold py_int, m_group0; cbn; rewrite Hc; try rewrite Hd; cbn;
      repeat f_equal; lia.
Qed.

(** The regular expression of the source computes the first digit run. *)
Lemma season_number_spec folder :
  season_number folder = Ret (first_digit_run folder).
Proof. apply season_number_search. Qed.

Lemma find_index_first x pre y rest :
  y = x -> (forall z, In z pre -> z <> x) ->
  find_index x (pre ++ y :: rest) = Some (length pre).
Proof.
  intros -> Hpre. induction pre as [|z pre IH]; simpl.
  - unfold str_eqb. rewrite bool_decide_eq_true_2; reflexivity.
  - unfold str_eqb. rewrite bool_decide_eq_false_2.
    + rewrite IH; [reflexivity|]. intros w Hw. apply Hpre. right. exact Hw.
    + apply Hpre. left. reflexivity.
Qed.

Lemma existsb_str_eqb x l :
  existsb (fun y => str_eqb y x) l = true <-> In x l.
Proof.
  rewrite existsb_exists. unfold str_eqb. split.
  - intros (y & Hy & Heq). apply bool_decide_eq_true in Heq. subst. exact Hy.
  - intros Hin. exists x. split; [exact Hin | apply bool_decide_eq_true; reflexivity].
Qed.

Lemma segments_truthy target x : In x (segments target) -> truthy x = true.
Proof.
  unfold segments. intros Hin. apply filter_In in Hin.
  destruct Hin as [_ Hx]. apply andb_true_iff in Hx. tauto.
Qed.

(** The [tv] branch: the segment after the first [tv] and the digit run
    of the one after it. *)
Lemma segments_truthy_target target x l l' :
  segments target = l ++ x :: l' -> truthy target = true.
Proof.
  destruct target; [|reflexivity].
  change (segments []) with (@nil str). destruct l; discriminate.
Qed.

Lemma infer_target_tv target pre tv rest :
  segments target = pre ++ tv :: rest ->
  lower tv = py "tv" ->
  (forall x, In x pre -> lower x <> py "tv") ->
  infer_show_and_season_from_target target
  = Ret (head rest, nth_error rest 1 ≫= first_digit_run).
Proof.
  intros Hseg Htv Hpre.
  assert (Ht := segments_truthy_target _ _ _ _ Hseg).
  assert (Hidx : find_index (py "tv") (map lower (segments target))
                 = Some (length pre)).
  { rewrite Hseg, map_app. cbn [map].
    rewrite <- (length_map lower pre). apply find_index_first; [exact Htv|].
    intros z Hz. apply in_map_iff in Hz. destruct Hz as (x & <- & Hx).
    apply Hpre. exact Hx. }
  assert (Hin : existsb (fun x => str_eqb x (py "tv"))
                  (map lower (segments target)) = true).
  { apply existsb_str_eqb. rewrite Hseg, map_app. apply in_or_app. right.
    left. exact Htv. }
  assert (Hnonempty : forall x, In x rest -> truthy x = true).
  { intros x Hx. apply (segments_truthy target). rewrite Hseg.
    apply in_or_app. right. right. exact Hx. }
  unfold infer_show_and_season_from_target. rewrite Ht. cbn [negb].
  unfold infer_target_body. rewrite Hin. unfold list_index. rewrite Hidx.
  cbn [mbind result_bind]. rewrite Hseg.
  unfold py_index. rewrite !length_app. cbn [length].
  replace (length pre + 1)%nat with (length pre + 1 + 0)%nat by lia.
  replace (length pre + 2)%nat with (length pre + 1 + 1)%nat by lia.
  replace (pre ++ tv :: rest) with ((pre ++ [tv]) ++ rest)
    by (rewrite <- app_assoc; reflexivity).
  assert (Hlen : length (pre ++ [tv]) = (length pre + 1)%nat)
    by (rewrite length_app; simpl; lia).
  rewrite <- Hlen, !nth_error_app2 by lia.
  replace (length (pre ++ [tv]) + 0 - length (pre ++ [tv]))%nat with 0%nat by lia.
  replace (length (pre ++ [tv]) + 1 - length (pre ++ [tv]))%nat with 1%nat by lia.
  rewrite Hlen.
  destruct rest as [|show [|folder rest']]; cbn [length nth_error head].
  - replace (length pre + 1 + 0 <? length pre + S 0)%nat with false
      by (symmetry; apply Nat.ltb_ge; lia).
    replace (length pre + 1 + 1 <? length pre + S 0)%nat with false
      by (symmetry; apply Nat.ltb_ge; lia).
    reflexivity.
  - replace (length pre + 1 + 0 <? length pre + S 1)%nat with true
      by (symmetry; apply Nat.ltb_lt; lia).
    replace (length pre + 1 + 1 <? length pre + S 1)%nat with false
      by (symmetry; apply Nat.ltb_ge; lia).
    reflexivity.
  - replace (length pre + 1 + 0 <? length pre + S (S (S (length rest'))))%nat
      with true by (symmetry; apply Nat.ltb_lt; lia).
    replace (length pre + 1 + 1 <? length pre + S (S (S (length rest'))))%nat
      with true by (symmetry; apply Nat.ltb_lt; lia).
    cbn [fmap result_fmap mbind result_bind truthy_opt default].
    rewrite (Hnonempty folder) by (right; left; reflexivity).
    rewrite season_number_spec. reflexivity.
Qed.

(** The fallback: no [tv] segment and at least three segments. *)
Lemma infer_target_fallback target front show folder file :
  (forall x, In x (segments target) -> lower x <> py "tv") ->
  segments target = front ++ [show; folder; file] ->
  infer_show_and_season_from_target target
  = Ret (Some show, first_digit_run folder).
Proof.
  intros Hno Hseg.
  assert (Ht := segments_truthy_target _ _ _ _ Hseg).
  assert (Hin : existsb (fun x => str_eqb x (py "tv"))
                  (map lower (segments target)) = false).
  { apply not_true_iff_false. intros Hex. apply existsb_str_eqb in Hex.
    apply in_map_iff in Hex. destruct Hex as (x & Hx & Hxin).
    exact (Hno x Hxin Hx). }
  unfold infer_show_and_season_from_target. rewrite Ht. cbn [negb].
  unfold infer_target_body. rewrite Hin. rewrite Hseg.
  unfold py_index_back, py_index. rewrite !length_app. cbn [length].
  replace (3 <=? length front + 3)%nat with true
    by (symmetry; apply Nat.leb_le; lia).
  replace (2 <=? length front + 3)%nat with true
    by (symmetry; apply Nat.leb_le; lia).
  replace (length front + 3 - 3)%nat with (length front + 0)%nat by lia.
  replace (length front + 3 - 2)%nat with (length front + 1)%nat by lia.
  rewrite !nth_error_app2 by lia.
  replace (length front + 0 - length front)%nat with 0%nat by lia.
  replace (length front + 1 - length front)%nat with 1%nat by lia.
  cbn [nth_error mbind result_bind]. rewrite season_number_spec. reflexivity.
Qed.

(** C6.  With a segment that equals [tv] up to case, the result is the
    segment after the first such one and the value of the first run of
    one or two digits of the segment after that (nothing when the segment
    or the digits are missing); without one and with at least three
    segments, it is the third segment from the end and the digit run of
    the second from the end; the path of the docstring gives
    [("Show Name", 1)]. *)
Theorem infer_show_and_season_from_target_spec :
  (forall target pre tv rest,
     segments target = pre ++ tv :: rest ->
     lower tv = py "tv" ->
     (forall x, In x pre -> lower x <> py "tv") ->
     infer_show_and_season_from_target target
     = Ret (head rest, nth_error rest 1 ≫= first_digit_run))
  /\ (forall target front show folder file,
     (forall x, In x (segments target) -> lower x <> py "tv") ->
     segments target = front ++ [show; folder; file] ->
     infer_show_and_season_from_target target
     = Ret (Some show, first_digit_run folder))
  /\ infer_show_and_season_from_target
       (py "/media/tv/Show Name/Season 01/Show Name - S01E01.strm")
     = Ret (Some (py "Show Name"), Some 1%Z).
Proof.
  split; [|split].
  - exact infer_target_tv.
  - exact infer_target_fallback.
  - reflexivity.
Qed.

Lemma infer_show_and_season_from_target_witness :
  infer_show_and_season_from_target (py "/srv/TV/Lost/s2/e1.strm")
  = Ret (Some (py "Lost"), Some 2%Z)
  /\ infer_show_and_season_from_target (py "library/Lost/Season 12/e1.strm")
     = Ret (Some (py "Lost"), Some 12%Z).
Proof.
  split.
  - apply (proj1 infer_show_and_season_from_target_spec
             (py "/srv/TV/Lost/s2/e1.strm")
             [py "srv"] (py "TV") [py "Lost"; py "s2"; py "e1.strm"]).
    + reflexivity.
    + reflexivity.
    + intros x [<- | []]. discriminate.
  - apply (proj1 (proj2 infer_show_and_season_from_target_spec)
             (py "library/Lost/Season 12/e1.strm")
             [py "library"] (py "Lost") (py "Season 12") (py "e1.strm")).
    + intros x [<- | [<- | [<- | [<- | []]]]]; discriminate.
    + reflexivity.
Defined.

(** ** Totality of the inference functions *)

Lemma split_go_cons sep s : forall skip cur,
  exists x l, split_go sep skip cur s = x :: l.
Proof.
  induction s as [|a s IH]; intros skip cur; simpl.
  - eexists _, _; reflexivity.
  - destruct skip as [|k]; [|apply IH].
    destruct (startswith sep (a :: s)); [eexists _, _; reflexivity | apply IH].
Qed.

Lemma py_split_first sep s :
  truthy sep = true ->
  exists x l, py_split sep s = Ret (x :: l).
Proof.
  intros Hsep. unfold py_split. rewrite Hsep. cbn [negb].
  destruct (split_go_cons sep s 0 []) as (x & l & Hx).
  exists x, l. unfold split_on. rewrite Hx. reflexivity.
Qed.

Lemma py_int_returns s :
  truthy s = true -> forallb isdigit s = true -> returns (py_int s).
Proof.
  intros Hs Hd. unfold py_int. rewrite Hs, Hd. eexists; reflexivity.
Qed.

(** Reading a match of a pattern of the source item by item. *)
Ltac split_reads :=
  repeat match goal with
  | H : reads _ _ |- _ =>
    unfold reads in H;
    cbv [re_SdEd re_season re_SddEdd re_d12 ilit py list_ascii_of_string
         map app] in H
  | H : Forall2 accepts (_ :: _) _ |- _ => inversion H; subst; clear H
  | H : Forall2 accepts [] _ |- _ => inversion H; subst; clear H
  | H : accepts (One _) _ |- _ => destruct H as (? & -> & ?)
  | H : accepts (Opt _) _ |- _ => destruct H as [-> | (? & -> & ?)]
  end.

Ltac use_digits :=
  repeat match goal with
  | H : isdigit _ = true |- _ => rewrite H
  end.

Lemma re_search_reads p s m : re_search p s = Some m -> reads p (m_items m).
Proof.
  intros Hm. destruct (search_from_Some _ _ _ _ Hm) as (? & ? & ? & ? & Hr & _).
  exact Hr.
Qed.

Lemma infer_from_filename_returns fname :
  returns (infer_from_filename_for_season fname).
Proof.
  unfold infer_from_filename_for_season.
  destruct (truthy fname); cbn [negb]; [|eexists; reflexivity].
  set (base := path_stem (parse_parts fname)).
  destruct (re_search re_SdEd base) as [[mb mi]|] eqn:Hm.
  - apply re_search_reads in Hm. cbn [m_items] in Hm.
    assert (Hint : returns (py_int (m_span 1 3 (Build_rmatch mb mi)))).
    { split_reads; apply py_int_returns; cbn; use_digits; reflexivity. }
    assert (Hsep : truthy (m_group0 (Build_rmatch mb mi)) = true).
    { split_reads; reflexivity. }
    destruct Hint as [n ->].
    destruct (py_split_first _ base Hsep) as (x & l & ->).
    eexists; reflexivity.
  - destruct (re_search re_season base) as [[mb mi]|] eqn:Hm2;
      [|eexists; reflexivity].
    apply re_search_reads in Hm2. cbn [m_items] in Hm2.
    assert (Hint : returns (py_int (m_span 7 9 (Build_rmatch mb mi)))).
    { split_reads; apply py_int_returns; cbn; use_digits; reflexivity. }
    assert (Hsep : truthy (m_group0 (Build_rmatch mb mi)) = true).
    { split_reads; reflexivity. }
    destruct Hint as [n ->].
    destruct (py_split_first _ base Hsep) as (x & l & ->).
    eexists; reflexivity.
Qed.

Lemma infer_target_returns target :
  returns (infer_show_and_season_from_target target).
Proof.
  unfold infer_show_and_season_from_target.
  destruct (truthy target); cbn [negb]; [|eexists; reflexivity].
  destruct (infer_target_body target); eexists; reflexivity.
Qed.

Lemma find_index_bound x l :
  existsb (fun y => str_eqb y x) l = true ->
  exists i, find_index x l = Some i /\ (i < length l)%nat.
Proof.
  induction l as [|y l IH]; cbn [existsb find_index length]; [discriminate|].
  destruct (str_eqb y x); [intros _; exists 0%nat; split; [reflexivity | lia]|].
  cbn [orb]. intros H. destruct (IH H) as (i & -> & Hi).
  exists (S i). split; [reflexivity | lia].
Qed.

Lemma py_index_returns {A} (l : list A) i :
  (i < length l)%nat -> returns (py_index l i).
Proof.
  intros Hi. unfold py_index.
  destruct (nth_error l i) eqn:Hn; [eexists; reflexivity|].
  apply nth_error_None in Hn. lia.
Qed.

Lemma season_number_returns folder : returns (season_number folder).
Proof. rewrite season_number_spec. eexists; reflexivity. Qed.

(** Nothing raises inside the [try] of the target inference: its
    [except] clause is never entered. *)
Lemma infer_target_body_returns target : returns (infer_target_body target).
Proof.
  unfold infer_target_body.
  destruct (existsb _ (map lower (segments target))) eqn:Htv.
  - destruct (find_index_bound _ _ Htv) as (idx & Hidx & Hlt).
    unfold list_index. rewrite Hidx. cbn [mbind result_bind].
    destruct (idx + 1 <? length (segments target))%nat eqn:H1.
    + apply Nat.ltb_lt in H1.
      destruct (py_index_returns (segments target) (idx + 1) H1) as [show ->].
      cbn [fmap result_fmap mbind result_bind].
      destruct (idx + 2 <? length (segments target))%nat eqn:H2.
      * apply Nat.ltb_lt in H2.
        destruct (py_index_returns (segments target) (idx + 2) H2) as [f ->].
        cbn [fmap result_fmap mbind result_bind].
        destruct (truthy_opt (Some f)); [|eexists; reflexivity].
        destruct (season_number_returns (default [] (Some f))) as [n ->].
        eexists; reflexivity.
      * eexists; reflexivity.
    + cbn [mbind result_bind].
      destruct (idx + 2 <? length (segments target))%nat eqn:H2;
        [|eexists; reflexivity].
      apply Nat.ltb_lt in H2. apply Nat.ltb_ge in H1. lia.
  - destruct (3 <=? length (segments target))%nat eqn:H3;
      [|eexists; reflexivity].
    apply Nat.leb_le in H3. unfold py_index_back.
    replace (3 <=? length (segments target))%nat with true
      by (symmetry; apply Nat.leb_le; lia).
    replace (2 <=? length (segments target))%nat with true
      by (symmetry; apply Nat.leb_le; lia).
    destruct (py_index_returns (segments target)
                (length (segments target) - 3)) as [show ->]; [lia|].
    destruct (py_index_returns (segments target)
                (length (segments target) - 2)) as [f ->]; [lia|].
    cbn [mbind result_bind].
    destruct (season_number_returns f) as [n ->]. eexists; reflexivity.
Qed.

Lemma name_from_url_returns `{!Env} u : returns (name_from_url u).
Proof.
  unfold name_from_url.
  destruct (name_from_url_body u); eexists; reflexivity.
Qed.

(** C8.  Whatever the text, the two inference functions and
    [name_from_url] return.  An exception inside the [try] of the target
    inference would give [(None, None)], and none is raised there; an
    exception inside the [try] of [name_from_url] (a URL that [urlparse]
    rejects, for one) gives ["unnamed"]; and nothing in the file name
    inference can raise. *)
Theorem inference_never_raises (E : Env) :
  (forall target, returns (infer_show_and_season_from_target target))
  /\ (forall fname, returns (infer_from_filename_for_season fname))
  /\ (forall u, returns (name_from_url u))
  /\ (forall target e,
        truthy target = true ->
        infer_target_body target = Raise e ->
        infer_show_and_season_from_target target = Ret (None, None))
  /\ (forall target, returns (infer_target_body target))
  /\ (forall u e,
        name_from_url_body u = Raise e ->
        name_from_url u = Ret (py "unnamed"))
  /\ (forall u e, urlparse u = Raise e -> name_from_url u = Ret (py "unnamed")).
Proof.
  split; [exact infer_target_returns|].
  split; [exact infer_from_filename_returns|].
  split; [exact name_from_url_returns|].
  split; [|split; [exact infer_target_body_returns|split]].
  - intros target e Ht Hb. unfold infer_show_and_season_from_target.
    rewrite Ht, Hb. reflexivity.
  - intros u e Hb. unfold name_from_url. rewrite Hb. reflexivity.
  - intros u e Hu. unfold name_from_url, name_from_url_body.
    rewrite Hu. reflexivity.
Qed.

(** ** Episode markers in file names *)

Lemma digit_not_E c : isdigit c = true -> ichar "E" c = false.
Proof.
  destruct c as [[] [] [] [] [] [] [] []]; intros H;
    first [reflexivity | discriminate H].
Qed.

Lemma digits12_cases d :
  digits12 d ->
  (exists a, d = [a] /\ isdigit a = true)
  \/ (exists a b, d = [a; b] /\ isdigit a = true /\ isdigit b = true).
Proof.
  intros [Hlen Hd].
  destruct d as [|a [|b [|c d]]]; simpl in Hlen; try (destruct Hlen; discriminate).
  - left. exists a. simpl in Hd. rewrite andb_true_r in Hd. auto.
  - right. exists a, b. simpl in Hd. rewrite andb_true_r in Hd.
    apply andb_true_iff in Hd. destruct Hd. auto.
Qed.

Lemma digits12_value d :
  digits12 d -> exists n, py_int d = Ret n /\ first_digit_run d = Some n.
Proof.
  intros Hd. destruct (digits12_cases d Hd) as [(a & -> & Ha) | (a & b & -> & Ha & Hb)].
  - eexists. unfold py_int. cbn. rewrite Ha. cbn. split; reflexivity.
  - eexists. unfold py_int. cbn. rewrite Ha, Hb. cbn. split; [reflexivity|].
    first [reflexivity | f_equal; lia].
Qed.

Lemma accepts_one (cls : ascii -> bool) a :
  cls a = true -> accepts (One cls) [a].
Proof. intros Ha. exists a. auto. Qed.

Lemma accepts_opt_none cls : accepts (Opt cls) [].
Proof. left. reflexivity. Qed.

Lemma accepts_opt_some (cls : ascii -> bool) a :
  cls a = true -> accepts (Opt cls) [a].
Proof. intros Ha. right. exists a. auto. Qed.

Create HintDb re.
#[local] Hint Resolve accepts_one accepts_opt_none accepts_opt_some : re.
#[local] Hint Constructors Forall2 : re.

(** A marker reads as the pattern of the source. *)
Lemma episode_marker_reads t sd :
  episode_marker t sd -> exists r, reads re_SdEd r /\ concat r = t.
Proof.
  intros (c1 & c2 & ed & -> & H1 & H2 & Hsd & Hed).
  destruct (digits12_cases _ Hsd) as [(a & -> & Ha) | (a & b & -> & Ha & Hb)];
  destruct (digits12_cases _ Hed) as [(x & -> & Hx) | (x & y & -> & Hx & Hy)].
  - exists [[c1]; [a]; []; [c2]; [x]; []]. split; [|reflexivity].
    unfold reads, re_SdEd. auto 10 with re.
  - exists [[c1]; [a]; []; [c2]; [x]; [y]]. split; [|reflexivity].
    unfold reads, re_SdEd. auto 10 with re.
  - exists [[c1]; [a]; [b]; [c2]; [x]; []]. split; [|reflexivity].
    unfold reads, re_SdEd. auto 10 with re.
  - exists [[c1]; [a]; [b]; [c2]; [x]; [y]]. split; [|reflexivity].
    unfold reads, re_SdEd. auto 10 with re.
Qed.

Lemma digits12_one a : isdigit a = true -> digits12 [a].
Proof. intros Ha. split; [left; reflexivity | simpl; rewrite Ha; reflexivity]. Qed.

Lemma digits12_two a b :
  isdigit a = true -> isdigit b = true -> digits12 [a; b].
Proof.
  intros Ha Hb. split; [right; reflexivity | simpl; rewrite Ha, Hb; reflexivity].
Qed.

(** What reads as the pattern of the source is a marker, and the items 1
    and 2 are its season digits. *)
Lemma reads_episode_marker r :
  reads re_SdEd r ->
  episode_marker (concat r) (concat (take 2 (drop 1 r))).
Proof.
  intros Hr. split_reads; cbn;
    eexists _, _, _; (split; [reflexivity|]);
    (split; [assumption|]); (split; [assumption|]);
    split; auto using digits12_one, digits12_two.
Qed.

Lemma has_episode_marker_contains s :
  has_episode_marker s <-> contains re_SdEd s.
Proof.
  split.
  - intros (pre & t & sd & post & -> & Hm).
    destruct (episode_marker_reads _ _ Hm) as (r & Hr & <-).
    exists pre, (concat r ++ post). split; [reflexivity|].
    exists r, post. auto.
  - intros (pre & after & -> & r & rest & Hr & ->).
    exists pre, (concat r), (concat (take 2 (drop 1 r))), rest.
    split; [reflexivity | apply reads_episode_marker; exact Hr].
Qed.

Lemma ichar_lower c a : ichar c a = true -> lower_char a = lower_char c.
Proof. unfold ichar. apply Ascii.eqb_eq. Qed.

Ltac solve_digits12 :=
  split;
  [ first [left; reflexivity | right; reflexivity]
  | cbn; use_digits; reflexivity ].

Lemma reads_season_token r : reads re_season r -> season_token (concat r).
Proof.
  intros Hr. split_reads; cbn;
    repeat match goal with
    | H : ichar _ _ = true |- _ => apply ichar_lower in H
    end.
  all: match goal with
       | |- season_token (?a :: ?b :: ?c :: ?d :: ?e :: ?f :: ?rest) =>
         exists [a; b; c; d; e; f];
         match rest with
         | [?x] => exists [], [x]
         | [?x; ?y] =>
           first [ match goal with
                   | H : isdigit x = true |- _ => exists [], [x; y]
                   end
                 | exists [x], [y] ]
         | [?x; ?y; ?z] => exists [x], [y; z]
         end
       end.
  all: split; [reflexivity|].
  all: split;
    [ cbn [lower map];
      repeat match goal with
      | H : lower_char _ = lower_char _ |- _ => rewrite H; clear H
      end; reflexivity |].
  all: split;
    [ first [ left; reflexivity
            | right; eexists; split; [reflexivity | assumption] ]
    | solve_digits12 ].
Qed.

Lemma contains_season_token s : contains re_season s -> has_season_token s.
Proof.
  intros (pre & after & -> & r & rest & Hr & ->).
  exists pre, (concat r), rest.
  split; [reflexivity | apply reads_season_token; exact Hr].
Qed.

Lemma startswith_app p rest : startswith p (p ++ rest) = true.
Proof.
  induction p as [|a p IH]; simpl; [reflexivity|].
  rewrite Ascii.eqb_refl. exact IH.
Qed.

Lemma startswith_prefix p s :
  startswith p s = true -> exists rest, s = p ++ rest.
Proof.
  revert s. induction p as [|a p IH]; intros s; simpl.
  - exists s. reflexivity.
  - destruct s as [|b s]; [discriminate|].
    intros H. apply andb_true_iff in H. destruct H as [Hab Hp].
    apply Ascii.eqb_eq in Hab. subst. destruct (IH _ Hp) as [rest ->].
    exists rest. reflexivity.
Qed.

(** The first piece of a split is the text before the first occurrence
    of the separator. *)
Lemma split_go_first sep rest : forall pre cur,
  truthy sep = true ->
  (forall k, (k < length pre)%nat ->
     startswith sep (drop k (pre ++ sep ++ rest)) = false) ->
  exists l, split_go sep 0 cur (pre ++ sep ++ rest) = (rev cur ++ pre) :: l.
Proof.
  induction pre as [|c pre IH]; intros cur Hsep Hfirst.
  - destruct sep as [|a sep]; [discriminate|].
    cbn [app split_go].
    change (a :: sep ++ rest) with ((a :: sep) ++ rest).
    rewrite startswith_app. rewrite app_nil_r. eexists; reflexivity.
  - cbn [app split_go].
    specialize (Hfirst 0%nat) as H0. cbn [drop app] in H0.
    rewrite H0 by (simpl; lia).
    destruct (IH (c :: cur) Hsep) as [l Hl].
    + intros k Hk. apply (Hfirst (S k)). simpl. lia.
    + rewrite Hl. exists l. simpl. rewrite <- app_assoc. reflexivity.
Qed.

(** The marker branch, for the leftmost marker of the stem. *)
Lemma infer_from_filename_marker fname pre t sd post :
  path_stem (parse_parts fname) = pre ++ t ++ post ->
  episode_marker t sd ->
  (forall pre' t' sd' post',
     path_stem (parse_parts fname) = pre' ++ t' ++ post' ->
     episode_marker t' sd' -> (length pre <= length pre')%nat) ->
  infer_from_filename_for_season fname
  = Ret (show_before pre, first_digit_run sd).
Proof.
  intros Hstem Hmark Hleft.
  assert (Hf : truthy fname = true).
  { destruct fname; [|reflexivity]. exfalso.
    destruct Hmark as (c1 & c2 & ed & -> & _).
    revert Hstem. change (path_stem (parse_parts [])) with (@nil ascii).
    destruct pre; discriminate. }
  unfold infer_from_filename_for_season. rewrite Hf. cbn [negb].
  set (base := path_stem (parse_parts fname)) in *.
  assert (Hsome : is_Some (re_search re_SdEd base)).
  { apply re_search_contains, has_episode_marker_contains.
    exists pre, t, sd, post. auto. }
  destruct Hsome as [[mb mi] Hm]. rewrite Hm.
  destruct (search_from_Some _ _ _ _ Hm)
    as (sk & rest & Hbase & Hb & Hr & _ & Hfirst).
  cbn [m_items m_before rev app] in Hbase, Hb, Hr. subst mb.
  (* the match starts where the leftmost marker does *)
  assert (Hlen : length sk = length pre).
  { apply Nat.le_antisymm.
    - destruct (Nat.le_gt_cases (length sk) (length pre)) as [H|H]; [exact H|].
      exfalso. apply (Hfirst (length pre) H).
      rewrite Hstem, drop_app_length.
      destruct (episode_marker_reads _ _ Hmark) as (r & Hr' & <-).
      exists r, post. auto.
    - apply (Hleft sk (concat mi) (concat (take 2 (drop 1 mi))) rest Hbase).
      apply reads_episode_marker. exact Hr. }
  assert (Hsplit : sk = pre /\ concat mi ++ rest = t ++ post).
  { rewrite Hstem in Hbase. apply app_inj_1 in Hbase; [|congruence].
    destruct Hbase; auto. }
  destruct Hsplit as [-> Htext].
  (* the season digits are those of the marker *)
  assert (Hsd : m_span 1 3 (Build_rmatch pre mi) = sd).
  { destruct Hmark as (c1 & c2 & ed & -> & _ & H2 & Hsd & _).
    unfold m_span. cbn [m_items Nat.sub].
    destruct (digits12_cases _ Hsd) as [(a & -> & Ha) | (a & b & -> & Ha & Hb)];
      split_reads; cbn in Htext |- *; injection Htext as; subst;
      try reflexivity;
      repeat match goal with
      | H : isdigit _ = true |- _ => apply digit_not_E in H
      end; congruence. }
  rewrite Hsd.
  destruct (digits12_value sd) as (n & -> & ->).
  { destruct Hmark as (? & ? & ? & _ & _ & _ & H & _). exact H. }
  cbn [mbind result_bind].
  (* the split gives back the text before the match *)
  assert (Hsep : truthy (m_group0 (Build_rmatch pre mi)) = true).
  { unfold m_group0. cbn [m_items]. clear - Hr. split_reads; reflexivity. }
  unfold py_split. rewrite Hsep. cbn [negb mbind result_bind].
  unfold split_on, m_group0 in *. cbn [m_items] in *.
  destruct (split_go_first (concat mi) rest pre [] Hsep) as [l Hl].
  { intros k Hk. apply not_true_iff_false. intros Hst.
    apply (Hfirst k Hk). apply startswith_prefix in Hst.
    destruct Hst as [rest' Hst]. rewrite Hbase, Hst.
    exists mi, rest'. auto. }
  rewrite Hbase, Hl. reflexivity.
Qed.

(** Without a marker and without a season token in the stem there is
    nothing to infer. *)
Lemma infer_from_filename_none fname :
  ~ has_episode_marker (path_stem (parse_parts fname)) ->
  ~ has_season_token (path_stem (parse_parts fname)) ->
  infer_from_filename_for_season fname = Ret (None, None).
Proof.
  intros Hno1 Hno2. unfold infer_from_filename_for_season.
  destruct (truthy fname); cbn [negb]; [|reflexivity].
  destruct (re_search re_SdEd _) eqn:H1.
  - exfalso. apply Hno1, has_episode_marker_contains, re_search_contains.
    rewrite H1. eexists; reflexivity.
  - destruct (re_search re_season _) eqn:H2; [|reflexivity].
    exfalso. apply Hno2, contains_season_token, re_search_contains.
    rewrite H2. eexists; reflexivity.
Qed.

Lemma substring_refl s : substring s s.
Proof. exists [], []. rewrite app_nil_r. reflexivity. Qed.

Lemma substring_trans t u s : substring t u -> substring u s -> substring t s.
Proof.
  intros (a & b & ->) (c & d & ->). exists (c ++ a), (b ++ d).
  rewrite <- !app_assoc. reflexivity.
Qed.

Lemma substring_app_r t a s : substring t s -> substring t (a ++ s).
Proof.
  intros (c & d & ->). exists (a ++ c), d. rewrite <- app_assoc. reflexivity.
Qed.

Lemma substring_nil s : substring [] s.
Proof. exists [], s. reflexivity. Qed.

Lemma substring_take n s : substring (take n s) s.
Proof. exists [], (drop n s). simpl. symmetry. apply take_drop. Qed.

Lemma split_go_substring sep : forall s skip cur x,
  skip = 0%nat \/ cur = [] ->
  In x (split_go sep skip cur s) -> substring x (rev cur ++ s).
Proof.
  induction s as [|a s IH]; intros skip cur x Hinv; simpl.
  - intros [<- | []]. rewrite app_nil_r. apply substring_refl.
  - destruct skip as [|k].
    + destruct (startswith sep (a :: s)).
      * intros [<- | Hin].
        -- exists [], (a :: s). reflexivity.
        -- assert (Hsub := IH (length sep - 1)%nat [] x
                                (or_intror eq_refl) Hin).
           simpl in Hsub.
           apply (substring_app_r _ (rev cur ++ [a])) in Hsub.
           rewrite <- app_assoc in Hsub. exact Hsub.
      * intros Hin. apply IH in Hin; [|left; reflexivity].
        simpl in Hin. rewrite <- app_assoc in Hin. exact Hin.
    + destruct Hinv as [Hinv | ->]; [discriminate|].
      intros Hin. apply IH in Hin; [|right; reflexivity].
      simpl in *. apply (substring_app_r _ [a]) in Hin. exact Hin.
Qed.

Lemma path_name_substring s : substring (path_name (parse_parts s)) s.
Proof.
  unfold path_name.
  destruct (last (parse_parts s)) as [x|] eqn:Hlast; [|apply substring_nil].
  destruct (startswith [slash] x) eqn:Hx; [apply substring_nil|].
  apply last_Some in Hlast. destruct Hlast as [l' Hl'].
  assert (Hin : In x (parse_parts s)).
  { rewrite Hl'. apply in_or_app. right. left. reflexivity. }
  unfold parse_parts in Hin. apply in_app_or in Hin. destruct Hin as [Hin | Hin].
  - exfalso.
    destruct (_ =? 0)%nat; [destruct Hin|].
    destruct (_ =? 2)%nat; destruct Hin as [<- | []]; discriminate.
  - apply filter_In in Hin. destruct Hin as [Hin _].
    apply split_go_substring in Hin; [|left; reflexivity]. simpl in Hin.
    destruct (lstrip_by_suffix (Ascii.eqb slash) s) as (pre & Hs & _).
    rewrite Hs. apply substring_app_r. exact Hin.
Qed.

Lemma path_stem_substring s : substring (path_stem (parse_parts s)) s.
Proof.
  unfold path_stem. eapply substring_trans; [|apply path_name_substring].
  unfold stem_of_name.
  destruct (rfind_char _ _) as [i|]; [|apply substring_refl].
  destruct (_ && _); [apply substring_take | apply substring_refl].
Qed.

Lemma has_episode_marker_substring t s :
  substring t s -> has_episode_marker t -> has_episode_marker s.
Proof.
  intros (a & b & ->) (pre & m & sd & post & -> & Hm).
  exists (a ++ pre), m, sd, (post ++ b). split; [|exact Hm].
  rewrite <- !app_assoc. reflexivity.
Qed.

Lemma has_season_token_substring t s :
  substring t s -> has_season_token t -> has_season_token s.
Proof.
  intros (a & b & ->) (pre & m & post & -> & Hm).
  exists (a ++ pre), m, (post ++ b). split; [|exact Hm].
  rewrite <- !app_assoc. reflexivity.
Qed.

(** No marker starts before the match that [re.search] returns. *)
Lemma re_search_leftmost s m pre t sd post :
  re_search re_SdEd s = Some m ->
  s = pre ++ t ++ post -> episode_marker t sd ->
  (length (m_before m) <= length pre)%nat.
Proof.
  intros Hm Hs Hmark.
  destruct (search_from_Some _ _ _ _ Hm) as (sk & rest & _ & Hb & _ & _ & Hfirst).
  simpl in Hb. subst sk.
  destruct (Nat.le_gt_cases (length (m_before m)) (length pre)) as [H|H];
    [exact H|].
  exfalso. apply (Hfirst (length pre) H).
  rewrite Hs, drop_app_length.
  destruct (episode_marker_reads _ _ Hmark) as (r & Hr & <-).
  exists r, post. auto.
Qed.

(** C7, as the code has it.  For a non-empty file name whose stem (the
    last path component without its last suffix) holds a marker
    S<1-2 digits>E<1-2 digits> in either case, the result is made of the
    stem text before the leftmost marker and of that marker's season
    digits: the show is that text with dots, dashes, underscores and
    spaces trimmed at both ends, then with its dots replaced by spaces
    and white space trimmed, and no show at all when the first trim
    leaves nothing.  ["Show.Name.S02E05.mkv"] gives [("Show Name", 2)].  A
    file name holding neither a marker nor a season token, such as
    ["Random.File.mkv"], gives [(None, None)]; so does one whose stem
    holds neither. *)
Theorem infer_from_filename_for_season_spec :
  (forall fname pre t sd post,
     path_stem (parse_parts fname) = pre ++ t ++ post ->
     episode_marker t sd ->
     (forall pre' t' sd' post',
        path_stem (parse_parts fname) = pre' ++ t' ++ post' ->
        episode_marker t' sd' -> (length pre <= length pre')%nat) ->
     infer_from_filename_for_season fname
     = Ret (show_before pre, first_digit_run sd))
  /\ (forall fname,
      ~ has_episode_marker (path_stem (parse_parts fname)) ->
      ~ has_season_token (path_stem (parse_parts fname)) ->
      infer_from_filename_for_season fname = Ret (None, None))
  /\ (forall fname,
      ~ has_episode_marker fname -> ~ has_season_token fname ->
      infer_from_filename_for_season fname = Ret (None, None))
  /\ infer_from_filename_for_season (py "Show.Name.S02E05.mkv")
     = Ret (Some (py "Show Name"), Some 2%Z)
  /\ infer_from_filename_for_season (py "Random.File.mkv")
     = Ret (None, None).
Proof.
  split; [|split; [|split; [|split]]].
  - exact infer_from_filename_marker.
  - exact infer_from_filename_none.
  - intros fname H1 H2. apply infer_from_filename_none.
    + intros H. apply H1. eapply has_episode_marker_substring; [|exact H].
      apply path_stem_substring.
    + intros H. apply H2. eapply has_season_token_substring; [|exact H].
      apply path_stem_substring.
  - reflexivity.
  - reflexivity.
Qed.

(** C7 as stated fails: the marker of ["Show.S01E02"] sits in what
    [Path.stem] drops as the suffix, and nothing is inferred, not even a
    season; and a file name that starts with its marker has no show. *)
Lemma infer_from_filename_marker_in_suffix :
  has_episode_marker (py "Show.S01E02")
  /\ infer_from_filename_for_season (py "Show.S01E02") = Ret (None, None)
  /\ infer_from_filename_for_season (py "S01E02.mkv") = Ret (None, Some 1%Z)
  /\ ~ (forall fname,
          has_episode_marker fname ->
          exists show season,
            infer_from_filename_for_season fname = Ret (show, Some season)).
Proof.
  assert (Hm : has_episode_marker (py "Show.S01E02")).
  { exists (py "Show."), (py "S01E02"), (py "01"), [].
    split; [reflexivity|].
    exists "S"%char, "E"%char, (py "02").
    repeat split; auto. }
  split; [exact Hm|]. split; [reflexivity|]. split; [reflexivity|].
  intros Hclaim. destruct (Hclaim _ Hm) as (show & season & Heq).
  discriminate Heq.
Qed.

Lemma infer_from_filename_for_season_witness :
  infer_from_filename_for_season (py "The.Show.s2e10.720p.mkv")
  = Ret (Some (py "The Show"), Some 2%Z).
Proof.
  apply (proj1 infer_from_filename_for_season_spec
           (py "The.Show.s2e10.720p.mkv")
           (py "The.Show.") (py "s2e10") (py "2") (py ".720p")).
  - reflexivity.
  - exists "s"%char, "e"%char, (py "10").
    split; [reflexivity|]. split; [reflexivity|]. split; [reflexivity|].
    split; split; first [reflexivity | left; reflexivity | right; reflexivity].
  - intros pre' t' sd' post' Hs Hm.
    assert (Hsearch :
      re_search re_SdEd (path_stem (parse_parts (py "The.Show.s2e10.720p.mkv")))
      = Some {| m_before := py "The.Show.";
                m_items := [py "s"; py "2"; []; py "e"; py "1"; py "0"] |})
      by reflexivity.
    exact (re_search_leftmost _ _ _ _ _ _ Hsearch Hs Hm).
Defined.

(** ** Paths *)

Lemma mem_app c a b : mem c (a ++ b) = mem c a || mem c b.
Proof. unfold mem. apply existsb_app. Qed.

Lemma mem_cons c a s : mem c (a :: s) = Ascii.eqb c a || mem c s.
Proof. reflexivity. Qed.

Lemma split_go_no_sep c s : forall cur,
  mem c s = false -> split_go [c] 0 cur s = [rev cur ++ s].
Proof.
  induction s as [|a s IH]; intros cur Hs.
  - simpl. rewrite app_nil_r. reflexivity.
  - rewrite mem_cons in Hs. apply orb_false_iff in Hs. destruct Hs as [Hca Hs].
    cbn [split_go startswith]. rewrite Hca. cbn [andb].
    rewrite IH by exact Hs. cbn [rev].
    rewrite <- app_assoc. reflexivity.
Qed.

Lemma parse_parts_segment s : segment s -> parse_parts s = [s].
Proof.
  intros (Ht & Hdot & Hslash). unfold parse_parts.
  destruct s as [|a s]; [discriminate|].
  assert (Ha : Ascii.eqb slash a = false).
  { rewrite mem_cons in Hslash. apply orb_false_iff in Hslash. tauto. }
  cbn [lstrip_by]. rewrite Ha. rewrite Nat.sub_diag. cbn [Nat.eqb app].
  unfold split_on. rewrite split_go_no_sep by exact Hslash.
  cbn [rev app List.filter truthy andb].
  unfold str_eqb. rewrite bool_decide_eq_false_2 by exact Hdot. reflexivity.
Qed.

Lemma joinpath_segment p s : segment s -> joinpath p s = p ++ [s].
Proof.
  intros Hs. unfold joinpath. rewrite (parse_parts_segment s Hs).
  destruct Hs as (Ht & _ & Hslash).
  destruct s as [|a s]; [discriminate|].
  rewrite mem_cons in Hslash. apply orb_false_iff in Hslash.
  destruct Hslash as [Ha _].
  cbn [startswith]. rewrite Ha. reflexivity.
Qed.

Lemma joinpath_empty p : joinpath p [] = p.
Proof. unfold joinpath. simpl. apply app_nil_r. Qed.

(** The parent and the name of a path of at least two segments. *)
Lemma path_parent_snoc p d f : path_parent ((p ++ [d]) ++ [f]) = p ++ [d].
Proof.
  unfold path_parent.
  destruct ((p ++ [d]) ++ [f]) as [|x [|y l]] eqn:Hp.
  - destruct p; discriminate.
  - destruct p as [|? [|? ?]]; discriminate.
  - rewrite <- Hp. apply removelast_last.
Qed.

Lemma path_name_snoc p f :
  startswith [slash] f = false -> path_name (p ++ [f]) = f.
Proof. intros Hf. unfold path_name. rewrite last_snoc, Hf. reflexivity. Qed.

Lemma sanitize_name_no_slash name : mem slash (sanitize_name name) = false.
Proof.
  apply not_true_iff_false. intros H. apply mem_In in H.
  apply sanitize_name_no_reserved in H. discriminate.
Qed.

(** A cleaned name is a proper segment unless it is empty or a dot. *)
Lemma sanitize_name_segment name :
  sanitize_name name <> [] -> sanitize_name name <> py "." ->
  segment (sanitize_name name).
Proof.
  intros Hne Hdot. split; [|split].
  - destruct (sanitize_name name); [congruence | reflexivity].
  - exact Hdot.
  - apply sanitize_name_no_slash.
Qed.

Lemma uint_digits (d : Decimal.uint) :
  forallb isdigit (py (NilEmpty.string_of_uint d)) = true.
Proof. induction d; simpl; auto. Qed.

Lemma decimal_digits n : forallb isdigit (decimal n) = true.
Proof.
  unfold decimal, NilZero.string_of_uint.
  destruct (N.to_uint n); try apply (uint_digits (_ _)); reflexivity.
Qed.

Lemma digits_no_slash s : forallb isdigit s = true -> mem slash s = false.
Proof.
  induction s as [|c s IH]; [reflexivity|].
  cbn [forallb]. rewrite mem_cons.
  intros H. apply andb_true_iff in H. destruct H as [Hc Hs].
  rewrite (IH Hs), orb_false_r.
  destruct (Ascii.eqb_spec slash c) as [<-|]; [discriminate | reflexivity].
Qed.

Lemma fmt02d_no_slash z : mem slash (fmt02d z) = false.
Proof.
  unfold fmt02d. destruct (z <? 0)%Z.
  - simpl. apply digits_no_slash, decimal_digits.
  - destruct (_ <? 2)%nat; simpl; apply digits_no_slash, decimal_digits.
Qed.

Lemma season_folder_segment season : segment (season_folder season).
Proof.
  unfold season_folder. split; [reflexivity|]. split; [discriminate|].
  rewrite mem_app, fmt02d_no_slash. reflexivity.
Qed.

Lemma strm_name_segment base tail :
  mem slash base = false -> mem slash tail = false ->
  segment (base ++ tail ++ py ".strm").
Proof.
  intros Hb Ht. split; [|split].
  - destruct base; [destruct tail|]; reflexivity.
  - intros H. apply (f_equal (@length ascii)) in H.
    rewrite !length_app in H. simpl in H. lia.
  - rewrite !mem_app, Hb, Ht. reflexivity.
Qed.

Lemma episode_final_name_segment base_safe season episode :
  mem slash base_safe = false ->
  segment (episode_final_name base_safe season episode).
Proof.
  intros Hb. unfold episode_final_name, sxxexx.
  destruct (re_search re_SddEdd base_safe).
  - apply (strm_name_segment base_safe []); auto.
  - replace (base_safe ++ py " - " ++
             (py "S" ++ fmt02d season ++ py "E" ++ fmt02d episode) ++ py ".strm")
      with (base_safe ++ (py " - S" ++ fmt02d season ++ py "E" ++ fmt02d episode)
            ++ py ".strm")
      by (simpl; rewrite <- !app_assoc; reflexivity).
    apply strm_name_segment; [exact Hb|].
    rewrite !mem_app, !fmt02d_no_slash. reflexivity.
Qed.

(** ** The marker that keeps a base name as it is *)

Lemma fixed_marker_reads t :
  fixed_marker t -> exists r, reads re_SddEdd r /\ concat r = t.
Proof.
  intros (c1 & a & b & c2 & c & d & -> & H1 & Ha & Hb & H2 & Hc & Hd).
  exists [[c1]; [a]; [b]; [c2]; [c]; [d]]. split; [|reflexivity].
  unfold reads, re_SddEdd. auto 10 with re.
Qed.

Lemma reads_fixed_marker r : reads re_SddEdd r -> fixed_marker (concat r).
Proof.
  intros Hr. split_reads. cbn.
  eexists _, _, _, _, _, _. split; [reflexivity|]. auto 10.
Qed.

(** The search of the source finds a marker exactly when there is one. *)
Lemma has_fixed_marker_search s :
  has_fixed_marker s <-> is_Some (re_search re_SddEdd s).
Proof.
  rewrite re_search_contains. split.
  - intros (pre & t & post & -> & Hm).
    destruct (fixed_marker_reads _ Hm) as (r & Hr & <-).
    exists pre, (concat r ++ post). split; [reflexivity|].
    exists r, post. auto.
  - intros (pre & after & -> & r & rest & Hr & ->).
    exists pre, (concat r), rest.
    split; [reflexivity | apply reads_fixed_marker; exact Hr].
Qed.

(** ** The batch handlers *)

(** The loop of the source, with its two accumulators, runs the batch. *)
Lemma batch_loop_run body links : forall written errors w,
  exists n errs w',
    batch_loop body links written errors w
    = ((written + n, errors ++ errs)%nat, w')
    /\ batch_run body links w n errs w'.
Proof.
  induction links as [|l links IH]; intros written errors w; cbn [batch_loop].
  - exists 0%nat, [], w. rewrite Nat.add_0_r, app_nil_r.
    split; [reflexivity | constructor].
  - destruct (truthy (strip l)) eqn:Hl; cbn [negb].
    + destruct (body (strip l) w) as [[[]|e] w1] eqn:Hb.
      * destruct (IH (written + 1)%nat errors w1) as (n & errs & w' & -> & Hrun).
        exists (S n), errs, w'. split; [f_equal; f_equal; lia|].
        eapply run_written; eauto.
      * destruct (IH written (errors ++ [(strip l, exn_msg e)]) w1)
          as (n & errs & w' & -> & Hrun).
        exists n, ((strip l, exn_msg e) :: errs), w'.
        split; [rewrite <- app_assoc; reflexivity|].
        eapply run_failed; eauto.
    + destruct (IH written errors w) as (n & errs & w' & -> & Hrun).
      exists n, errs, w'. split; [reflexivity|]. apply run_blank; auto.
Qed.


(** The reported links are those whose body raised, in their order. *)
Lemma batch_run_errors_in body links w n errs w' :
  batch_run body links w n errs w' ->
  forall link msg, In (link, msg) errs -> In link (map strip links).
Proof.
  induction 1; intros link msg Hin; cbn [map].
  - destruct Hin.
  - right. eauto.
  - right. eauto.
  - destruct Hin as [[= <- _] | Hin]; [left; reflexivity | right; eauto].
Qed.


(** One failure among three items. *)
Lemma batch_run_second_of_three body l1 l2 l3 w w1 w2 w3 e :
  truthy (strip l1) = true -> truthy (strip l2) = true ->
  truthy (strip l3) = true ->
  body (strip l1) w = (Ret tt, w1) ->
  body (strip l2) w1 = (Raise e, w2) ->
  body (strip l3) w2 = (Ret tt, w3) ->
  batch_loop body [l1; l2; l3] 0 [] w
  = ((2%nat, [(strip l2, exn_msg e)]), w3).
Proof.
  intros H1 H2 H3 B1 B2 B3. cbn [batch_loop].
  rewrite H1, H2, H3. cbn [negb]. rewrite B1, B2, B3. reflexivity.
Qed.

Section handlers.
Context {E : Env}.

(** A failed resolution, in either batch handler, raises inside the
    [try] and writes nothing. *)
Lemma movie_link_refused link w e :
  unrestrict_answer (calls w) link = Raise e ->
  movie_link link w = (Raise e, after_call w).
Proof. intros H. unfold movie_link, bind, unrestrict. rewrite H. reflexivity. Qed.

Lemma movie_link_no_direct link w r :
  unrestrict_answer (calls w) link = Ret r ->
  truthy_opt (direct r) = false ->
  movie_link link w
  = (Raise (Exn RuntimeError (py "No direct URL returned")), after_call w).
Proof.
  intros H Hd. unfold movie_link, bind, unrestrict. rewrite H, Hd. reflexivity.
Qed.

Lemma episode_link_refused show_name season link w e :
  unrestrict_answer (calls w) link = Raise e ->
  episode_link show_name season link w = (Raise e, after_call w).
Proof. intros H. unfold episode_link, bind, unrestrict. rewrite H. reflexivity. Qed.

Lemma episode_link_no_direct show_name season link w r :
  unrestrict_answer (calls w) link = Ret r ->
  truthy_opt (direct r) = false ->
  episode_link show_name season link w
  = (Raise (Exn RuntimeError (py "No direct URL returned")), after_call w).
Proof.
  intros H Hd. unfold episode_link, bind, unrestrict. rewrite H, Hd. reflexivity.
Qed.

Lemma batch_candidate_returns r link fallback :
  returns (batch_candidate r link fallback).
Proof.
  unfold batch_candidate.
  destruct (negb (truthy_opt (filename r)) && truthy_opt (direct r)).
  - destruct (name_from_url_returns (default [] (direct r))) as [n ->].
    cbn [fmap result_fmap mbind result_bind].
    destruct (truthy_opt (Some n)); [eexists; reflexivity|].
    destruct (name_from_url_returns link) as [m ->]. eexists; reflexivity.
  - cbn [mbind result_bind].
    destruct (truthy_opt (filename r)); [eexists; reflexivity|].
    destruct (name_from_url_returns link) as [m ->]. eexists; reflexivity.
Qed.

(** The delivery, case by case. *)
Lemma deliver_cases media link dest r w :
  deliver media link dest r w
  = match os_write (calls w) dest with
    | Written =>
      match os_append (calls w) media with
      | None =>
        (Ret tt,
         {| fs := <[resolve dest := strip (default [] (direct r)) ++ [newline]]>
                    (fs w);
            logs := logs w ++ [LogLine media link dest (default [] (filename r))];
            calls := calls w |})
      | Some e =>
        (Raise e,
         {| fs := <[resolve dest := strip (default [] (direct r)) ++ [newline]]>
                    (fs w);
            logs := logs w; calls := calls w |})
      end
    | WriteFailed e None => (Raise e, w)
    | WriteFailed e (Some kept) =>
      (Raise e,
       {| fs := <[resolve dest := kept]> (fs w);
          logs := logs w; calls := calls w |})
    end.
Proof.
  unfold deliver, bind, write_strm_file, log_entry.
  destruct (os_write (calls w) dest) as [|e [kept|]]; cbn [calls].
  - destruct (os_append (calls w) media); reflexivity.
  - reflexivity.
  - reflexivity.
Qed.

(** When the file system carries the delivery out, the descriptor is
    written and logged. *)
Lemma deliver_carried_out media link dest r w :
  carried_out (S (calls w)) media dest ->
  deliver media link dest r (after_call w)
  = (Ret tt, after_write w media link dest r).
Proof.
  intros [Hw Ha]. rewrite deliver_cases. cbn [after_call calls].
  rewrite Hw, Ha. reflexivity.
Qed.

(** The bodies of the batch handlers end on the delivery to the
    destination they have computed. *)
Lemma episode_link_delivers show_name season link w r cand :
  unrestrict_answer (calls w) link = Ret r ->
  truthy_opt (direct r) = true ->
  batch_candidate r link (show_name ++ py "_ep") = Ret cand ->
  episode_link show_name season link w
  = deliver (py "tv") link
      (joinpath (season_dir show_name season)
         (batch_final_name show_name season (fs w)
            (sanitize_name (strip_extension cand)))) r (after_call w).
Proof.
  intros Ha Hd Hc. unfold episode_link, bind, unrestrict, pure.
  rewrite Ha, Hd. cbn [negb]. rewrite Hc. unfold batch_final_name.
  destruct (re_search re_SddEdd _); reflexivity.
Qed.

Lemma movie_link_delivers link w r cand :
  unrestrict_answer (calls w) link = Ret r ->
  truthy_opt (direct r) = true ->
  batch_candidate r link (py "unnamed") = Ret cand ->
  movie_link link w
  = deliver (py "movies") link
      (movie_dest (sanitize_name (strip_extension cand))) r (after_call w).
Proof.
  intros Ha Hd Hc. unfold movie_link, bind, unrestrict, pure.
  rewrite Ha, Hd. cbn [negb]. rewrite Hc. reflexivity.
Qed.

Lemma episode_link_written show_name season link w r cand :
  unrestrict_answer (calls w) link = Ret r ->
  truthy_opt (direct r) = true ->
  batch_candidate r link (show_name ++ py "_ep") = Ret cand ->
  carried_out (S (calls w)) (py "tv")
    (joinpath (season_dir show_name season)
       (batch_final_name show_name season (fs w)
          (sanitize_name (strip_extension cand)))) ->
  episode_link show_name season link w
  = (Ret tt,
     after_write w (py "tv") link
       (joinpath (season_dir show_name season)
          (batch_final_name show_name season (fs w)
             (sanitize_name (strip_extension cand)))) r).
Proof.
  intros Ha Hd Hc Hio.
  rewrite (episode_link_delivers _ _ _ _ _ _ Ha Hd Hc).
  apply deliver_carried_out, Hio.
Qed.

Lemma movie_link_written link w r cand :
  unrestrict_answer (calls w) link = Ret r ->
  truthy_opt (direct r) = true ->
  batch_candidate r link (py "unnamed") = Ret cand ->
  carried_out (S (calls w)) (py "movies")
    (movie_dest (sanitize_name (strip_extension cand))) ->
  movie_link link w
  = (Ret tt,
     after_write w (py "movies") link
       (movie_dest (sanitize_name (strip_extension cand))) r).
Proof.
  intros Ha Hd Hc Hio. rewrite (movie_link_delivers _ _ _ _ Ha Hd Hc).
  apply deliver_carried_out, Hio.
Qed.

Lemma episode_base_returns r : returns (episode_base r).
Proof.
  unfold episode_base. destruct (truthy_opt (filename r)); [eexists; reflexivity|].
  destruct (name_from_url_returns (default [] (direct r))) as [n ->].
  eexists; reflexivity.
Qed.

Lemma add_episode_delivers show season episode link w r base :
  unrestrict_answer (calls w) link = Ret r ->
  truthy_opt (direct r) = true ->
  episode_base r = Ret base ->
  add_episode show season episode link w
  = deliver (py "tv") link
      (joinpath (season_dir (sanitize_name show) season)
         (episode_final_name (sanitize_name base) season episode)) r
      (after_call w).
Proof.
  intros Ha Hd Hb. unfold add_episode, bind, unrestrict, pure.
  rewrite Ha, Hd. cbn [negb]. unfold episode_base in Hb.
  destruct (truthy_opt (filename r)).
  - injection Hb as <-. reflexivity.
  - destruct (name_from_url (default [] (direct r))) as [n|e]; [|discriminate].
    injection Hb as <-. reflexivity.
Qed.

Lemma add_movie_delivers title link w r :
  unrestrict_answer (calls w) link = Ret r ->
  truthy_opt (direct r) = true ->
  add_movie title link w
  = deliver (py "movies") link
      (movie_dest (sanitize_name (strip_extension title))) r (after_call w).
Proof.
  intros Ha Hd. unfold add_movie, bind, unrestrict, pure.
  rewrite Ha, Hd. reflexivity.
Qed.

Lemma add_episode_written show season episode link w r base :
  unrestrict_answer (calls w) link = Ret r ->
  truthy_opt (direct r) = true ->
  episode_base r = Ret base ->
  carried_out (S (calls w)) (py "tv")
    (joinpath (season_dir (sanitize_name show) season)
       (episode_final_name (sanitize_name base) season episode)) ->
  add_episode show season episode link w
  = (Ret tt,
     after_write w (py "tv") link
       (joinpath (season_dir (sanitize_name show) season)
          (episode_final_name (sanitize_name base) season episode)) r).
Proof.
  intros Ha Hd Hb Hio. rewrite (add_episode_delivers _ _ _ _ _ _ _ Ha Hd Hb).
  apply deliver_carried_out, Hio.
Qed.

Lemma add_movie_written title link w r :
  unrestrict_answer (calls w) link = Ret r ->
  truthy_opt (direct r) = true ->
  carried_out (S (calls w)) (py "movies")
    (movie_dest (sanitize_name (strip_extension title))) ->
  add_movie title link w
  = (Ret tt,
     after_write w (py "movies") link
       (movie_dest (sanitize_name (strip_extension title))) r).
Proof.
  intros Ha Hd Hio. rewrite (add_movie_delivers _ _ _ _ Ha Hd).
  apply deliver_carried_out, Hio.
Qed.

(** The episode handler runs its loop unless the season directory cannot
    be created. *)
Lemma add_episode_links_cases show season links w :
  add_episode_links_from_list show season links w
  = match os_mkdir (calls w) (season_dir (sanitize_name show) season) with
    | Some e => (Raise e, w)
    | None =>
      (Ret (fst (batch_loop (episode_link (sanitize_name show) season)
                   links 0 [] w)),
       snd (batch_loop (episode_link (sanitize_name show) season)
              links 0 [] w))
    end.
Proof.
  unfold add_episode_links_from_list.
  destruct (os_mkdir _ _); [reflexivity|].
  destruct (batch_loop _ _ _ _ _). reflexivity.
Qed.

(** The season directory ends with the season folder. *)
Lemma season_dir_snoc show_name season :
  season_dir show_name season
  = joinpath (joinpath MEDIA_ROOT (py "tv")) show_name ++ [season_folder season].
Proof.
  unfold season_dir. apply joinpath_segment, season_folder_segment.
Qed.

(** The shape [movies/<safe>/<safe>.strm], for a proper segment. *)
Lemma movie_dest_shape safe :
  segment safe ->
  movie_dest safe = MEDIA_ROOT ++ [py "movies"; safe; safe ++ py ".strm"].
Proof.
  intros Hs. unfold movie_dest.
  rewrite (joinpath_segment _ (py "movies"))
    by (split; [reflexivity | split; [discriminate | reflexivity]]).
  rewrite (joinpath_segment _ safe) by exact Hs.
  rewrite joinpath_segment.
  - rewrite <- !app_assoc. reflexivity.
  - destruct Hs as (_ & _ & Hslash).
    apply (strm_name_segment safe []); auto.
Qed.

(** Without a segment the directory of the movie is [movies] itself. *)
Lemma movie_dest_empty :
  movie_dest [] = MEDIA_ROOT ++ [py "movies"; py ".strm"].
Proof.
  unfold movie_dest.
  rewrite (joinpath_segment _ (py "movies"))
    by (split; [reflexivity | split; [discriminate | reflexivity]]).
  rewrite joinpath_empty, joinpath_segment.
  - rewrite <- !app_assoc. reflexivity.
  - split; [reflexivity | split; [discriminate | reflexivity]].
Qed.

End handlers.

(** ** The claims on the handlers *)




(** C9 (the code departs from the claim).  Both movie handlers deliver
    to [movie_dest] of the cleaned stem, which has the shape
    [movies/<safe>/<safe>.strm] whenever the cleaned stem is a proper
    segment.  But a title that cleaning empties has no directory of its
    own: the descriptor of ["???"] is [/media/movies/.strm], in the
    directory [movies], and the batch handler does the same with a file
    name such as ["???.mkv"]. *)
Theorem add_movie_without_directory :
  (forall (E : Env) title link w r,
     unrestrict_answer (calls w) link = Ret r ->
     truthy_opt (direct r) = true ->
     add_movie title link w
     = deliver (py "movies") link
         (movie_dest (sanitize_name (strip_extension title))) r (after_call w)
     /\ (carried_out (S (calls w)) (py "movies")
           (movie_dest (sanitize_name (strip_extension title))) ->
         add_movie title link w
         = (Ret tt,
            after_write w (py "movies") link
              (movie_dest (sanitize_name (strip_extension title))) r)))
  /\ (forall (E : Env) safe,
     segment safe ->
     movie_dest safe = MEDIA_ROOT ++ [py "movies"; safe; safe ++ py ".strm"])
  /\ (forall (E : Env), movie_dest [] = MEDIA_ROOT ++ [py "movies"; py ".strm"])
  /\ (let w' := snd (@add_movie sample_env (py "???") (py "host/film.mkv")
                       empty_world) in
      sanitize_name (strip_extension (py "???")) = []
      /\ fs w' !! parse_parts (py "/media/movies/.strm")
         = Some (py "https://cdn.example/d/film.mkv" ++ [newline])
      /\ size (fs w') = 1%nat)
  /\ (let w' := snd (@add_movie_links_from_list sample_env [py "host/???.mkv"]
                       empty_world) in
      fs w' !! parse_parts (py "/media/movies/.strm")
      = Some (py "https://cdn.example/d/???.mkv" ++ [newline])
      /\ size (fs w') = 1%nat).
Proof.
  split.
  { intros E title link w r Ha Hd.
    split; [apply add_movie_delivers | intros Hio; apply add_movie_written];
      assumption. }
  split; [intros E; apply movie_dest_shape|].
  split; [intros E; apply movie_dest_empty|].
  split; vm_compute; repeat split; reflexivity.
Qed.

(** C10.  [add_episode] delivers the descriptor to the folder
    [Season NN] of the season it was called with, whatever the resolved
    file name: a marker in that name only decides the name of the file.
    The destination is fixed before the file system is asked; the call
    returns when the delivery is carried out. *)
Theorem add_episode_season_folder (E : Env) show season episode link w r :
  unrestrict_answer (calls w) link = Ret r ->
  truthy_opt (direct r) = true ->
  exists base dest,
    episode_base r = Ret base
    /\ add_episode show season episode link w
       = deliver (py "tv") link dest r (after_call w)
    /\ (carried_out (S (calls w)) (py "tv") dest ->
        add_episode show season episode link w
        = (Ret tt, after_write w (py "tv") link dest r))
    /\ path_name (path_parent dest) = py "Season " ++ fmt02d season
    /\ path_name dest = episode_final_name (sanitize_name base) season episode
    /\ dest = joinpath (joinpath MEDIA_ROOT (py "tv")) (sanitize_name show)
              ++ [py "Season " ++ fmt02d season;
                  episode_final_name (sanitize_name base) season episode].
Proof.
  intros Ha Hd. destruct (episode_base_returns r) as [base Hb].
  assert (Hseg : segment (episode_final_name (sanitize_name base) season episode))
    by apply episode_final_name_segment, sanitize_name_no_slash.
  exists base, (joinpath (season_dir (sanitize_name show) season)
                  (episode_final_name (sanitize_name base) season episode)).
  split; [exact Hb|].
  split; [apply add_episode_delivers; assumption|].
  split; [intros Hio; apply add_episode_written; assumption|].
  rewrite (joinpath_segment _ _ Hseg), season_dir_snoc.
  split; [|split].
  - rewrite path_parent_snoc. apply path_name_snoc. reflexivity.
  - apply path_name_snoc. destruct Hseg as (Ht & _ & Hs).
    destruct (episode_final_name _ _ _) as [|c t]; [discriminate|].
    rewrite mem_cons in Hs. apply orb_false_iff in Hs. destruct Hs as [Hc _].
    cbn [startswith]. rewrite Hc. reflexivity.
  - rewrite <- app_assoc. reflexivity.
Qed.

Lemma add_episode_season_folder_witness :
  exists dest,
    snd (@add_episode sample_env (py "Show: X") 1 7
           (py "host/Show.S05E01.mkv") empty_world)
    = after_write empty_world (py "tv") (py "host/Show.S05E01.mkv") dest
        (Resp (Some (py "Show.S05E01.mkv"))
              (Some (py "https://cdn.example/d/Show.S05E01.mkv")))
    /\ path_name (path_parent dest) = py "Season 01"
    /\ path_name dest = py "Show.S05E01.strm".
Proof.
  destruct (add_episode_season_folder sample_env (py "Show: X") 1 7
              (py "host/Show.S05E01.mkv") empty_world
              (Resp (Some (py "Show.S05E01.mkv"))
                    (Some (py "https://cdn.example/d/Show.S05E01.mkv")))
              eq_refl eq_refl)
    as (base & dest & Hb & _ & Hrun & Hparent & Hname & Hdest).
  injection Hb as <-.
  exists dest. split; [|split; assumption].
  rewrite Hrun; [reflexivity|]. rewrite Hdest. split; reflexivity.
Defined.

(** ** Grouping the records of a tv log *)

Lemma group_key_returns link target : returns (group_key link target).
Proof.
  unfold group_key.
  repeat first
    [ match goal with
      | |- context [infer_show_and_season_from_target ?t] =>
        destruct (infer_target_returns t) as [[? ?] ->]
      | |- context [infer_from_filename_for_season ?t] =>
        destruct (infer_from_filename_returns t) as [[? ?] ->]
      end
    | progress cbn [mbind result_bind try_except]
    | match goal with
      | |- context [if ?b then _ else _] => destruct b
      end ];
    eexists; reflexivity.
Qed.

Lemma group_key_key_of e :
  group_key (default [] (e_link e)) (e_target e) = Ret (key_of e).
Proof.
  unfold key_of.
  destruct (group_key_returns (default [] (e_link e)) (e_target e)) as [k ->].
  reflexivity.
Qed.

Lemma setdefault_append_keys key link groups :
  map fst (setdefault_append key link groups)
  = if bool_decide (key ∈ map fst groups) then map fst groups
    else map fst groups ++ [key].
Proof.
  induction groups as [|[k ls] g IH]; [reflexivity|].
  cbn [setdefault_append map fst].
  destruct (bool_decide (k = key)) eqn:Hk.
  - apply bool_decide_eq_true in Hk. subst.
    rewrite bool_decide_eq_true_2 by (left). reflexivity.
  - apply bool_decide_eq_false in Hk. cbn [map fst]. rewrite IH.
    destruct (bool_decide (key ∈ map fst g)) eqn:Hin.
    + apply bool_decide_eq_true in Hin.
      rewrite bool_decide_eq_true_2 by (right; exact Hin). reflexivity.
    + apply bool_decide_eq_false in Hin.
      rewrite bool_decide_eq_false_2; [reflexivity|].
      intros H. apply elem_of_cons in H. destruct H as [H | H];
        [exact (Hk (eq_sym H)) | exact (Hin H)].
Qed.

Lemma setdefault_append_NoDup key link groups :
  NoDup (map fst groups) -> NoDup (map fst (setdefault_append key link groups)).
Proof.
  intros Hnd. rewrite setdefault_append_keys.
  destruct (bool_decide (key ∈ map fst groups)) eqn:Hin; [exact Hnd|].
  apply bool_decide_eq_false in Hin.
  apply NoDup_app. split; [exact Hnd|]. split.
  - intros x Hx Hx'. apply list_elem_of_singleton in Hx'. subst x.
    exact (Hin Hx).
  - apply NoDup_singleton.
Qed.

Lemma setdefault_append_links k key link groups :
  NoDup (map fst groups) ->
  links_under k (setdefault_append key link groups)
  = links_under k groups ++ (if bool_decide (key = k) then [link] else []).
Proof.
  induction groups as [|[k' ls] g IH]; intros Hnd.
  - cbn [setdefault_append links_under]. destruct (bool_decide (key = k)); reflexivity.
  - cbn [setdefault_append]. cbn [map fst] in Hnd.
    apply NoDup_cons in Hnd. destruct Hnd as [Hk' Hnd].
    destruct (bool_decide (k' = key)) eqn:Hkey.
    + apply bool_decide_eq_true in Hkey. subst k'. cbn [links_under].
      destruct (bool_decide (key = k)) eqn:Hk; [reflexivity|].
      rewrite app_nil_r. reflexivity.
    + apply bool_decide_eq_false in Hkey. cbn [links_under].
      destruct (bool_decide (k' = k)) eqn:Hk.
      * apply bool_decide_eq_true in Hk. subst k'.
        rewrite bool_decide_eq_false_2 by congruence.
        rewrite app_nil_r. reflexivity.
      * apply IH. exact Hnd.
Qed.

Lemma setdefault_append_nonempty key link groups :
  Forall (fun g => snd g <> []) groups ->
  Forall (fun g => snd g <> []) (setdefault_append key link groups).
Proof.
  induction 1 as [|[k ls] g Hk Hg IH]; cbn [setdefault_append].
  - constructor; [discriminate | constructor].
  - destruct (bool_decide (k = key)).
    + constructor; [|assumption]. cbn. destruct ls; discriminate.
    + constructor; assumption.
Qed.

(** The key of a record whose target names a show: the show as it
    stands, and the season unless it is missing or 0. *)
Lemma group_key_of_target link target show season :
  truthy target = true ->
  infer_show_and_season_from_target target = Ret (Some show, season) ->
  truthy show = true ->
  group_key link (Some target)
  = Ret (show, if truthy_int season then default 1%Z season else 1%Z).
Proof.
  intros Ht Hinfer Hshow. unfold group_key.
  cbn [truthy_opt from_option id]. rewrite Ht, Hinfer.
  repeat (cbn [negb andb mbind result_bind truthy_opt from_option id];
          try rewrite Hshow).
  destruct (truthy_int season); reflexivity.
Qed.

(** The key of a record without target whose link tells nothing. *)
Lemma group_key_unknown link :
  infer_from_filename_for_season link = Ret (None, None) ->
  group_key link None = Ret (py "Unknown", 1%Z).
Proof. intros Hinfer. unfold group_key. cbn. rewrite Hinfer. reflexivity. Qed.

Lemma links_keyed_cons k e entries :
  links_keyed k (e :: entries)
  = (if truthy_opt (e_link e) && bool_decide (key_of e = k)
     then [default [] (e_link e)] else [])
    ++ links_keyed k entries.
Proof.
  unfold links_keyed. cbn [omap list_omap].
  destruct (truthy_opt (e_link e)) eqn:Hl; cbn [andb]; [|reflexivity].
  destruct (bool_decide (key_of e = k)); [|reflexivity].
  destruct (e_link e); [reflexivity | discriminate].
Qed.

(** The grouping loop: keys stay distinct, no group is empty, and the
    group of a key receives, in the order of the log, the links of the
    records with that key. *)
Lemma group_entries_spec entries : forall groups,
  NoDup (map fst groups) ->
  Forall (fun g => snd g <> []) groups ->
  exists groups',
    group_entries entries groups = Ret groups'
    /\ NoDup (map fst groups')
    /\ Forall (fun g => snd g <> []) groups'
    /\ forall k, links_under k groups'
                 = links_under k groups ++ links_keyed k entries.
Proof.
  induction entries as [|e entries IH]; intros groups Hnd Hne.
  - exists groups. split; [reflexivity|]. split; [exact Hnd|].
    split; [exact Hne|]. intros k. cbn. rewrite app_nil_r. reflexivity.
  - cbn [group_entries].
    destruct (truthy_opt (e_link e)) eqn:Hl; cbn [negb].
    + rewrite group_key_key_of. cbn [mbind result_bind].
      destruct (IH (setdefault_append (key_of e) (default [] (e_link e)) groups))
        as (groups' & Hg & Hnd' & Hne' & Hlinks).
      * apply setdefault_append_NoDup, Hnd.
      * apply setdefault_append_nonempty, Hne.
      * exists groups'. split; [exact Hg|]. split; [exact Hnd'|].
        split; [exact Hne'|]. intros k. rewrite Hlinks.
        rewrite setdefault_append_links by exact Hnd.
        rewrite links_keyed_cons, Hl. cbn [andb].
        rewrite <- app_assoc. reflexivity.
    + destruct (IH groups Hnd Hne) as (groups' & Hg & Hnd' & Hne' & Hlinks).
      exists groups'. split; [exact Hg|]. split; [exact Hnd'|].
      split; [exact Hne'|]. intros k.
      rewrite links_keyed_cons, Hl. exact (Hlinks k).
Qed.

(** The tv branch: one job per key, no job without links, and under each
    key the links of the records with that key, in the order of the
    log. *)
Lemma tv_jobs_partition media_type lines :
  media_type <> py "movies" ->
  parse_log_entries (Some lines) <> [] ->
  exists groups,
    spawn_refresh_job_simple media_type (Some lines)
    = Ret (map job_of_group groups)
    /\ NoDup (map fst groups)
    /\ Forall (fun g => snd g <> []) groups
    /\ forall k, links_under k groups
                 = links_keyed k (parse_log_entries (Some lines)).
Proof.
  intros Hm Hentries. unfold spawn_refresh_job_simple.
  destruct (parse_log_entries (Some lines)) as [|e entries] eqn:He;
    [congruence|].
  unfold str_eqb. rewrite bool_decide_eq_false_2 by exact Hm.
  destruct (group_entries_spec (e :: entries) [])
    as (groups & Hg & Hnd & Hne & Hlinks).
  - constructor.
  - constructor.
  - exists groups. rewrite Hg. cbn [mbind result_bind].
    split; [reflexivity|]. split; [exact Hnd|]. split; [exact Hne|].
    exact Hlinks.
Qed.

(** C2 (the code departs from the claim).  The tv branch starts one job
    per key, none without links, and files under each key the links of
    the records with that key in the order of the log; the groups of the
    example of the specification come out as stated.  But the key is not
    always the inferred pair: the test [if not season] takes an inferred
    season 0 for a missing one, so the records of [Season 00] are filed
    under season 1, with those of [Season 01]. *)
Theorem tv_groups_season_zero :
  (forall lines,
     parse_log_entries (Some lines) <> [] ->
     exists groups,
       spawn_refresh_job_simple (py "tv") (Some lines)
       = Ret (map job_of_group groups)
       /\ NoDup (map fst groups)
       /\ Forall (fun g => snd g <> []) groups
       /\ forall k, links_under k groups
                    = links_keyed k (parse_log_entries (Some lines)))
  /\ spawn_refresh_job_simple (py "tv")
       (Some [log_line_of "L1" "/media/tv/A/Season 01/a.strm";
              log_line_of "L2" "/media/tv/A/Season 01/b.strm";
              log_line_of "L3" "/media/tv/B/Season 02/c.strm"])
     = Ret [TvJob (py "A") 1 [py "L1"; py "L2"];
            TvJob (py "B") 2 [py "L3"]]
  /\ infer_show_and_season_from_target (py "/media/tv/A/Season 00/a.strm")
     = Ret (Some (py "A"), Some 0%Z)
  /\ group_key (py "L0") (Some (py "/media/tv/A/Season 00/a.strm"))
     = Ret (py "A", 1%Z)
  /\ spawn_refresh_job_simple (py "tv")
       (Some [log_line_of "L0" "/media/tv/A/Season 00/a.strm";
              log_line_of "L1" "/media/tv/A/Season 01/a.strm"])
     = Ret [TvJob (py "A") 1 [py "L0"; py "L1"]].
Proof.
  split.
  - intros lines. apply tv_jobs_partition. discriminate.
  - repeat split; vm_compute; reflexivity.
Qed.

(** C3 (the code departs from the claim).  A movie log without a usable
    link raises, whatever its lines; the tv branch has no such test, and
    a tv log whose lines hold no link starts no job and returns the
    empty list. *)
Theorem refresh_without_links :
  (forall lines,
     Forall (fun e => truthy_opt (e_link e) = false)
            (parse_log_entries (Some lines)) ->
     exists msg,
       spawn_refresh_job_simple (py "movies") (Some lines)
       = Raise (Exn RuntimeError msg))
  /\ spawn_refresh_job_simple (py "movies")
       (Some [py "2024-05-01T10:00:00+02:00 | target=/media/movies/A/A.strm | rd_filename=A.mkv"])
     = Raise (Exn RuntimeError (py "no links found in movie log"))
  /\ parse_log_entries
       (Some [py "2024-05-01T10:00:00+02:00 | target=/media/tv/A/Season 01/a.strm | rd_filename=a.mkv"])
     = [Entry None (Some (py "/media/tv/A/Season 01/a.strm"))
          (py "2024-05-01T10:00:00+02:00 | target=/media/tv/A/Season 01/a.strm | rd_filename=a.mkv")]
  /\ spawn_refresh_job_simple (py "tv")
       (Some [py "2024-05-01T10:00:00+02:00 | target=/media/tv/A/Season 01/a.strm | rd_filename=a.mkv"])
     = Ret [].
Proof.
  split; [|repeat split; vm_compute; reflexivity].
  intros lines Hall. unfold spawn_refresh_job_simple.
  destruct (parse_log_entries (Some lines)) as [|e entries];
    [eexists; reflexivity|].
  unfold str_eqb. rewrite bool_decide_eq_true_2 by reflexivity.
  assert (Hnone : omap (fun e0 => if truthy_opt (e_link e0) then e_link e0 else None)
                       (e :: entries) = []).
  { induction Hall as [|x l Hx _ IH]; [reflexivity|].
    cbn [omap list_omap]. rewrite Hx. exact IH. }
  rewrite Hnone. eexists; reflexivity.
Qed.

(* ================================================================== *)
(** * More properties of the code *)

(** ** Stripping *)

Lemma filter_all {A} (f : A -> bool) l :
  (forall x, In x l -> f x = true) -> List.filter f l = l.
Proof.
  induction l as [|a l IH]; intros H; [reflexivity|].
  cbn [List.filter]. rewrite (H a) by (left; reflexivity).
  rewrite IH; [reflexivity|]. intros x Hx. apply H. right. exact Hx.
Qed.

Lemma lstrip_by_clean p s :
  (forall c t, s = c :: t -> p c = false) -> lstrip_by p s = s.
Proof.
  destruct s as [|c t]; intros H; [reflexivity|].
  cbn [lstrip_by]. rewrite (H c t eq_refl). reflexivity.
Qed.

Lemma rstrip_by_clean p s :
  (forall t c, s = t ++ [c] -> p c = false) -> rstrip_by p s = s.
Proof.
  intros H. unfold rstrip_by. rewrite lstrip_by_clean.
  - apply rev_involutive.
  - intros c t Hrev. apply (H (rev t) c).
    rewrite <- (rev_involutive s), Hrev. reflexivity.
Qed.

Lemma lstrip_by_all p a s :
  forallb p a = true -> lstrip_by p (a ++ s) = lstrip_by p s.
Proof.
  induction a as [|c a IH]; [reflexivity|]. cbn [forallb app lstrip_by].
  intros H. apply andb_true_iff in H. destruct H as [-> H]. exact (IH H).
Qed.

Lemma lstrip_by_nil p a : forallb p a = true -> lstrip_by p a = [].
Proof.
  intros H. rewrite <- (app_nil_r a). rewrite lstrip_by_all by exact H.
  reflexivity.
Qed.

Lemma lstrip_by_app p b c :
  lstrip_by p (b ++ c)
  = if forallb p b then lstrip_by p c else lstrip_by p b ++ c.
Proof.
  induction b as [|x b IH]; [reflexivity|]. cbn [forallb app lstrip_by].
  destruct (p x); [exact IH | reflexivity].
Qed.

Lemma forallb_rev {A} (p : A -> bool) l : forallb p (rev l) = forallb p l.
Proof.
  induction l as [|a l IH]; [reflexivity|]. cbn [rev forallb].
  rewrite forallb_app, IH. cbn [forallb]. rewrite andb_true_r. apply andb_comm.
Qed.

Lemma rstrip_by_all p s c :
  forallb p c = true -> rstrip_by p (s ++ c) = rstrip_by p s.
Proof.
  intros H. unfold rstrip_by. rewrite rev_app_distr, lstrip_by_all.
  - reflexivity.
  - rewrite forallb_rev. exact H.
Qed.

Lemma rstrip_by_app p b c :
  rstrip_by p (b ++ c)
  = if forallb p c then rstrip_by p b else b ++ rstrip_by p c.
Proof.
  unfold rstrip_by. rewrite rev_app_distr, lstrip_by_app, forallb_rev.
  destruct (forallb p c); [reflexivity|].
  rewrite rev_app_distr, rev_involutive. reflexivity.
Qed.

Lemma rstrip_by_prefix p s :
  exists suf, s = rstrip_by p s ++ suf /\ forallb p suf = true.
Proof.
  unfold rstrip_by.
  destruct (lstrip_by_suffix p (rev s)) as (pre & Hs & Hp).
  exists (rev pre). split.
  - rewrite <- rev_app_distr, <- Hs. symmetry. apply rev_involutive.
  - rewrite forallb_rev. exact Hp.
Qed.

(** A strip at both ends leaves a text that a second strip keeps. *)
Lemma strip_by_idem p s : strip_by p (strip_by p s) = strip_by p s.
Proof.
  assert (Hr : forall u, rstrip_by p (rstrip_by p u) = rstrip_by p u).
  { intros u. apply rstrip_by_clean. intros t c Ht.
    eapply rstrip_by_last. exact Ht. }
  unfold strip_by at 1.
  rewrite lstrip_by_clean; [apply Hr|].
  intros c t Ht. unfold strip_by in Ht.
  destruct (rstrip_by_prefix p (lstrip_by p s)) as (suf & Hs & _).
  rewrite Ht in Hs. eapply lstrip_by_head. exact Hs.
Qed.

(** White space around a text does not change what its strip leaves. *)
Lemma strip_by_pad p a b c :
  forallb p a = true -> forallb p c = true ->
  strip_by p (a ++ b ++ c) = strip_by p b.
Proof.
  intros Ha Hc. unfold strip_by. rewrite lstrip_by_all by exact Ha.
  rewrite lstrip_by_app. destruct (forallb p b) eqn:Hb.
  - rewrite (lstrip_by_nil p c Hc), (lstrip_by_nil p b Hb). reflexivity.
  - apply rstrip_by_all. exact Hc.
Qed.

Lemma strip_by_clean p s :
  (forall c t, s = c :: t -> p c = false) ->
  (forall t c, s = t ++ [c] -> p c = false) ->
  strip_by p s = s.
Proof.
  intros Hh Hl. unfold strip_by. rewrite lstrip_by_clean by exact Hh.
  apply rstrip_by_clean. exact Hl.
Qed.

(** ** Names *)

(** X1.  [sanitize_name] keeps a name that is already clean: not empty,
    without reserved character, without white space at either end and
    without a dot at its end. *)
Theorem sanitize_name_keeps_clean name :
  truthy name = true ->
  (forall c, In c name -> mem c reserved = false) ->
  (forall c t, name = c :: t -> isspace c = false) ->
  (forall t c, name = t ++ [c] -> isspace c = false /\ c <> "."%char) ->
  sanitize_name name = name.
Proof.
  intros Hn Hres Hhead Hlast. unfold sanitize_name. rewrite Hn. cbn [negb].
  rewrite filter_all
    by (intros c Hc; rewrite (Hres c Hc); reflexivity).
  assert (Hstrip : strip name = name).
  { apply strip_by_clean; [exact Hhead|].
    intros t c Ht. apply (Hlast t c Ht). }
  rewrite Hstrip. unfold rstrip_chars. rewrite rstrip_by_clean.
  - exact Hstrip.
  - intros t c Ht. destruct (Hlast t c Ht) as [Hsp Hdot].
    apply not_true_iff_false. intros Hm. apply mem_In in Hm.
    destruct Hm as [<- | [<- | []]]; [congruence | discriminate].
Qed.

Lemma sanitize_name_keeps_clean_witness :
  sanitize_name (py "Blade Runner (1982)") = py "Blade Runner (1982)".
Proof.
  apply sanitize_name_keeps_clean.
  - reflexivity.
  - intros c Hc. cbn in Hc.
    repeat (destruct Hc as [<- | Hc]; [reflexivity|]). destruct Hc.
  - intros c t [= <- _]. reflexivity.
  - intros t c Ht. apply (f_equal (@rev ascii)) in Ht.
    rewrite rev_app_distr in Ht. cbn in Ht. injection Ht as <- _.
    split; [reflexivity | discriminate].
Defined.

Lemma mem_sym_false c s :
  mem c s = false -> forall a, In a s -> Ascii.eqb a c = false.
Proof.
  intros Hm a Ha. apply not_true_iff_false. intros Heq.
  apply Ascii.eqb_eq in Heq. subst a.
  apply mem_In in Ha. congruence.
Qed.







(** ** Paths as the file system walks them *)

Lemma resolve_go_app p q : forall done,
  resolve_go done (p ++ q) = resolve_go (rev (resolve_go done p)) q.
Proof.
  induction p as [|x p IH]; intros done.
  - cbn [app resolve_go]. rewrite rev_involutive. reflexivity.
  - cbn [app resolve_go].
    destruct (str_eqb x (py "..")).
    + destruct done as [|d done']; [apply IH|].
      destruct (startswith [slash] d); [apply IH|].
      destruct (str_eqb d (py "..")); apply IH.
    + destruct (str_eqb x (py "//")); apply IH.
Qed.

Lemma resolve_go_name done x rest :
  walked x -> resolve_go done (x :: rest) = resolve_go (x :: done) rest.
Proof.
  intros [Hx1 Hx2]. cbn [resolve_go]. unfold str_eqb.
  rewrite (bool_decide_eq_false_2 (x = py "..")) by exact Hx1.
  rewrite (bool_decide_eq_false_2 (x = py "//")) by exact Hx2.
  reflexivity.
Qed.

Lemma resolve_go_up d done rest :
  walked d -> startswith [slash] d = false ->
  resolve_go (d :: done) (py ".." :: rest) = resolve_go done rest.
Proof.
  intros [Hd1 Hd2] Hs. cbn [resolve_go]. unfold str_eqb.
  rewrite (bool_decide_eq_true_2 (py ".." = py "..")) by reflexivity.
  rewrite Hs, (bool_decide_eq_false_2 (d = py "..")) by exact Hd1.
  reflexivity.
Qed.

Lemma resolve_go_walked q : forall done,
  Forall walked q -> resolve_go done q = rev done ++ q.
Proof.
  induction q as [|x q IH]; intros done Hq.
  - cbn [resolve_go]. rewrite app_nil_r. reflexivity.
  - apply Forall_cons in Hq. destruct Hq as [Hx Hq].
    rewrite (resolve_go_name _ _ _ Hx), (IH _ Hq). cbn [rev].
    rewrite <- app_assoc. reflexivity.
Qed.

(** Names are walked as they stand. *)
Lemma resolve_app_walked p q :
  Forall walked q -> resolve (p ++ q) = resolve p ++ q.
Proof.
  intros Hq. unfold resolve. rewrite resolve_go_app, (resolve_go_walked _ _ Hq).
  rewrite rev_involutive. reflexivity.
Qed.

(** A name followed by [..] is as if neither were there. *)
Lemma resolve_app_dotdot p x q :
  walked x -> startswith [slash] x = false ->
  resolve (p ++ x :: py ".." :: q) = resolve (p ++ q).
Proof.
  intros Hx Hs. unfold resolve. rewrite !resolve_go_app.
  rewrite (resolve_go_name _ _ _ Hx), (resolve_go_up _ _ _ Hx Hs).
  reflexivity.
Qed.

Lemma segment_walked x : segment x -> x <> py ".." -> walked x.
Proof.
  intros (_ & _ & Hs) Hx. split; [exact Hx|]. intros ->. discriminate Hs.
Qed.

Lemma strm_walked name : ends_with (py ".strm") name = true -> walked name.
Proof.
  intros H. unfold ends_with in H. apply startswith_prefix in H.
  destruct H as [rest H].
  split; intros ->; discriminate H.
Qed.

Lemma season_folder_walked season : walked (season_folder season).
Proof. split; discriminate. Qed.

(** ** The single handlers *)

Section single_handlers.
Context {E : Env}.

Lemma add_movie_cases title link w :
  add_movie title link w
  = match unrestrict_answer (calls w) link with
    | Raise e => (Raise e, after_call w)
    | Ret r =>
      if truthy_opt (direct r)
      then deliver (py "movies") link
             (movie_dest (sanitize_name (strip_extension title))) r
             (after_call w)
      else (Raise (Exn RuntimeError
                     (py "No direct link returned from Real-Debrid.")),
            after_call w)
    end.
Proof.
  unfold add_movie, bind, unrestrict.
  destruct (unrestrict_answer (calls w) link) as [r|e]; [|reflexivity].
  destruct (truthy_opt (direct r)); reflexivity.
Qed.

Lemma add_episode_cases show season episode link w :
  add_episode show season episode link w
  = match unrestrict_answer (calls w) link with
    | Raise e => (Raise e, after_call w)
    | Ret r =>
      if truthy_opt (direct r)
      then
        match episode_base r with
        | Ret base =>
          deliver (py "tv") link
            (joinpath (season_dir (sanitize_name show) season)
               (episode_final_name (sanitize_name base) season episode)) r
            (after_call w)
        | Raise e => (Raise e, after_call w)
        end
      else (Raise (Exn RuntimeError
                     (py "No direct link returned from Real-Debrid.")),
            after_call w)
    end.
Proof.
  destruct (unrestrict_answer (calls w) link) as [r|e] eqn:Ha.
  - destruct (truthy_opt (direct r)) eqn:Hd.
    + destruct (episode_base_returns r) as [base Hb]. rewrite Hb.
      exact (add_episode_delivers _ _ _ _ _ _ _ Ha Hd Hb).
    + unfold add_episode, bind, unrestrict. rewrite Ha, Hd. reflexivity.
  - unfold add_episode, bind, unrestrict. rewrite Ha. reflexivity.
Qed.

(** What a delivery leaves, whatever the file system does: a line is
    logged exactly when the delivery returns, and then the descriptor
    holds the direct URL; when it raises, the files are as they were or
    differ at the destination alone. *)
Lemma deliver_step media link dest r w res w' :
  deliver media link dest r w = (res, w') ->
  calls w' = calls w
  /\ match res with
     | Ret _ =>
       fs w' = <[resolve dest := strip (default [] (direct r)) ++ [newline]]>
                 (fs w)
       /\ logs w' = logs w ++ [LogLine media link dest (default [] (filename r))]
     | Raise _ =>
       logs w' = logs w
       /\ (fs w' = fs w
           \/ exists content, fs w' = <[resolve dest := content]> (fs w))
     end.
Proof.
  rewrite deliver_cases.
  destruct (os_write (calls w) dest) as [|e [kept|]].
  - destruct (os_append (calls w) media) as [e|]; intros [= <- <-];
      (split; [reflexivity|]).
    + split; [reflexivity|]. right. eexists. reflexivity.
    + split; reflexivity.
  - intros [= <- <-]. split; [reflexivity|]. split; [reflexivity|].
    right. eexists. reflexivity.
  - intros [= <- <-]. split; [reflexivity|]. split; [reflexivity|].
    left. reflexivity.
Qed.

End single_handlers.

(** X3.  A call of [add_movie] or [add_episode] makes one request to the
    service.  It logs a line exactly when it returns, and then the
    descriptor holds the direct URL of the answer.  It raises without
    touching a file when the service refuses the link or answers without
    a direct URL.  When the file system refuses the log line, it raises
    with the descriptor written and no line logged. *)
Theorem single_handlers_outcomes (E : Env) :
  (forall title link w,
     let dest := movie_dest (sanitize_name (strip_extension title)) in
     (forall res w',
        add_movie title link w = (res, w') ->
        calls w' = S (calls w)
        /\ (forall e, res = Raise e -> logs w' = logs w)
        /\ (res = Ret tt ->
            exists r,
              unrestrict_answer (calls w) link = Ret r
              /\ truthy_opt (direct r) = true
              /\ w' = after_write w (py "movies") link dest r))
     /\ (forall e,
           unrestrict_answer (calls w) link = Raise e ->
           add_movie title link w = (Raise e, after_call w))
     /\ (forall r,
           unrestrict_answer (calls w) link = Ret r ->
           truthy_opt (direct r) = false ->
           exists e, add_movie title link w = (Raise e, after_call w))
     /\ (forall r e,
           unrestrict_answer (calls w) link = Ret r ->
           truthy_opt (direct r) = true ->
           os_write (S (calls w)) dest = Written ->
           os_append (S (calls w)) (py "movies") = Some e ->
           exists w',
             add_movie title link w = (Raise e, w')
             /\ logs w' = logs w
             /\ fs w' = <[resolve dest
                          := strip (default [] (direct r)) ++ [newline]]>
                          (fs w)))
  /\ (forall show season episode link w,
     (forall res w',
        add_episode show season episode link w = (res, w') ->
        calls w' = S (calls w)
        /\ (forall e, res = Raise e -> logs w' = logs w)
        /\ (res = Ret tt ->
            exists r dest,
              unrestrict_answer (calls w) link = Ret r
              /\ truthy_opt (direct r) = true
              /\ w' = after_write w (py "tv") link dest r))
     /\ (forall e,
           unrestrict_answer (calls w) link = Raise e ->
           add_episode show season episode link w = (Raise e, after_call w))
     /\ (forall r,
           unrestrict_answer (calls w) link = Ret r ->
           truthy_opt (direct r) = false ->
           exists e,
             add_episode show season episode link w = (Raise e, after_call w))
     /\ (forall r e base,
           unrestrict_answer (calls w) link = Ret r ->
           truthy_opt (direct r) = true ->
           episode_base r = Ret base ->
           let dest :=
             joinpath (season_dir (sanitize_name show) season)
               (episode_final_name (sanitize_name base) season episode) in
           os_write (S (calls w)) dest = Written ->
           os_append (S (calls w)) (py "tv") = Some e ->
           exists w',
             add_episode show season episode link w = (Raise e, w')
             /\ logs w' = logs w
             /\ fs w' = <[resolve dest
                          := strip (default [] (direct r)) ++ [newline]]>
                          (fs w))).
Proof.
  split.
  - intros title link w dest. split; [|split; [|split]].
    + intros res w'. rewrite add_movie_cases.
      destruct (unrestrict_answer (calls w) link) as [r|e0] eqn:Ha.
      * destruct (truthy_opt (direct r)) eqn:Hd.
        -- intros Hdel. destruct (deliver_step _ _ _ _ _ _ _ Hdel) as [Hc Hres].
           split; [exact Hc|]. split.
           ++ intros e ->. apply Hres.
           ++ intros ->. destruct Hres as [Hfs Hlogs].
              exists r. split; [reflexivity|]. split; [exact Hd|].
              destruct w' as [f l c]. cbn [fs logs calls after_call] in *.
              unfold after_write. rewrite Hc, Hfs, Hlogs. reflexivity.
        -- intros [= <- <-]. split; [reflexivity|].
           split; [reflexivity | discriminate].
      * intros [= <- <-]. split; [reflexivity|].
        split; [reflexivity | discriminate].
    + intros e Ha. rewrite add_movie_cases, Ha. reflexivity.
    + intros r Ha Hd. rewrite add_movie_cases, Ha, Hd. eexists. reflexivity.
    + intros r e Ha Hd Hw Hl. rewrite add_movie_cases, Ha, Hd, deliver_cases.
      cbn [after_call calls]. fold dest. rewrite Hw, Hl.
      eexists. split; [reflexivity|]. split; reflexivity.
  - intros show season episode link w. split; [|split; [|split]].
    + intros res w'. rewrite add_episode_cases.
      destruct (unrestrict_answer (calls w) link) as [r|e0] eqn:Ha.
      * destruct (truthy_opt (direct r)) eqn:Hd.
        -- destruct (episode_base_returns r) as [base ->].
           intros Hdel. destruct (deliver_step _ _ _ _ _ _ _ Hdel) as [Hc Hres].
           split; [exact Hc|]. split.
           ++ intros e ->. apply Hres.
           ++ intros ->. destruct Hres as [Hfs Hlogs].
              exists r. eexists. split; [reflexivity|]. split; [exact Hd|].
              destruct w' as [f l c]. cbn [fs logs calls after_call] in *.
              unfold after_write. rewrite Hc, Hfs, Hlogs. reflexivity.
        -- intros [= <- <-]. split; [reflexivity|].
           split; [reflexivity | discriminate].
      * intros [= <- <-]. split; [reflexivity|].
        split; [reflexivity | discriminate].
    + intros e Ha. rewrite add_episode_cases, Ha. reflexivity.
    + intros r Ha Hd. rewrite add_episode_cases, Ha, Hd. eexists. reflexivity.
    + intros r e base Ha Hd Hb dest Hw Hl.
      rewrite add_episode_cases, Ha, Hd, Hb, deliver_cases.
      cbn [after_call calls]. fold dest. rewrite Hw, Hl.
      eexists. split; [reflexivity|]. split; reflexivity.
Qed.

(** X4.  The last write wins.  The path of a movie depends on the title
    alone: when the service answers two calls of [add_movie] for the
    same title with a direct URL and the file system carries both
    deliveries out, the second replaces the content of the first and
    adds no file, whatever the links.  The same holds for [add_episode]
    when the service gives the same file name on both calls.  The log
    grows by a line each time. *)
Theorem single_handlers_overwrite (E : Env) :
  (forall title link1 link2 w r1 r2,
     let dest := movie_dest (sanitize_name (strip_extension title)) in
     unrestrict_answer (calls w) link1 = Ret r1 ->
     truthy_opt (direct r1) = true ->
     unrestrict_answer (S (calls w)) link2 = Ret r2 ->
     truthy_opt (direct r2) = true ->
     carried_out (S (calls w)) (py "movies") dest ->
     carried_out (S (S (calls w))) (py "movies") dest ->
     let w1 := snd (add_movie title link1 w) in
     let w2 := snd (add_movie title link2 w1) in
     fs w2 = fs (snd (add_movie title link2 (after_call w)))
     /\ dom (fs w2) = dom (fs w1)
     /\ length (logs w2) = (2 + length (logs w))%nat)
  /\ (forall show season episode link1 link2 w r1 r2 base,
     let dest :=
       joinpath (season_dir (sanitize_name show) season)
         (episode_final_name (sanitize_name base) season episode) in
     unrestrict_answer (calls w) link1 = Ret r1 ->
     truthy_opt (direct r1) = true ->
     unrestrict_answer (S (calls w)) link2 = Ret r2 ->
     truthy_opt (direct r2) = true ->
     episode_base r1 = Ret base -> episode_base r2 = Ret base ->
     carried_out (S (calls w)) (py "tv") dest ->
     carried_out (S (S (calls w))) (py "tv") dest ->
     let w1 := snd (add_episode show season episode link1 w) in
     let w2 := snd (add_episode show season episode link2 w1) in
     fs w2 = fs (snd (add_episode show season episode link2 (after_call w)))
     /\ dom (fs w2) = dom (fs w1)
     /\ length (logs w2) = (2 + length (logs w))%nat).
Proof.
  split.
  - intros title link1 link2 w r1 r2 dest Ha1 Hd1 Ha2 Hd2 Hio1 Hio2 w1 w2.
    subst w1 w2.
    rewrite (add_movie_written title link1 w r1 Ha1 Hd1 Hio1). cbn [snd].
    rewrite (add_movie_written title link2 (after_write _ _ _ _ _) r2
               Ha2 Hd2 Hio2).
    rewrite (add_movie_written title link2 (after_call w) r2 Ha2 Hd2 Hio2).
    cbn [snd after_write after_call fs logs]. fold dest.
    split; [apply insert_insert_eq|]. split.
    + rewrite insert_insert_eq, !dom_insert_L. reflexivity.
    + rewrite !length_app. cbn. lia.
  - intros show season episode link1 link2 w r1 r2 base dest
           Ha1 Hd1 Ha2 Hd2 Hb1 Hb2 Hio1 Hio2 w1 w2.
    subst w1 w2.
    rewrite (add_episode_written show season episode link1 w r1 base
               Ha1 Hd1 Hb1 Hio1). cbn [snd].
    rewrite (add_episode_written show season episode link2
               (after_write _ _ _ _ _) r2 base Ha2 Hd2 Hb2 Hio2).
    rewrite (add_episode_written show season episode link2 (after_call w)
               r2 base Ha2 Hd2 Hb2 Hio2).
    cbn [snd after_write after_call fs logs]. fold dest.
    split; [apply insert_insert_eq|]. split.
    + rewrite insert_insert_eq, !dom_insert_L. reflexivity.
    + rewrite !length_app. cbn. lia.
Qed.

Lemma single_handlers_overwrite_witness :
  let w1 := snd (@add_movie sample_env (py "Heat.mkv") (py "host/a.mkv")
                   empty_world) in
  let w2 := snd (@add_movie sample_env (py "Heat.mkv") (py "host/b.mkv") w1) in
  fs w2 = fs (snd (@add_movie sample_env (py "Heat.mkv") (py "host/b.mkv")
                     (after_call empty_world)))
  /\ dom (fs w2) = dom (fs w1)
  /\ length (logs w2) = 2%nat.
Proof.
  apply (proj1 (single_handlers_overwrite sample_env)
           (py "Heat.mkv") (py "host/a.mkv") (py "host/b.mkv") empty_world
           (Resp (Some (py "a.mkv")) (Some (py "https://cdn.example/d/a.mkv")))
           (Resp (Some (py "b.mkv")) (Some (py "https://cdn.example/d/b.mkv"))));
    try reflexivity; split; reflexivity.
Defined.

(** A call that the service answers and the log refuses, in the sample
    world without a log: the descriptor is there, the log is empty. *)
Lemma single_handlers_outcomes_witness :
  exists w',
    @add_movie sample_env_without_log (py "Heat.mkv") (py "host/a.mkv")
      empty_world
    = (Raise (Exn OSError
                (py "[Errno 13] Permission denied: '/fetch_logs/movies'")),
       w')
    /\ logs w' = []
    /\ fs w' = <[parse_parts (py "/media/movies/Heat/Heat.strm")
                 := py "https://cdn.example/d/a.mkv" ++ [newline]]> ∅.
Proof.
  exact (proj2 (proj2 (proj2
           (proj1 (single_handlers_outcomes sample_env_without_log)
              (py "Heat.mkv") (py "host/a.mkv") empty_world)))
           (Resp (Some (py "a.mkv")) (Some (py "https://cdn.example/d/a.mkv")))
           _ eq_refl eq_refl eq_refl eq_refl).
Defined.

(** ** Numbers in names *)

Lemma fold_digits_pos d : forall p,
  fold_left (fun acc c => (10 * acc + digit_value c)%Z)
            (py (NilEmpty.string_of_uint d)) (Zpos p)
  = Zpos (Pos.of_uint_acc d p).
Proof.
  induction d; intros p; cbn [NilEmpty.string_of_uint py list_ascii_of_string
                               fold_left Pos.of_uint_acc];
    [reflexivity | rewrite <- IHd; f_equal; unfold digit_value; cbn; lia ..].
Qed.

Lemma fold_digits d :
  fold_left (fun acc c => (10 * acc + digit_value c)%Z)
            (py (NilEmpty.string_of_uint d)) 0%Z
  = Z.of_N (Pos.of_uint d).
Proof.
  induction d; cbn [NilEmpty.string_of_uint py list_ascii_of_string
                     fold_left Pos.of_uint];
    [reflexivity | exact IHd | ..];
    match goal with
    | |- fold_left _ _ ?z = _ =>
      let z' := eval vm_compute in z in change z with z'
    end; rewrite fold_digits_pos; reflexivity.
Qed.

Lemma decimal_truthy n : truthy (decimal n) = true.
Proof.
  unfold decimal, NilZero.string_of_uint.
  destruct (N.to_uint n); reflexivity.
Qed.

(** [int] reads back what the format [02d] printed. *)
Lemma py_int_decimal n : py_int (decimal n) = Ret (Z.of_N n).
Proof.
  unfold py_int. rewrite decimal_truthy, decimal_digits. cbn [andb].
  f_equal. rewrite <- (DecimalN.Unsigned.of_to n) at 2.
  unfold decimal, NilZero.string_of_uint, N.of_uint.
  destruct (N.to_uint n) eqn:Hd;
    first [rewrite <- fold_digits; reflexivity | reflexivity].
Qed.

Lemma py_int_fmt02d z : (0 <= z)%Z -> py_int (fmt02d z) = Ret z.
Proof.
  intros Hz. unfold fmt02d.
  replace (z <? 0)%Z with false by (symmetry; apply Z.ltb_ge; exact Hz).
  assert (Hd := py_int_decimal (Z.to_N z)). rewrite Z2N.id in Hd by exact Hz.
  destruct (length (decimal (Z.to_N z)) <? 2)%nat; [|exact Hd].
  unfold py_int in *. cbn [truthy forallb andb fold_left].
  rewrite decimal_truthy in Hd.
  destruct (forallb isdigit (decimal (Z.to_N z))); [|discriminate Hd].
  exact Hd.
Qed.

Lemma fmt02d_inj a b :
  (0 <= a)%Z -> (0 <= b)%Z -> fmt02d a = fmt02d b -> a = b.
Proof.
  intros Ha Hb Heq. assert (H := py_int_fmt02d a Ha).
  rewrite Heq, (py_int_fmt02d b Hb) in H. congruence.
Qed.

(** ** What a batch leaves behind *)

Section batch_items.
Context {E : Env}.

Lemma movie_link_cases link w :
  movie_link link w
  = match unrestrict_answer (calls w) link with
    | Raise e => (Raise e, after_call w)
    | Ret r =>
      if truthy_opt (direct r)
      then
        match batch_candidate r link (py "unnamed") with
        | Ret cand =>
          deliver (py "movies") link
            (movie_dest (sanitize_name (strip_extension cand))) r
            (after_call w)
        | Raise e => (Raise e, after_call w)
        end
      else (Raise (Exn RuntimeError (py "No direct URL returned")),
            after_call w)
    end.
Proof.
  destruct (unrestrict_answer (calls w) link) as [r|e] eqn:Ha.
  - destruct (truthy_opt (direct r)) eqn:Hd.
    + destruct (batch_candidate_returns r link (py "unnamed")) as [cand Hc].
      rewrite Hc. exact (movie_link_delivers _ _ _ _ Ha Hd Hc).
    + exact (movie_link_no_direct _ _ _ Ha Hd).
  - apply movie_link_refused. exact Ha.
Qed.

Lemma episode_link_cases show_name season link w :
  episode_link show_name season link w
  = match unrestrict_answer (calls w) link with
    | Raise e => (Raise e, after_call w)
    | Ret r =>
      if truthy_opt (direct r)
      then
        match batch_candidate r link (show_name ++ py "_ep") with
        | Ret cand =>
          deliver (py "tv") link
            (joinpath (season_dir show_name season)
               (batch_final_name show_name season (fs w)
                  (sanitize_name (strip_extension cand)))) r
            (after_call w)
        | Raise e => (Raise e, after_call w)
        end
      else (Raise (Exn RuntimeError (py "No direct URL returned")),
            after_call w)
    end.
Proof.
  destruct (unrestrict_answer (calls w) link) as [r|e] eqn:Ha.
  - destruct (truthy_opt (direct r)) eqn:Hd.
    + destruct (batch_candidate_returns r link (show_name ++ py "_ep"))
        as [cand Hc].
      rewrite Hc. exact (episode_link_delivers _ _ _ _ _ _ Ha Hd Hc).
    + exact (episode_link_no_direct _ _ _ _ _ Ha Hd).
  - apply episode_link_refused. exact Ha.
Qed.

Lemma joinpath_no_slash p s :
  mem slash s = false -> joinpath p s = p ++ parse_parts s.
Proof.
  intros Hs. unfold joinpath. destruct s as [|a t]; [reflexivity|].
  rewrite mem_cons in Hs. apply orb_false_iff in Hs. destruct Hs as [Ha _].
  cbn [startswith]. rewrite Ha. reflexivity.
Qed.

Lemma movie_dest_parts safe :
  mem slash safe = false ->
  movie_dest safe
  = (MEDIA_ROOT ++ [py "movies"]) ++ parse_parts safe ++ [safe ++ py ".strm"].
Proof.
  intros Hs. unfold movie_dest.
  rewrite (joinpath_segment _ (py "movies"))
    by (split; [reflexivity | split; [discriminate | reflexivity]]).
  rewrite (joinpath_no_slash _ safe Hs), joinpath_segment.
  - rewrite <- app_assoc. reflexivity.
  - apply (strm_name_segment safe []); auto.
Qed.

Lemma season_dir_parts show_name season :
  mem slash show_name = false ->
  season_dir show_name season
  = (MEDIA_ROOT ++ [py "tv"]) ++ parse_parts show_name
    ++ [season_folder season].
Proof.
  intros Hs. rewrite season_dir_snoc.
  rewrite (joinpath_segment _ (py "tv"))
    by (split; [reflexivity | split; [discriminate | reflexivity]]).
  rewrite (joinpath_no_slash _ show_name Hs), <- app_assoc. reflexivity.
Qed.

End batch_items.

(** A text without a slash is one segment or, empty or a single dot,
    none. *)
Lemma parse_parts_no_slash s :
  mem slash s = false ->
  parse_parts s = [] \/ (segment s /\ parse_parts s = [s]).
Proof.
  intros Hs. destruct s as [|a t]; [left; reflexivity|].
  destruct (decide (a :: t = py ".")) as [->|Hdot]; [left; reflexivity|].
  right. assert (Hseg : segment (a :: t))
    by (split; [reflexivity | split; assumption]).
  split; [exact Hseg | apply parse_parts_segment; exact Hseg].
Qed.

Lemma parse_parts_walked s :
  mem slash s = false -> s <> py ".." -> Forall walked (parse_parts s).
Proof.
  intros Hs Hne. destruct (parse_parts_no_slash s Hs) as [-> | [Hseg ->]].
  - constructor.
  - constructor; [apply segment_walked; assumption | constructor].
Qed.

Lemma ends_with_app suffix s : ends_with suffix (s ++ suffix) = true.
Proof. unfold ends_with. rewrite rev_app_distr. apply startswith_app. Qed.

(** A body that makes one request and then at most writes one file, at a
    place of its handler, and logs one line when it returns. *)
Section batch_trace.
Variable body : str -> prog unit.
Variable place : path -> Prop.
Variable media : str.
Hypothesis body_step : forall link w res w',
  body link w = (res, w') ->
  calls w' = S (calls w)
  /\ match res with
     | Ret _ =>
       exists dest content rd,
         place dest
         /\ fs w' = <[resolve dest := content]> (fs w)
         /\ logs w' = logs w ++ [LogLine media link dest rd]
     | Raise _ =>
       logs w' = logs w
       /\ (fs w' = fs w
           \/ exists dest content,
                place dest /\ fs w' = <[resolve dest := content]> (fs w))
     end.

Lemma batch_run_trace links w n errs w' :
  batch_run body links w n errs w' ->
  calls w' = (calls w + n + length errs)%nat
  /\ dom (fs w) ⊆ dom (fs w')
  /\ (forall p, fs w' !! p <> fs w !! p ->
                exists q, place q /\ p = resolve q)
  /\ exists new,
       logs w' = logs w ++ new
       /\ length new = n
       /\ Forall (fun l => log_media l = media
                           /\ In (log_link l) (map strip links)
                           /\ place (log_target l)) new.
Proof.
  induction 1 as [ w
                 | l links w n errs w' Hl _ IH
                 | l links w w1 n errs w' Hl Hb _ IH
                 | l links w w1 e n errs w' Hl Hb _ IH ].
  - split; [cbn [length]; lia|]. split; [reflexivity|]. split; [congruence|].
    exists []. rewrite app_nil_r. repeat split. constructor.
  - destruct IH as (Hc & Hd & Hf & new & Hlog & Hlen & Hall).
    split; [exact Hc|]. split; [exact Hd|]. split; [exact Hf|].
    exists new. split; [exact Hlog|]. split; [exact Hlen|].
    eapply Forall_impl; [exact Hall|].
    intros x (H1 & H2 & H3). split; [exact H1|]. split; [|exact H3].
    right. exact H2.
  - destruct (body_step _ _ _ _ Hb)
      as (Hc1 & dest & content & rd & Hp & Hfs & Hlg).
    destruct IH as (Hc & Hd & Hf & new & Hlog & Hlen & Hall).
    split; [cbn [length]; lia|].
    split;
      [etransitivity; [|exact Hd]; rewrite Hfs, dom_insert_L;
       apply union_subseteq_r|].
    split.
    + intros p Hp'. destruct (decide (p = resolve dest)) as [->|Hne];
        [exists dest; split; [exact Hp | reflexivity]|].
      apply Hf. rewrite Hfs, lookup_insert_ne by congruence. exact Hp'.
    + exists (LogLine media (strip l) dest rd :: new).
      split; [rewrite Hlog, Hlg, <- app_assoc; reflexivity|].
      split; [cbn [length]; lia|].
      constructor.
      * cbn. split; [reflexivity|]. split; [left; reflexivity | exact Hp].
      * eapply Forall_impl; [exact Hall|].
        intros x (H1 & H2 & H3). split; [exact H1|]. split; [|exact H3].
        right. exact H2.
  - destruct (body_step _ _ _ _ Hb) as (Hc1 & Hlg & Hfs).
    destruct IH as (Hc & Hd & Hf & new & Hlog & Hlen & Hall).
    split; [cbn [length]; lia|].
    split.
    { destruct Hfs as [Hfs | (dest & content & _ & Hfs)].
      - rewrite Hfs in Hd. exact Hd.
      - etransitivity; [|exact Hd]. rewrite Hfs, dom_insert_L.
        apply union_subseteq_r. }
    split.
    { intros p Hp'. destruct Hfs as [Hfs | (dest & content & Hp & Hfs)].
      - apply Hf. rewrite Hfs. exact Hp'.
      - destruct (decide (p = resolve dest)) as [->|Hne];
          [exists dest; split; [exact Hp | reflexivity]|].
        apply Hf. rewrite Hfs, lookup_insert_ne by congruence. exact Hp'. }
    exists new. split; [rewrite Hlog, Hlg; reflexivity|].
    split; [exact Hlen|].
    eapply Forall_impl; [exact Hall|].
    intros x (H1 & H2 & H3). split; [exact H1|]. split; [|exact H3].
    right. exact H2.
Qed.

End batch_trace.

Section batch_steps.
Context {E : Env}.

Lemma deliver_placed (place : path -> Prop) media link dest r w res w' :
  place dest ->
  deliver media link dest r (after_call w) = (res, w') ->
  calls w' = S (calls w)
  /\ match res with
     | Ret _ =>
       exists dest content rd,
         place dest
         /\ fs w' = <[resolve dest := content]> (fs w)
         /\ logs w' = logs w ++ [LogLine media link dest rd]
     | Raise _ =>
       logs w' = logs w
       /\ (fs w' = fs w
           \/ exists dest content,
                place dest /\ fs w' = <[resolve dest := content]> (fs w))
     end.
Proof.
  intros Hp Hdel. destruct (deliver_step _ _ _ _ _ _ _ Hdel) as [Hc Hres].
  split; [exact Hc|]. destruct res as [u|e].
  - destruct Hres as [Hfs Hlg]. exists dest. eexists _, _.
    split; [exact Hp|]. split; [exact Hfs | exact Hlg].
  - destruct Hres as [Hlg [Hfs | [content Hfs]]];
      (split; [exact Hlg|]); [left; exact Hfs | right].
    exists dest, content. split; [exact Hp | exact Hfs].
Qed.

Lemma movie_dest_place safe :
  mem slash safe = false -> movie_place (movie_dest safe).
Proof.
  intros Hs. exists safe. split; [exact Hs | apply movie_dest_parts, Hs].
Qed.

Lemma movie_link_step link w res w' :
  movie_link link w = (res, w') ->
  calls w' = S (calls w)
  /\ match res with
     | Ret _ =>
       exists dest content rd,
         movie_place dest
         /\ fs w' = <[resolve dest := content]> (fs w)
         /\ logs w' = logs w ++ [LogLine (py "movies") link dest rd]
     | Raise _ =>
       logs w' = logs w
       /\ (fs w' = fs w
           \/ exists dest content,
                movie_place dest
                /\ fs w' = <[resolve dest := content]> (fs w))
     end.
Proof.
  rewrite movie_link_cases.
  destruct (unrestrict_answer (calls w) link) as [r|e];
    [|intros [= <- <-]; split; [reflexivity|]; split;
      [reflexivity | left; reflexivity]].
  destruct (truthy_opt (direct r));
    [|intros [= <- <-]; split; [reflexivity|]; split;
      [reflexivity | left; reflexivity]].
  destruct (batch_candidate r link (py "unnamed")) as [cand|e];
    [|intros [= <- <-]; split; [reflexivity|]; split;
      [reflexivity | left; reflexivity]].
  apply deliver_placed, movie_dest_place, sanitize_name_no_slash.
Qed.

Lemma batch_final_name_segment show_name season files base_safe :
  mem slash base_safe = false ->
  segment (batch_final_name show_name season files base_safe).
Proof. intros Hb. apply episode_final_name_segment. exact Hb. Qed.

Lemma batch_final_name_strm show_name season files base_safe :
  ends_with (py ".strm")
    (batch_final_name show_name season files base_safe) = true.
Proof.
  unfold batch_final_name. destruct (re_search re_SddEdd base_safe).
  - apply ends_with_app.
  - rewrite !app_assoc. apply ends_with_app.
Qed.

Lemma batch_dest_place show_name season files base_safe :
  mem slash base_safe = false ->
  episode_place show_name season
    (joinpath (season_dir show_name season)
       (batch_final_name show_name season files base_safe)).
Proof.
  intros Hb. exists (batch_final_name show_name season files base_safe).
  split; [apply batch_final_name_strm|].
  split; [apply (batch_final_name_segment show_name season files), Hb|].
  apply joinpath_segment, batch_final_name_segment, Hb.
Qed.

Lemma episode_link_step show_name season link w res w' :
  episode_link show_name season link w = (res, w') ->
  calls w' = S (calls w)
  /\ match res with
     | Ret _ =>
       exists dest content rd,
         episode_place show_name season dest
         /\ fs w' = <[resolve dest := content]> (fs w)
         /\ logs w' = logs w ++ [LogLine (py "tv") link dest rd]
     | Raise _ =>
       logs w' = logs w
       /\ (fs w' = fs w
           \/ exists dest content,
                episode_place show_name season dest
                /\ fs w' = <[resolve dest := content]> (fs w))
     end.
Proof.
  rewrite episode_link_cases.
  destruct (unrestrict_answer (calls w) link) as [r|e];
    [|intros [= <- <-]; split; [reflexivity|]; split;
      [reflexivity | left; reflexivity]].
  destruct (truthy_opt (direct r));
    [|intros [= <- <-]; split; [reflexivity|]; split;
      [reflexivity | left; reflexivity]].
  destruct (batch_candidate r link (show_name ++ py "_ep")) as [cand|e];
    [|intros [= <- <-]; split; [reflexivity|]; split;
      [reflexivity | left; reflexivity]].
  apply deliver_placed, batch_dest_place, sanitize_name_no_slash.
Qed.

(** Where the places lie once the file system has walked them: below
    [movies] and in the season directory, unless the cleaned name is
    [..], which leads one directory up. *)
Lemma movie_dest_resolved safe :
  mem slash safe = false -> safe <> py ".." ->
  resolve (movie_dest safe)
  = resolve MEDIA_ROOT
    ++ py "movies" :: parse_parts safe ++ [safe ++ py ".strm"].
Proof.
  intros Hs Hne. rewrite (movie_dest_parts safe Hs), <- app_assoc.
  apply resolve_app_walked. cbn [app]. constructor; [split; discriminate|].
  apply Forall_app. split; [apply parse_parts_walked; assumption|].
  constructor; [apply strm_walked, ends_with_app | constructor].
Qed.

Lemma movie_dest_dotdot :
  resolve (movie_dest (py "..")) = resolve MEDIA_ROOT ++ [py "...strm"].
Proof.
  rewrite (movie_dest_parts (py "..")) by reflexivity.
  rewrite <- app_assoc.
  change ([py "movies"] ++ parse_parts (py "..") ++ [py ".." ++ py ".strm"])
    with (py "movies" :: py ".." :: [py "...strm"]).
  rewrite resolve_app_dotdot by (try split; try discriminate; reflexivity).
  apply resolve_app_walked. constructor; [split; discriminate | constructor].
Qed.

Lemma season_entry_resolved show_name season name :
  mem slash show_name = false -> show_name <> py ".." ->
  ends_with (py ".strm") name = true ->
  resolve (season_dir show_name season ++ [name])
  = resolve MEDIA_ROOT
    ++ py "tv" :: parse_parts show_name ++ [season_folder season; name].
Proof.
  intros Hs Hne Hn. rewrite (season_dir_parts show_name season Hs).
  rewrite <- !app_assoc.
  apply resolve_app_walked. cbn [app]. constructor; [split; discriminate|].
  apply Forall_app. split; [apply parse_parts_walked; assumption|].
  constructor; [apply season_folder_walked|].
  constructor; [apply strm_walked, Hn | constructor].
Qed.

Lemma season_entry_dotdot season name :
  ends_with (py ".strm") name = true ->
  resolve (season_dir (py "..") season ++ [name])
  = resolve MEDIA_ROOT ++ [season_folder season; name].
Proof.
  intros Hn. rewrite (season_dir_parts (py "..") season) by reflexivity.
  rewrite <- !app_assoc.
  change ([py "tv"] ++ parse_parts (py "..") ++ [season_folder season]
          ++ [name])
    with (py "tv" :: py ".." :: [season_folder season; name]).
  rewrite resolve_app_dotdot by (try split; try discriminate; reflexivity).
  apply resolve_app_walked.
  constructor; [apply season_folder_walked|].
  constructor; [apply strm_walked, Hn | constructor].
Qed.

End batch_steps.

(** X5.  A batch only adds to the media library.  No file is removed,
    and a file that is new or changed lies where the file system takes
    a place of the handler: [MEDIA_ROOT/movies/<safe>/<safe>.strm] (or
    [MEDIA_ROOT/movies/<safe>.strm] for an empty or one-dot [<safe>])
    for the movie handler, a [.strm] entry of the season directory for
    the episode handler.  These places lie below [movies] and below
    [tv] unless the cleaned name is [..]: then the movie descriptor is
    [MEDIA_ROOT/...strm] and the season directory
    [MEDIA_ROOT/Season NN], outside [movies] and [tv]. *)
Theorem batch_handlers_frame (E : Env) :
  (forall links w,
     let w' := snd (add_movie_links_from_list links w) in
     dom (fs w) ⊆ dom (fs w')
     /\ forall p, fs w' !! p <> fs w !! p ->
                  exists q, movie_place q /\ p = resolve q)
  /\ (forall show season links w,
     let w' := snd (add_episode_links_from_list show season links w) in
     dom (fs w) ⊆ dom (fs w')
     /\ forall p, fs w' !! p <> fs w !! p ->
                  exists q, episode_place (sanitize_name show) season q
                            /\ p = resolve q)
  /\ (forall safe,
        mem slash safe = false -> safe <> py ".." ->
        resolve (movie_dest safe)
        = resolve MEDIA_ROOT
          ++ py "movies" :: parse_parts safe ++ [safe ++ py ".strm"])
  /\ resolve (movie_dest (py "..")) = resolve MEDIA_ROOT ++ [py "...strm"]
  /\ (forall show_name season name,
        mem slash show_name = false -> show_name <> py ".." ->
        ends_with (py ".strm") name = true ->
        resolve (season_dir show_name season ++ [name])
        = resolve MEDIA_ROOT
          ++ py "tv" :: parse_parts show_name
          ++ [season_folder season; name])
  /\ (forall season name,
        ends_with (py ".strm") name = true ->
        resolve (season_dir (py "..") season ++ [name])
        = resolve MEDIA_ROOT ++ [season_folder season; name]).
Proof.
  split; [|split; [|split; [|split; [|split]]]].
  - intros links w. unfold add_movie_links_from_list.
    destruct (batch_loop_run movie_link links 0 [] w)
      as (n & errs & w' & -> & Hrun). cbn [snd].
    destruct (batch_run_trace movie_link movie_place (py "movies")
                movie_link_step _ _ _ _ _ Hrun) as (_ & Hd & Hf & _).
    split; assumption.
  - intros show season links w. rewrite add_episode_links_cases.
    destruct (os_mkdir _ _); cbn [snd]; [split; [reflexivity | congruence]|].
    destruct (batch_loop_run (episode_link (sanitize_name show) season)
                links 0 [] w) as (n & errs & w' & -> & Hrun). cbn [snd].
    destruct (batch_run_trace _ (episode_place (sanitize_name show) season)
                (py "tv") (episode_link_step _ _) _ _ _ _ _ Hrun)
      as (_ & Hd & Hf & _).
    split; assumption.
  - apply movie_dest_resolved.
  - apply movie_dest_dotdot.
  - apply season_entry_resolved.
  - apply season_entry_dotdot.
Qed.

(** X6.  The books of a batch balance.  Each link that is not blank
    costs one request to the service, whether it succeeds or not; the
    log only grows, by one line per written item and none per failed
    one; and each new line carries the media type of the handler, a
    link of the batch and a place the handler may write to.  An episode
    batch that raises, its season directory refused, has made no
    request and logged no line. *)
Theorem batch_handlers_accounting (E : Env) :
  (forall links w,
     let '((n, errs), w') := add_movie_links_from_list links w in
     calls w' = (calls w + n + length errs)%nat
     /\ exists new,
          logs w' = logs w ++ new /\ length new = n
          /\ Forall (fun l => log_media l = py "movies"
                              /\ In (log_link l) (map strip links)
                              /\ movie_place (log_target l)) new)
  /\ (forall show season links w,
     match add_episode_links_from_list show season links w with
     | (Ret (n, errs), w') =>
       calls w' = (calls w + n + length errs)%nat
       /\ exists new,
            logs w' = logs w ++ new /\ length new = n
            /\ Forall (fun l => log_media l = py "tv"
                                /\ In (log_link l) (map strip links)
                                /\ episode_place (sanitize_name show) season
                                     (log_target l)) new
     | (Raise _, w') => w' = w
     end).
Proof.
  split.
  - intros links w. unfold add_movie_links_from_list.
    destruct (batch_loop_run movie_link links 0 [] w)
      as (n & errs & w' & -> & Hrun). cbn [Nat.add app].
    destruct (batch_run_trace movie_link movie_place (py "movies")
                movie_link_step _ _ _ _ _ Hrun) as (Hc & _ & _ & Hlog).
    split; assumption.
  - intros show season links w. rewrite add_episode_links_cases.
    destruct (os_mkdir _ _); [reflexivity|].
    destruct (batch_loop_run (episode_link (sanitize_name show) season)
                links 0 [] w) as (n & errs & w' & -> & Hrun).
    cbn [Nat.add app fst snd].
    destruct (batch_run_trace _ (episode_place (sanitize_name show) season)
                (py "tv") (episode_link_step _ _) _ _ _ _ _ Hrun)
      as (Hc & _ & _ & Hlog).
    split; assumption.
Qed.

(** ** The count behind the episode index *)

Lemma child_of_below dir name : child_of dir (dir ++ [name]) = Some name.
Proof.
  induction dir as [|d dir IH]; [reflexivity|]. cbn [app child_of].
  unfold str_eqb. rewrite bool_decide_eq_true_2 by reflexivity. exact IH.
Qed.

(** The entry that a name makes in its directory. *)
Lemma child_of_resolved dir name :
  walked name -> child_of (resolve dir) (resolve (dir ++ [name])) = Some name.
Proof.
  intros Hn. rewrite resolve_app_walked by (constructor; [exact Hn | constructor]).
  apply child_of_below.
Qed.

Lemma elem_of_listdir dir files n :
  n ∈ listdir dir files
  <-> exists p, p ∈ dom files /\ child_of (resolve dir) p = Some n.
Proof.
  unfold listdir. rewrite elem_of_list_to_set, list_elem_of_omap.
  split; intros (p & Hp & Hc); exists p; split; auto;
    apply elem_of_elements; exact Hp.
Qed.

Lemma listdir_insert dir files p c :
  listdir dir (<[p := c]> files)
  = match child_of (resolve dir) p with
    | Some n => {[n]} ∪ listdir dir files
    | None => listdir dir files
    end.
Proof.
  apply set_eq. intros n. rewrite elem_of_listdir.
  setoid_rewrite dom_insert. split.
  - intros (q & Hq & Hc). apply elem_of_union in Hq. destruct Hq as [Hq | Hq].
    + apply elem_of_singleton in Hq. subst q. rewrite Hc.
      apply elem_of_union_l, elem_of_singleton. reflexivity.
    + assert (n ∈ listdir dir files) by (apply elem_of_listdir; eauto).
      destruct (child_of (resolve dir) p); [apply elem_of_union_r|];
        assumption.
  - intros Hn.
    assert (Hold : n ∈ listdir dir files ->
                   exists q, q ∈ {[p]} ∪ dom files
                             /\ child_of (resolve dir) q = Some n).
    { intros H. apply elem_of_listdir in H. destruct H as (q & Hq & Hc).
      exists q. split; [apply elem_of_union_r|]; assumption. }
    destruct (child_of (resolve dir) p) as [m|] eqn:Hc; [|auto].
    apply elem_of_union in Hn. destruct Hn as [Hn | Hn]; [|auto].
    apply elem_of_singleton in Hn. subst m.
    exists p. split; [apply elem_of_union_l, elem_of_singleton|]; auto.
Qed.

Lemma filter_length_perm {A} (f : A -> bool) (l l' : list A) :
  l ≡ₚ l' -> length (List.filter f l) = length (List.filter f l').
Proof.
  induction 1 as [|x l l' _ IH|x y l|l l' l'' _ IH1 _ IH2];
    cbn [List.filter]; [reflexivity | | | congruence].
  - destruct (f x); cbn [length]; congruence.
  - destruct (f x), (f y); reflexivity.
Qed.

(** The number of [.strm] entries of a directory, from which the
    batch handler takes the next episode index, grows by one when a
    write creates an entry [<name>.strm] of that directory and stays as
    it is when the write replaces an entry or lands elsewhere. *)
Lemma count_strm_after_write dir files p content :
  count_strm dir (<[p := content]> files)
  = match child_of (resolve dir) p with
    | Some n =>
      if ends_with (py ".strm") n && negb (bool_decide (n ∈ listdir dir files))
      then S (count_strm dir files)
      else count_strm dir files
    | None => count_strm dir files
    end.
Proof.
  unfold count_strm. rewrite listdir_insert.
  destruct (child_of (resolve dir) p) as [n|]; [|reflexivity].
  destruct (bool_decide (n ∈ listdir dir files)) eqn:Hin.
  - apply bool_decide_eq_true in Hin. rewrite andb_false_r.
    replace ({[n]} ∪ listdir dir files) with (listdir dir files)
      by (symmetry; apply subseteq_union_1_L, singleton_subseteq_l, Hin).
    reflexivity.
  - apply bool_decide_eq_false in Hin. rewrite andb_true_r.
    rewrite (filter_length_perm _ _ _ (elements_union_singleton _ _ Hin)).
    cbn [List.filter]. destruct (ends_with (py ".strm") n); reflexivity.
Qed.

(** The count after a descriptor was put into the directory. *)
Lemma count_strm_entry dir files name content :
  ends_with (py ".strm") name = true ->
  count_strm dir (<[resolve (dir ++ [name]) := content]> files)
  = if bool_decide (name ∈ listdir dir files)
    then count_strm dir files else S (count_strm dir files).
Proof.
  intros Hn. rewrite count_strm_after_write.
  rewrite (child_of_resolved dir name (strm_walked name Hn)), Hn.
  cbn [andb]. destruct (bool_decide _); reflexivity.
Qed.

Lemma take_while_digits_stop d c rest :
  forallb isdigit d = true -> isdigit c = false ->
  take_while_digits (d ++ c :: rest) = d.
Proof.
  intros Hd Hc. induction d as [|a d IH]; cbn [app take_while_digits].
  - rewrite Hc. reflexivity.
  - cbn [forallb] in Hd. apply andb_true_iff in Hd. destruct Hd as [-> Hd].
    rewrite (IH Hd). reflexivity.
Qed.

Lemma index_digits_generated base season idx :
  index_digits (base ++ py " - " ++ sxxexx season idx ++ py ".strm")
  = fmt02d idx \/ (idx < 0)%Z.
Proof.
  destruct (Z.ltb_spec idx 0) as [Hneg|Hpos]; [right; exact Hneg | left].
  unfold index_digits, sxxexx.
  replace (base ++ py " - " ++ (py "S" ++ fmt02d season ++ py "E" ++ fmt02d idx)
           ++ py ".strm")
    with ((base ++ py " - S" ++ fmt02d season) ++ "E"%char :: fmt02d idx
          ++ py ".strm")
    by (cbn [py list_ascii_of_string app]; rewrite <- !app_assoc; reflexivity).
  rewrite rev_app_distr. cbn [rev]. rewrite rev_app_distr.
  change (rev (py ".strm")) with (py "mrts.").
  rewrite <- !app_assoc. cbn [py list_ascii_of_string app drop].
  rewrite drop_0, take_while_digits_stop.
  - apply rev_involutive.
  - rewrite forallb_rev. unfold fmt02d.
    replace (idx <? 0)%Z with false by (symmetry; apply Z.ltb_ge; exact Hpos).
    destruct (_ <? 2)%nat; cbn [forallb]; rewrite decimal_digits; reflexivity.
  - reflexivity.
Qed.

(** Generated names with different indices are different names. *)
Lemma generated_names_differ base1 base2 season i j :
  (0 <= i)%Z -> (0 <= j)%Z -> i <> j ->
  base1 ++ py " - " ++ sxxexx season i ++ py ".strm"
  <> base2 ++ py " - " ++ sxxexx season j ++ py ".strm".
Proof.
  intros Hi Hj Hne Heq. apply Hne.
  destruct (index_digits_generated base1 season i) as [H1|H1]; [|lia].
  destruct (index_digits_generated base2 season j) as [H2|H2]; [|lia].
  rewrite Heq, H2 in H1. symmetry. apply fmt02d_inj; assumption.
Qed.

Section indices.
Context {E : Env}.

Lemma batch_final_name_unmarked show_name season files base_safe :
  ~ has_fixed_marker base_safe ->
  batch_final_name show_name season files base_safe
  = base_safe ++ py " - "
    ++ sxxexx season
         (Z.of_nat (count_strm (season_dir show_name season) files + 1))
    ++ py ".strm".
Proof.
  intros Hm. unfold batch_final_name.
  destruct (re_search re_SddEdd base_safe) eqn:Hs; [|reflexivity].
  exfalso. apply Hm, has_fixed_marker_search. rewrite Hs. eexists; reflexivity.
Qed.

End indices.

(** X7.  Two links of an episode batch whose base names hold no marker,
    answered by the service with a direct URL, the season directory
    made.  The first is delivered under the index [k + 1], [k] being the
    number of [.strm] entries of the season directory.  The index of the
    second follows what the first left there.  When the first descriptor
    was written as a new entry, the second goes under [k + 2] and
    another file name, even for the same base name, so that running a
    link again adds a descriptor instead of replacing one; this also
    holds when the log line of the first was refused and the item
    reported as failed.  When the first write replaced an entry, or was
    refused and left nothing, the second goes under [k + 1]. *)
Theorem unmarked_items_take_next_index (E : Env) show season l1 l2 w
    r1 r2 cand1 cand2 :
  let show_name := sanitize_name show in
  let dir := season_dir show_name season in
  let base1 := sanitize_name (strip_extension cand1) in
  let base2 := sanitize_name (strip_extension cand2) in
  let k := count_strm dir (fs w) in
  let name1 :=
    base1 ++ py " - " ++ sxxexx season (Z.of_nat (k + 1)) ++ py ".strm" in
  let k2 := if bool_decide (name1 ∈ listdir dir (fs w))
            then (k + 1)%nat else (k + 2)%nat in
  let name2 :=
    base2 ++ py " - " ++ sxxexx season (Z.of_nat k2) ++ py ".strm" in
  let again :=
    base2 ++ py " - " ++ sxxexx season (Z.of_nat (k + 1)) ++ py ".strm" in
  let content r := strip (default [] (direct r)) ++ [newline] in
  truthy (strip l1) = true -> truthy (strip l2) = true ->
  os_mkdir (calls w) dir = None ->
  unrestrict_answer (calls w) (strip l1) = Ret r1 ->
  truthy_opt (direct r1) = true ->
  batch_candidate r1 (strip l1) (show_name ++ py "_ep") = Ret cand1 ->
  unrestrict_answer (S (calls w)) (strip l2) = Ret r2 ->
  truthy_opt (direct r2) = true ->
  batch_candidate r2 (strip l2) (show_name ++ py "_ep") = Ret cand2 ->
  ~ has_fixed_marker base1 -> ~ has_fixed_marker base2 ->
  (carried_out (S (calls w)) (py "tv") (dir ++ [name1]) ->
   carried_out (S (S (calls w))) (py "tv") (dir ++ [name2]) ->
   exists w',
     add_episode_links_from_list show season [l1; l2] w
     = (Ret (2%nat, []), w')
     /\ fs w' = <[resolve (dir ++ [name2]) := content r2]>
                  (<[resolve (dir ++ [name1]) := content r1]> (fs w)))
  /\ (forall e,
        os_write (S (calls w)) (dir ++ [name1]) = Written ->
        os_append (S (calls w)) (py "tv") = Some e ->
        carried_out (S (S (calls w))) (py "tv") (dir ++ [name2]) ->
        exists w',
          add_episode_links_from_list show season [l1; l2] w
          = (Ret (1%nat, [(strip l1, exn_msg e)]), w')
          /\ fs w' = <[resolve (dir ++ [name2]) := content r2]>
                       (<[resolve (dir ++ [name1]) := content r1]> (fs w)))
  /\ (forall e,
        os_write (S (calls w)) (dir ++ [name1]) = WriteFailed e None ->
        carried_out (S (S (calls w))) (py "tv") (dir ++ [again]) ->
        exists w',
          add_episode_links_from_list show season [l1; l2] w
          = (Ret (1%nat, [(strip l1, exn_msg e)]), w')
          /\ fs w' = <[resolve (dir ++ [again]) := content r2]> (fs w))
  /\ (name1 ∉ listdir dir (fs w) ->
      name1 <> name2
      /\ resolve (dir ++ [name1]) <> resolve (dir ++ [name2])).
Proof.
  intros show_name dir base1 base2 k name1 k2 name2 again content
         Hl1 Hl2 Hmk Ha1 Hd1 Hc1 Ha2 Hd2 Hc2 Hm1 Hm2.
  assert (Hn1 : batch_final_name show_name season (fs w) base1 = name1)
    by (apply batch_final_name_unmarked; exact Hm1).
  assert (Hstrm1 : ends_with (py ".strm") name1 = true)
    by (rewrite <- Hn1; apply batch_final_name_strm).
  assert (Hfirst : episode_link show_name season (strip l1) w
                   = deliver (py "tv") (strip l1) (dir ++ [name1]) r1
                       (after_call w)).
  { rewrite (episode_link_delivers _ _ _ _ _ _ Ha1 Hd1 Hc1).
    fold base1 dir. rewrite Hn1, joinpath_segment; [reflexivity|].
    rewrite <- Hn1. apply batch_final_name_segment, sanitize_name_no_slash. }
  assert (Hsecond : forall w1 i,
            calls w1 = S (calls w) ->
            (count_strm dir (fs w1) + 1 = i)%nat ->
            episode_link show_name season (strip l2) w1
            = deliver (py "tv") (strip l2)
                (dir ++ [base2 ++ py " - " ++ sxxexx season (Z.of_nat i)
                         ++ py ".strm"]) r2 (after_call w1)).
  { intros w1 i Hc <-.
    rewrite (episode_link_delivers show_name season (strip l2) w1 r2 cand2)
      by (try rewrite Hc; assumption).
    fold base2 dir.
    rewrite joinpath_segment
      by apply batch_final_name_segment, sanitize_name_no_slash.
    rewrite batch_final_name_unmarked by exact Hm2. reflexivity. }
  assert (Hk2 : forall c,
            (count_strm dir (<[resolve (dir ++ [name1]) := c]> (fs w)) + 1
             = k2)%nat).
  { intros c. rewrite count_strm_entry by exact Hstrm1. subst k2. fold k.
    destruct (bool_decide _); lia. }
  assert (Hstart : add_episode_links_from_list show season [l1; l2] w
                   = let '(res, w') :=
                       batch_loop (episode_link show_name season) [l1; l2]
                         0 [] w in (Ret res, w')).
  { unfold add_episode_links_from_list. fold show_name dir.
    rewrite Hmk. reflexivity. }
  rewrite Hstart. cbn [batch_loop]. rewrite Hl1, Hl2. cbn [negb].
  rewrite Hfirst.
  split; [|split; [|split]].
  - intros Hio1 Hio2. rewrite (deliver_carried_out _ _ _ _ _ Hio1).
    set (w1 := after_write w (py "tv") (strip l1) (dir ++ [name1]) r1).
    rewrite (Hsecond w1 k2 eq_refl (Hk2 _)). fold name2.
    rewrite (deliver_carried_out (py "tv") (strip l2) _ r2 w1 Hio2).
    eexists. split; reflexivity.
  - intros e Hw Hlog Hio2. rewrite deliver_cases.
    cbn [after_call calls fs logs]. rewrite Hw, Hlog.
    set (w1 := {| fs := <[resolve (dir ++ [name1])
                          := strip (default [] (direct r1)) ++ [newline]]>
                          (fs w);
                  logs := logs w; calls := S (calls w) |}).
    rewrite (Hsecond w1 k2 eq_refl (Hk2 _)). fold name2.
    rewrite (deliver_carried_out (py "tv") (strip l2) _ r2 w1 Hio2).
    eexists. split; reflexivity.
  - intros e Hw Hio2. rewrite deliver_cases.
    cbn [after_call calls]. rewrite Hw.
    rewrite (Hsecond (after_call w) (k + 1)%nat eq_refl eq_refl). fold again.
    rewrite (deliver_carried_out (py "tv") (strip l2) _ r2 (after_call w) Hio2).
    eexists. split; reflexivity.
  - intros Hfresh.
    assert (Hne : name1 <> name2).
    { subst k2 name1 name2.
      rewrite bool_decide_eq_false_2 by exact Hfresh.
      apply generated_names_differ; lia. }
    split; [exact Hne|].
    rewrite !resolve_app_walked
      by (constructor; [apply strm_walked; first [exact Hstrm1
            | subst name2; rewrite !app_assoc; apply ends_with_app]
          | constructor]).
    intros Heq. apply app_inv_head in Heq. congruence.
Qed.

(** Twice the same link into an empty library: two descriptors, [E01]
    and [E02].  A first link whose file name is too long for the file
    system, then a second: the second takes [E01]. *)
Lemma unmarked_items_take_next_index_witness :
  let dir := parse_parts (py "/media/tv/Show/Season 02") in
  (exists w',
     @add_episode_links_from_list sample_env (py "Show") 2
       [py "host/pilot.mkv"; py "host/pilot.mkv"] empty_world
     = (Ret (2%nat, []), w')
     /\ fs w' = <[dir ++ [py "pilot - S02E02.strm"]
                  := py "https://cdn.example/d/pilot.mkv" ++ [newline]]>
                  (<[dir ++ [py "pilot - S02E01.strm"]
                     := py "https://cdn.example/d/pilot.mkv" ++ [newline]]> ∅))
  /\ (exists w',
     @add_episode_links_from_list sample_env (py "Show") 2
       [py "host/" ++ long_name ++ py ".mkv"; py "host/pilot.mkv"] empty_world
     = (Ret (1%nat,
             [(py "host/" ++ long_name ++ py ".mkv",
               py "[Errno 36] File name too long: '/media/tv/Show/Season 02/"
               ++ long_name ++ py " - S02E01.strm'")]), w')
     /\ fs w' = <[dir ++ [py "pilot - S02E01.strm"]
                  := py "https://cdn.example/d/pilot.mkv" ++ [newline]]> ∅)
  /\ py "pilot - S02E01.strm" <> py "pilot - S02E02.strm".
Proof.
  assert (Hno : ~ has_fixed_marker (py "pilot")).
  { intros Hm. apply has_fixed_marker_search in Hm.
    destruct Hm as [m Hm]. discriminate Hm. }
  assert (Hlong : ~ has_fixed_marker long_name).
  { intros Hm. apply has_fixed_marker_search in Hm.
    destruct Hm as [m Hm]. vm_compute in Hm. discriminate Hm. }
  destruct (unmarked_items_take_next_index sample_env (py "Show") 2
              (py "host/pilot.mkv") (py "host/pilot.mkv") empty_world
              (Resp (Some (py "pilot.mkv"))
                    (Some (py "https://cdn.example/d/pilot.mkv")))
              (Resp (Some (py "pilot.mkv"))
                    (Some (py "https://cdn.example/d/pilot.mkv")))
              (py "pilot.mkv") (py "pilot.mkv")
              eq_refl eq_refl eq_refl eq_refl eq_refl eq_refl eq_refl eq_refl
              eq_refl Hno Hno) as (Hboth & _ & _ & Hne).
  destruct (unmarked_items_take_next_index sample_env (py "Show") 2
              (py "host/" ++ long_name ++ py ".mkv") (py "host/pilot.mkv")
              empty_world
              (Resp (Some (long_name ++ py ".mkv"))
                    (Some (py "https://cdn.example/d/" ++ long_name
                           ++ py ".mkv")))
              (Resp (Some (py "pilot.mkv"))
                    (Some (py "https://cdn.example/d/pilot.mkv")))
              (long_name ++ py ".mkv") (py "pilot.mkv")
              eq_refl eq_refl eq_refl eq_refl eq_refl eq_refl eq_refl eq_refl
              eq_refl Hlong Hno) as (_ & _ & Hrefused & _).
  split; [|split].
  - apply Hboth; split; reflexivity.
  - apply (Hrefused _ eq_refl). split; reflexivity.
  - apply Hne. apply (bool_decide_unpack _). vm_compute. exact I.
Defined.

(** ** The log, written and read back *)

Lemma universal_newlines_id s : mem cr s = false -> universal_newlines s = s.
Proof.
  induction s as [|c s IH]; [reflexivity|]. rewrite mem_cons.
  intros H. apply orb_false_iff in H. destruct H as [Hc Hs].
  cbn [universal_newlines]. rewrite Ascii.eqb_sym, Hc, (IH Hs). reflexivity.
Qed.

Lemma lines_go_line body rest : forall cur,
  mem newline body = false ->
  lines_go cur (body ++ newline :: rest)
  = (rev cur ++ body ++ [newline]) :: lines_go [] rest.
Proof.
  induction body as [|c body IH]; intros cur Hb.
  - cbn [app lines_go]. rewrite Ascii.eqb_refl. cbn [rev]. reflexivity.
  - rewrite mem_cons in Hb. apply orb_false_iff in Hb. destruct Hb as [Hc Hb].
    cbn [app lines_go]. rewrite Ascii.eqb_sym, Hc, (IH _ Hb).
    cbn [rev]. rewrite <- !app_assoc. reflexivity.
Qed.

(** A file made of lines that each end with their only line feed and
    hold no carriage return reads back line by line. *)
Lemma file_lines_concat bodies :
  Forall (fun b => mem newline b = false /\ mem cr b = false) bodies ->
  file_lines (concat (map (fun b => b ++ [newline]) bodies))
  = map (fun b => b ++ [newline]) bodies.
Proof.
  intros Hall. unfold file_lines.
  rewrite universal_newlines_id.
  - induction Hall as [|b bodies [Hn _] _ IH]; [reflexivity|].
    cbn [map concat]. rewrite <- app_assoc. cbn [app].
    rewrite lines_go_line by exact Hn. cbn [rev app]. rewrite IH. reflexivity.
  - induction Hall as [|b bodies [_ Hc] _ IH]; [reflexivity|].
    cbn [map concat]. rewrite !mem_app, Hc, IH. reflexivity.
Qed.

Lemma split_go_sep c a b : forall cur,
  mem c a = false ->
  split_go [c] 0 cur (a ++ c :: b) = (rev cur ++ a) :: split_go [c] 0 [] b.
Proof.
  induction a as [|x a IH]; intros cur Ha.
  - cbn [app split_go startswith length Nat.sub].
    rewrite Ascii.eqb_refl. cbn [andb]. rewrite app_nil_r. reflexivity.
  - rewrite mem_cons in Ha. apply orb_false_iff in Ha. destruct Ha as [Hx Ha].
    cbn [app split_go startswith]. rewrite Hx. cbn [andb].
    rewrite (IH _ Ha). cbn [rev]. rewrite <- app_assoc. reflexivity.
Qed.

Lemma plain_app a b : plain (a ++ b) = plain a && plain b.
Proof. apply forallb_app. Qed.

Lemma plain_mem s c :
  plain s = true -> mem c ["|"%char; newline; cr] = true -> mem c s = false.
Proof.
  intros Hp Hc. destruct (mem c s) eqn:Hm; [|reflexivity].
  apply mem_In in Hm. unfold plain in Hp.
  rewrite forallb_forall in Hp. specialize (Hp c Hm).
  rewrite Hc in Hp. discriminate Hp.
Qed.

Lemma stamp_plain ts : stamp ts = true -> plain ts = true.
Proof.
  unfold stamp, plain. rewrite !forallb_forall. intros H c Hc.
  specialize (H c Hc). revert H.
  destruct c as [[] [] [] [] [] [] [] []]; vm_compute; congruence.
Qed.

Lemma stamp_not_space ts c : stamp ts = true -> In c ts -> isspace c = false.
Proof.
  unfold stamp. rewrite forallb_forall. intros H Hc. specialize (H c Hc).
  revert H. destruct c as [[] [] [] [] [] [] [] []]; vm_compute; congruence.
Qed.

Lemma strip_by_fixed p s :
  (forall c, In c s -> p c = false) -> strip_by p s = s.
Proof.
  intros H. apply strip_by_clean.
  - intros c t ->. apply H. left. reflexivity.
  - intros t c ->. apply H. apply in_or_app. right. left. reflexivity.
Qed.

(** A tagged part of a line: the tag stays, the white space around the
    whole goes. *)
Lemma rstrip_by_nil p s : forallb p s = true -> rstrip_by p s = [].
Proof.
  intros H. unfold rstrip_by.
  rewrite lstrip_by_nil by (rewrite forallb_rev; exact H). reflexivity.
Qed.

Lemma strip_tagged (tag x pad : str) :
  truthy tag = true ->
  lstrip_by isspace tag = tag -> rstrip_by isspace tag = tag ->
  forallb isspace pad = true ->
  strip (py " " ++ tag ++ x ++ pad) = tag ++ rstrip_by isspace x.
Proof.
  intros Ht Hl Hr Hpad. unfold strip.
  replace (tag ++ x ++ pad) with ((tag ++ x) ++ pad)
    by (rewrite <- app_assoc; reflexivity).
  rewrite strip_by_pad by (reflexivity || exact Hpad).
  unfold strip_by. rewrite lstrip_by_app.
  destruct (forallb isspace tag) eqn:Hall.
  { rewrite lstrip_by_nil in Hl by exact Hall. subst tag. discriminate Ht. }
  rewrite Hl, rstrip_by_app.
  destruct (forallb isspace x) eqn:Hx; [|reflexivity].
  rewrite Hr, (rstrip_by_nil _ _ Hx), app_nil_r. reflexivity.
Qed.

Lemma strip_rstrip s : strip (rstrip_by isspace s) = strip s.
Proof.
  destruct (rstrip_by_prefix isspace s) as (suf & Hs & Hsuf).
  rewrite Hs at 2. unfold strip.
  rewrite <- (strip_by_pad isspace [] (rstrip_by isspace s) suf eq_refl Hsuf).
  reflexivity.
Qed.

Lemma lower_stamp ts tag :
  stamp ts = true -> In "="%char tag ->
  startswith tag (lower (strip ts)) = false.
Proof.
  intros Hts Hin. destruct (startswith tag (lower (strip ts))) eqn:Hs;
    [|reflexivity].
  apply startswith_prefix in Hs. destruct Hs as [rest Hs].
  assert (Hl : In "="%char (lower (strip ts))).
  { rewrite Hs. apply in_or_app. left. exact Hin. }
  unfold lower in Hl. apply in_map_iff in Hl. destruct Hl as (c & Hc & Hin').
  apply strip_by_In in Hin'. unfold stamp in Hts.
  rewrite forallb_forall in Hts. specialize (Hts c Hin').
  revert Hc Hts. destruct c as [[] [] [] [] [] [] [] []]; vm_compute; congruence.
Qed.

Lemma lstrip_by_stop p a c rest :
  p c = false ->
  lstrip_by p (a ++ c :: rest) = lstrip_by p a ++ c :: rest.
Proof.
  intros Hc. rewrite lstrip_by_app.
  destruct (forallb p a) eqn:Ha.
  - rewrite (lstrip_by_nil _ _ Ha). cbn [lstrip_by app]. rewrite Hc.
    reflexivity.
  - reflexivity.
Qed.

Lemma rstrip_by_stop p a c rest :
  p c = false ->
  rstrip_by p (a ++ c :: rest) = a ++ c :: rstrip_by p rest.
Proof.
  intros Hc. change (c :: rest) with ([c] ++ rest).
  rewrite app_assoc, rstrip_by_app.
  destruct (forallb p rest) eqn:Hr.
  - rewrite (rstrip_by_nil _ _ Hr). unfold rstrip_by.
    rewrite rev_app_distr. cbn [rev app lstrip_by]. rewrite Hc.
    cbn [rev]. rewrite rev_involutive. reflexivity.
  - rewrite <- app_assoc. reflexivity.
Qed.

Lemma lstrip_by_idem p s : lstrip_by p (lstrip_by p s) = lstrip_by p s.
Proof.
  induction s as [|c s IH]; [reflexivity|]. cbn [lstrip_by].
  destruct (p c) eqn:Hc; [exact IH|]. cbn [lstrip_by]. rewrite Hc.
  reflexivity.
Qed.

Lemma lower_app a b : lower (a ++ b) = lower a ++ lower b.
Proof. apply map_app. Qed.

Lemma scan_tokens_log p0 rl rt rr :
  startswith (py "link=") (lower p0) = false ->
  startswith (py "target=") (lower p0) = false ->
  scan_tokens [p0; py "link=" ++ rl; py "target=" ++ rt;
               py "rd_filename=" ++ rr]
  = (Some (strip rl), Some (strip rt)).
Proof.
  intros H0 H1. unfold scan_tokens. cbn [fold_left]. rewrite H0, H1.
  rewrite !lower_app.
  change (lower (py "link=")) with (py "link=").
  change (lower (py "target=")) with (py "target=").
  change (lower (py "rd_filename=")) with (py "rd_filename=").
  rewrite !startswith_app.
  replace (startswith (py "link=") (py "target=" ++ lower rt))
    with false by reflexivity.
  replace (startswith (py "link=") (py "rd_filename=" ++ lower rr))
    with false by reflexivity.
  replace (startswith (py "target=") (py "rd_filename=" ++ lower rr))
    with false by reflexivity.
  reflexivity.
Qed.

Lemma plain_In s c : plain s = true -> In c s ->
  c <> "|"%char /\ c <> newline /\ c <> cr.
Proof.
  unfold plain. rewrite forallb_forall. intros H Hc. specialize (H c Hc).
  repeat split; intros ->; discriminate H.
Qed.

Lemma plain_sub s t :
  (forall c, In c t -> In c s) -> plain s = true -> plain t = true.
Proof.
  unfold plain. rewrite !forallb_forall. intros Hsub H c Hc.
  apply H, Hsub, Hc.
Qed.

Lemma plain_no_pipe s : plain s = true -> mem "|"%char s = false.
Proof. intros H. apply (plain_mem _ _ H). reflexivity. Qed.

Ltac flat :=
  repeat first [rewrite <- app_assoc
               | progress cbn [app py list_ascii_of_string]].

(** The line of [log_entry] without the white space around it. *)
Lemma log_text_strip ts media link target rd :
  strip (log_text ts (LogLine media link target rd))
  = lstrip_by isspace (ts ++ py " ") ++ "|"%char
    :: (py " link=" ++ link ++ py " ") ++ "|"%char
    :: (py " target=" ++ path_str target ++ py " ") ++ "|"%char
    :: py " rd_filename=" ++ rstrip_by isspace rd.
Proof.
  unfold log_text, strip, strip_by.
  cbn [log_link log_target log_rd_filename].
  set (tgt := path_str target).
  replace (ts ++ py " | link=" ++ link ++ py " | target=" ++ tgt
           ++ py " | rd_filename=" ++ rd ++ [newline])
    with ((ts ++ py " ") ++ "|"%char
          :: ((py " link=" ++ link ++ py " ") ++ "|"%char
          :: (py " target=" ++ tgt ++ py " ") ++ py "| rd_filename")
          ++ "="%char :: rd ++ [newline])
    by (flat; reflexivity).
  rewrite lstrip_by_stop by reflexivity.
  rewrite app_comm_cons, app_assoc, rstrip_by_stop by reflexivity.
  rewrite rstrip_by_all by reflexivity.
  flat. reflexivity.
Qed.

(** One line of [log_entry], read by [parse_log_entries]. *)
Lemma parse_line_log ts l :
  stamp ts = true -> loggable l = true ->
  parse_line (log_text ts l) = Some (entry_of (ts, l)).
Proof.
  intros Hts Hl. unfold loggable in Hl.
  apply andb_true_iff in Hl. destruct Hl as [Hl Hrd].
  apply andb_true_iff in Hl. destruct Hl as [Hl Htg].
  apply andb_true_iff in Hl. destruct Hl as [Hlk Htr].
  destruct l as [media link target rd]. cbn [log_link log_target
    log_rd_filename] in *.
  unfold entry_of. cbn [fst snd log_link log_target].
  unfold parse_line. rewrite log_text_strip.
  set (tgt := path_str target) in *.
  set (a0 := lstrip_by isspace (ts ++ py " ")).
  assert (Ha0 : mem "|"%char a0 = false).
  { apply plain_no_pipe.
    apply (plain_sub (ts ++ py " ")); [intros c; apply lstrip_by_In|].
    rewrite plain_app, (stamp_plain _ Hts). reflexivity. }
  assert (Hb : mem "|"%char (py " link=" ++ link ++ py " ") = false).
  { rewrite !mem_app, (plain_no_pipe _ Hlk). reflexivity. }
  assert (Hc : mem "|"%char (py " target=" ++ tgt ++ py " ") = false).
  { rewrite !mem_app, (plain_no_pipe _ Htg). reflexivity. }
  assert (Hd : mem "|"%char (py " rd_filename=" ++ rstrip_by isspace rd)
               = false).
  { rewrite mem_app. apply orb_false_iff. split; [reflexivity|].
    apply plain_no_pipe. apply (plain_sub rd); [|exact Hrd].
    intros c. apply rstrip_by_In. }
  set (raw := a0 ++ _).
  replace (truthy raw) with true by (subst raw; destruct a0; reflexivity).
  cbn [negb]. subst raw. unfold split_on. change (py "|") with ["|"%char].
  rewrite split_go_sep by exact Ha0.
  rewrite split_go_sep by exact Hb.
  rewrite split_go_sep by exact Hc.
  rewrite split_go_no_sep by exact Hd.
  cbn [rev app map].
  assert (H0 : strip a0 = strip ts).
  { unfold strip, strip_by, a0. rewrite lstrip_by_idem.
    change (rstrip_by isspace (lstrip_by isspace (ts ++ py " ")))
      with (strip_by isspace ([] ++ ts ++ py " ")).
    apply strip_by_pad; reflexivity. }
  rewrite H0.
  change (py " link=" ++ link ++ py " ")
    with (py " " ++ py "link=" ++ link ++ py " ").
  change (py " target=" ++ tgt ++ py " ")
    with (py " " ++ py "target=" ++ tgt ++ py " ").
  rewrite (strip_tagged (py "link=") link (py " ")) by reflexivity.
  rewrite (strip_tagged (py "target=") tgt (py " ")) by reflexivity.
  replace (py " rd_filename=" ++ rstrip_by isspace rd)
    with (py " " ++ py "rd_filename=" ++ rstrip_by isspace rd ++ [])
    by (rewrite app_nil_r; reflexivity).
  rewrite (strip_tagged (py "rd_filename=") _ []) by reflexivity.
  rewrite scan_tokens_log
    by (apply lower_stamp; [exact Hts | cbn; tauto]).
  rewrite !strip_rstrip. cbn [truthy_opt]. rewrite Htr. cbn [negb].
  rewrite app_nil_r. reflexivity.
Qed.

Lemma log_text_line ts l :
  stamp ts = true -> loggable l = true ->
  exists body,
    log_text ts l = body ++ [newline]
    /\ mem newline body = false /\ mem cr body = false.
Proof.
  intros Hts Hl. unfold loggable in Hl.
  apply andb_true_iff in Hl. destruct Hl as [Hl Hrd].
  apply andb_true_iff in Hl. destruct Hl as [Hl Htg].
  apply andb_true_iff in Hl. destruct Hl as [Hlk _].
  exists (ts ++ py " | link=" ++ log_link l ++ py " | target="
          ++ path_str (log_target l) ++ py " | rd_filename="
          ++ log_rd_filename l).
  split; [unfold log_text; rewrite <- !app_assoc; reflexivity|].
  split; rewrite !mem_app;
    rewrite (plain_mem ts) by (apply stamp_plain || reflexivity; exact Hts);
    rewrite (plain_mem (log_link l)) by (exact Hlk || reflexivity);
    rewrite (plain_mem (path_str (log_target l)))
      by (exact Htg || reflexivity);
    rewrite (plain_mem (log_rd_filename l)) by (exact Hrd || reflexivity);
    reflexivity.
Qed.

Lemma log_file_lines stamped :
  Forall (fun x => stamp (fst x) = true /\ loggable (snd x) = true) stamped ->
  file_lines (log_file stamped)
  = map (fun x => log_text (fst x) (snd x)) stamped.
Proof.
  intros Hall.
  assert (Hb : exists bodies,
            map (fun x => log_text (fst x) (snd x)) stamped
            = map (fun b => b ++ [newline]) bodies
            /\ Forall (fun b => mem newline b = false /\ mem cr b = false)
                      bodies).
  { induction Hall as [|x stamped [Hts Hl] _ IH].
    - exists []. split; [reflexivity | constructor].
    - destruct IH as (bodies & Heq & Hbs).
      destruct (log_text_line _ _ Hts Hl) as (body & Hbody & Hn & Hc).
      exists (body :: bodies). split.
      + cbn [map]. rewrite Hbody, Heq. reflexivity.
      + constructor; [split; assumption | exact Hbs]. }
  destruct Hb as (bodies & Heq & Hbs). unfold log_file.
  rewrite Heq. apply file_lines_concat, Hbs.
Qed.

Lemma log_entries_parsed (stamped : list (str * log_line)) :
  Forall (fun x => stamp (fst x) = true /\ loggable (snd x) = true) stamped ->
  parse_log_entries (Some (file_lines (log_file stamped)))
  = map entry_of stamped.
Proof.
  intros Hall. rewrite (log_file_lines _ Hall). unfold parse_log_entries.
  induction Hall as [|[ts l] stamped [Hts Hl] _ IH]; [reflexivity|].
  cbn [map fst snd] in *.
  change (omap parse_line (log_text ts l :: ?t)) with
    (match parse_line (log_text ts l) with
     | Some e => e :: omap parse_line t
     | None => omap parse_line t
     end).
  rewrite (parse_line_log _ _ Hts Hl), IH. reflexivity.
Qed.

Lemma loggable_link l : loggable l = true -> truthy (strip (log_link l)) = true.
Proof.
  unfold loggable. intros H.
  apply andb_true_iff in H. destruct H as [H _].
  apply andb_true_iff in H. destruct H as [H _].
  apply andb_true_iff in H. apply H.
Qed.

(** X8.  The log reads back.  A log file made of lines that [log_entry]
    wrote, for links, destinations and file names without a pipe or a
    line break, is parsed by [parse_log_entries] into one record per
    line, in order, whose link and target are the logged link and the
    text of the logged destination, without the white space around
    them; refreshing it as a movie log starts one job with the logged
    links in order. *)
Theorem log_read_back (stamped : list (str * log_line)) :
  Forall (fun x => stamp (fst x) = true /\ loggable (snd x) = true) stamped ->
  parse_log_entries (Some (file_lines (log_file stamped)))
  = map entry_of stamped
  /\ (stamped <> [] ->
      spawn_refresh_job_simple (py "movies")
        (Some (file_lines (log_file stamped)))
      = Ret [MoviesJob (map (fun x => strip (log_link (snd x))) stamped)]).
Proof.
  intros Hall. split; [apply log_entries_parsed, Hall|].
  intros Hne. unfold spawn_refresh_job_simple.
  rewrite (log_entries_parsed _ Hall).
  destruct stamped as [|x stamped]; [congruence|].
  cbn [map]. unfold str_eqb. rewrite bool_decide_eq_true_2 by reflexivity.
  assert (Hlinks : forall l,
            Forall (fun x => stamp (fst x) = true /\ loggable (snd x) = true)
                   l ->
            omap (fun e => if truthy_opt (e_link e) then e_link e else None)
                 (map entry_of l)
            = map (fun x => strip (log_link (snd x))) l).
  { intros l Hl. induction Hl as [|y l [_ Hy] _ IH]; [reflexivity|].
    cbn [map].
    change (omap ?f (entry_of y :: ?t)) with
      (match f (entry_of y) with
       | Some e => e :: omap f t
       | None => omap f t
       end).
    cbn [entry_of e_link truthy_opt]. rewrite (loggable_link _ Hy), IH.
    reflexivity. }
  change (entry_of x :: map entry_of stamped) with (map entry_of (x :: stamped)).
  rewrite (Hlinks _ Hall). reflexivity.
Qed.

Lemma log_read_back_witness :
  parse_log_entries (Some (file_lines (log_file sample_stamped)))
  = map entry_of sample_stamped
  /\ spawn_refresh_job_simple (py "movies")
       (Some (file_lines (log_file sample_stamped)))
     = Ret [MoviesJob [py "https://host/f?id=1"; py "https://host/f?id=2"]].
Proof.
  destruct (log_read_back sample_stamped) as [Hparse Hjob].
  - repeat (constructor || split); reflexivity.
  - split; [exact Hparse|]. apply Hjob. discriminate.
Defined.

(** ** From a destination back to the show and the season *)

Lemma split_on_join segs :
  segs <> [] -> Forall (fun s => mem slash s = false) segs ->
  split_on [slash] (py_join [slash] segs) = segs.
Proof.
  intros Hne Hall. unfold split_on.
  induction Hall as [|s segs Hs Hall IH]; [congruence|].
  destruct segs as [|s' segs].
  - cbn [py_join]. rewrite split_go_no_sep by exact Hs. reflexivity.
  - change (py_join [slash] (s :: s' :: segs))
      with (s ++ slash :: py_join [slash] (s' :: segs)).
    rewrite split_go_sep by exact Hs. cbn [rev app].
    rewrite IH by congruence. reflexivity.
Qed.

Lemma py_join_head segs s c t :
  s = c :: t -> exists rest, py_join [slash] (s :: segs) = c :: rest.
Proof.
  intros ->. destruct segs; cbn [py_join app]; eexists; reflexivity.
Qed.

Lemma parse_parts_rooted j c rest :
  j = c :: rest -> Ascii.eqb slash c = false ->
  parse_parts (slash :: j)
  = py "/" :: List.filter (fun x => truthy x && negb (str_eqb x (py ".")))
                          (split_on [slash] j).
Proof.
  intros -> Hc. unfold parse_parts. cbn [lstrip_by].
  rewrite Ascii.eqb_refl, Hc. cbn [length].
  replace (S (S (length rest)) - S (length rest))%nat with 1%nat by lia.
  reflexivity.
Qed.

(** The text of an absolute path parses back to the path. *)
Lemma parse_parts_path_str segs :
  Forall segment segs ->
  parse_parts (path_str (py "/" :: segs)) = py "/" :: segs.
Proof.
  intros Hall. unfold path_str.
  change (startswith [slash] (py "/")) with true. cbn iota.
  destruct segs as [|s segs]; [reflexivity|].
  assert (Hs : segment s) by (inversion Hall; assumption).
  destruct Hs as (Ht & _ & Hsl).
  destruct s as [|c t]; [discriminate Ht|].
  destruct (py_join_head segs (c :: t) c t eq_refl) as [rest Hj].
  assert (Hc : Ascii.eqb slash c = false).
  { rewrite mem_cons in Hsl. apply orb_false_iff in Hsl. apply Hsl. }
  etransitivity; [exact (parse_parts_rooted _ c rest Hj Hc)|].
  f_equal.
  etransitivity; [apply f_equal, split_on_join|].
  - congruence.
  - eapply Forall_impl; [exact Hall|]. intros x Hx. apply Hx.
  - apply filter_all. intros x Hx.
    rewrite Forall_forall in Hall.
    destruct (Hall x (proj2 (list_elem_of_In _ _) Hx)) as (Hxt & Hxd & _).
    rewrite Hxt. unfold str_eqb.
    rewrite bool_decide_eq_false_2 by exact Hxd. reflexivity.
Qed.

Lemma segments_abs segs :
  Forall segment segs -> segments (path_str (py "/" :: segs)) = segs.
Proof.
  intros Hall. unfold segments. rewrite (parse_parts_path_str _ Hall).
  cbn [List.filter truthy py list_ascii_of_string andb negb].
  unfold str_eqb at 1. rewrite bool_decide_eq_true_2 by reflexivity.
  cbn [negb]. apply filter_all. intros x Hx.
  rewrite Forall_forall in Hall.
  destruct (Hall x (proj2 (list_elem_of_In _ _) Hx)) as (Hxt & _ & Hsl).
  rewrite Hxt. unfold str_eqb. rewrite bool_decide_eq_false_2; [reflexivity|].
  intros ->. discriminate Hsl.
Qed.

Lemma first_digit_run_range s z :
  first_digit_run s = Some z -> (0 <= z <= 99)%Z.
Proof.
  assert (Hd : forall c, isdigit c = true -> (0 <= digit_value c <= 9)%Z).
  { intros c. destruct c as [[] [] [] [] [] [] [] []]; vm_compute;
      intuition congruence. }
  induction s as [|c s IH]; [discriminate|]. cbn [first_digit_run].
  destruct (isdigit c) eqn:Hc; [|exact IH].
  pose proof (Hd c Hc).
  destruct s as [|d s]; [intros [= <-]; lia|].
  destruct (isdigit d) eqn:Hdd; intros [= <-]; [|lia].
  pose proof (Hd d Hdd). lia.
Qed.

Lemma season_folder_read_back z :
  (0 <= z <= 99)%Z -> first_digit_run (season_folder z) = Some z.
Proof.
  intros Hz.
  assert (Hall : forallb
            (fun n => bool_decide
               (first_digit_run (season_folder (Z.of_nat n))
                = Some (Z.of_nat n)))
            (seq 0 100) = true) by (vm_compute; reflexivity).
  rewrite forallb_forall in Hall.
  specialize (Hall (Z.to_nat z)).
  rewrite Z2Nat.id in Hall by lia.
  apply bool_decide_eq_true in Hall; [exact Hall|].
  apply in_seq. lia.
Qed.

Lemma ends_with_split suffix s :
  ends_with suffix s = true -> exists pre, s = pre ++ suffix.
Proof.
  unfold ends_with. intros H. apply startswith_prefix in H.
  destruct H as [rest H]. exists (rev rest).
  rewrite <- (rev_involutive s), H, rev_app_distr, rev_involutive.
  reflexivity.
Qed.

Lemma py_join_snoc sep l x :
  exists pre, py_join sep (l ++ [x]) = pre ++ x.
Proof.
  induction l as [|a l [pre IH]]; [exists []; reflexivity|].
  destruct l as [|b l].
  - exists (a ++ sep). cbn [app py_join]. rewrite <- app_assoc. reflexivity.
  - exists (a ++ sep ++ pre).
    change (py_join sep ((a :: b :: l) ++ [x]))
      with (a ++ sep ++ py_join sep ((b :: l) ++ [x])).
    rewrite IH, <- !app_assoc. reflexivity.
Qed.

Section read_back.
Context {E : Env}.

(** The parts of a destination in a season directory. *)
Lemma episode_place_parts show_name season p :
  plain_root -> segment show_name -> episode_place show_name season p ->
  exists segs name,
    p = py "/" :: (segs ++ [py "tv"; show_name; season_folder season; name])
    /\ Forall segment (segs ++ [py "tv"; show_name; season_folder season;
                                name])
    /\ (forall x, In x segs -> lower x <> py "tv")
    /\ ends_with (py ".strm") name = true.
Proof.
  intros (segs & Hroot & Hsegs) Hshow (name & Hstrm & Hsl & ->).
  exists segs, name.
  assert (Htv : segment (py "tv")) by (repeat split; discriminate).
  split.
  - rewrite season_dir_snoc.
    rewrite (joinpath_segment _ _ Htv), (joinpath_segment _ _ Hshow), Hroot.
    cbn [app]. rewrite <- !app_assoc. reflexivity.
  - split; [|split; [|exact Hstrm]].
    + apply Forall_app. split.
      * eapply Forall_impl; [exact Hsegs|]. intros x Hx. apply Hx.
      * constructor; [exact Htv|]. constructor; [exact Hshow|].
        constructor; [apply season_folder_segment|].
        constructor; [|constructor].
        destruct (ends_with_split _ _ Hstrm) as [pre Hpre].
        split; [|split; [|exact Hsl]].
        -- rewrite Hpre. destruct pre; reflexivity.
        -- rewrite Hpre. destruct pre as [|a [|b pre]]; discriminate.
    + intros x Hx. rewrite Forall_forall in Hsegs.
      apply (Hsegs x). apply list_elem_of_In. exact Hx.
Qed.

Lemma episode_place_text show_name season p :
  plain_root -> segment show_name -> episode_place show_name season p ->
  strip (path_str p) = path_str p
  /\ truthy (path_str p) = true
  /\ infer_show_and_season_from_target (path_str p)
     = Ret (Some show_name, first_digit_run (season_folder season)).
Proof.
  intros Hroot Hshow Hp.
  destruct (episode_place_parts _ _ _ Hroot Hshow Hp)
    as (segs & name & -> & Hall & Htv & Hstrm).
  split; [|split].
  - destruct (ends_with_split _ _ Hstrm) as [n0 Hn0].
    unfold path_str. change (startswith [slash] (py "/")) with true.
    cbn iota.
    replace (segs ++ [py "tv"; show_name; season_folder season; name])
      with ((segs ++ [py "tv"; show_name; season_folder season]) ++ [name])
      by (rewrite <- app_assoc; reflexivity).
    destruct (py_join_snoc [slash]
                (segs ++ [py "tv"; show_name; season_folder season]) name)
      as [pre ->].
    rewrite Hn0. unfold strip. apply strip_by_clean.
    + intros c t Heq. injection Heq as <- _. reflexivity.
    + intros t c Heq.
      replace (py "/" ++ pre ++ n0 ++ py ".strm")
        with ((py "/" ++ pre ++ n0 ++ py ".str") ++ ["m"%char]) in Heq
        by (rewrite <- !app_assoc; reflexivity).
      apply app_inj_tail in Heq. destruct Heq as [_ <-]. reflexivity.
  - reflexivity.
  - rewrite (infer_target_tv _ segs (py "tv")
               [show_name; season_folder season; name]).
    + reflexivity.
    + apply segments_abs. exact Hall.
    + reflexivity.
    + exact Htv.
Qed.

End read_back.

(** X9.  The inference reads a written destination back.  From the
    text of a [.strm] destination directly in the season directory of a
    show, under an absolute media root without a segment [tv],
    [infer_show_and_season_from_target] returns the show name of the
    directory; the season it returns is the season of the directory
    exactly when that season lies between 0 and 99. *)
Theorem written_target_read_back (E : Env) show_name season p :
  plain_root -> segment show_name -> episode_place show_name season p ->
  exists found,
    infer_show_and_season_from_target (path_str p)
    = Ret (Some show_name, Some found)
    /\ (found = season <-> (0 <= season <= 99)%Z).
Proof.
  intros Hroot Hshow Hp.
  destruct (episode_place_text _ _ _ Hroot Hshow Hp) as (_ & _ & Hinf).
  destruct (first_digit_run (season_folder season)) as [found|] eqn:Hrun.
  - exists found. split; [exact Hinf|]. split.
    + intros ->. apply (first_digit_run_range _ _ Hrun).
    + intros Hz. rewrite (season_folder_read_back _ Hz) in Hrun.
      congruence.
  - exfalso. revert Hrun. unfold season_folder, fmt02d.
    assert (Hdig : forall d pre, truthy d = true -> forallb isdigit d = true ->
              first_digit_run (pre ++ d) <> None).
    { intros d pre Hd Hall. induction pre as [|c pre IH].
      - destruct d as [|a d]; [discriminate|]. cbn [app first_digit_run].
        cbn [forallb] in Hall. apply andb_true_iff in Hall.
        destruct Hall as [-> _]. destruct d as [|b d]; [discriminate|].
        destruct (isdigit b); discriminate.
      - cbn [app first_digit_run]. destruct (isdigit c); [|exact IH].
        destruct (pre ++ d) as [|b r]; [discriminate|].
        destruct (isdigit b); discriminate. }
    destruct (season <? 0)%Z.
    + replace (py "Season " ++ "-"%char :: decimal (Z.to_N (- season)))
        with (py "Season -" ++ decimal (Z.to_N (- season)))
        by reflexivity.
      apply Hdig; [apply decimal_truthy | apply decimal_digits].
    + destruct (_ <? 2)%nat.
      * replace (py "Season " ++ "0"%char :: decimal (Z.to_N season))
          with (py "Season 0" ++ decimal (Z.to_N season)) by reflexivity.
        apply Hdig; [apply decimal_truthy | apply decimal_digits].
      * apply Hdig; [apply decimal_truthy | apply decimal_digits].
Qed.

Lemma sample_plain_root : @plain_root sample_env.
Proof.
  exists [py "media"]. split; [reflexivity|].
  constructor; [|constructor].
  split; [|split; [reflexivity | discriminate]].
  split; [reflexivity | split; [discriminate | reflexivity]].
Defined.

Lemma sample_place name :
  ends_with (py ".strm") name = true -> mem slash name = false ->
  @episode_place sample_env (py "Show") 2
    (parse_parts (py "/media/tv/Show/Season 02") ++ [name]).
Proof.
  intros Hs Hm. exists name. split; [exact Hs|]. split; [exact Hm|].
  reflexivity.
Defined.

Lemma written_target_read_back_witness :
  exists found,
    infer_show_and_season_from_target
      (py "/media/tv/Show/Season 02/pilot - S02E01.strm")
    = Ret (Some (py "Show"), Some found)
    /\ (found = 2%Z <-> (0 <= 2 <= 99)%Z).
Proof.
  apply (written_target_read_back sample_env (py "Show") 2
           (parse_parts (py "/media/tv/Show/Season 02")
            ++ [py "pilot - S02E01.strm"])).
  - exact sample_plain_root.
  - split; [reflexivity | split; [discriminate | reflexivity]].
  - apply sample_place; reflexivity.
Defined.

(** ** Refreshing the log of a season *)

Lemma single_group (k0 : str * Z) (links : list str)
    (groups : list ((str * Z) * list str)) :
  NoDup (map fst groups) ->
  Forall (fun g => snd g <> []) groups ->
  (forall k, links_under k groups = if bool_decide (k = k0) then links else [])
  -> links <> [] ->
  groups = [(k0, links)].
Proof.
  intros Hnd Hne Hu Hl.
  destruct groups as [|[k l] rest].
  - specialize (Hu k0). cbn [links_under] in Hu.
    rewrite bool_decide_eq_true_2 in Hu by reflexivity. congruence.
  - assert (Hl0 : l <> []) by (inversion Hne; assumption).
    pose proof (Hu k) as Hk. cbn [links_under] in Hk.
    rewrite bool_decide_eq_true_2 in Hk by reflexivity.
    destruct (bool_decide (k = k0)) eqn:Hkk; [|congruence].
    apply bool_decide_eq_true in Hkk. subst k l.
    destruct rest as [|[k' l'] rest]; [reflexivity|]. exfalso.
    assert (Hk' : k' <> k0).
    { cbn [map fst] in Hnd. apply NoDup_cons in Hnd.
      destruct Hnd as [Hnotin _]. intros ->. apply Hnotin. left. }
    pose proof (Hu k') as Hq. cbn [links_under] in Hq.
    rewrite (bool_decide_eq_false_2 (k0 = k')) in Hq by congruence.
    rewrite bool_decide_eq_true_2 in Hq by reflexivity.
    rewrite (bool_decide_eq_false_2 (k' = k0)) in Hq by exact Hk'.
    inversion Hne as [|? ? _ Hrest]. inversion Hrest as [|? ? Hl' _].
    apply Hl'. exact Hq.
Qed.

(** X10.  Refreshing the log of a season regroups it.  Take a media
    root that is an absolute path, whose segments hold no pipe and no
    line break and none of which reads [tv] in any letter case; a show
    name that is a proper segment (not empty, not a single dot, without
    a slash); a season between 1 and 99; and a tv log that is not empty,
    each line as [log_entry] writes it, with a time stamp of digits and
    the characters [-:T.+], with a link, a destination and a file name
    that hold no pipe and no line break, with a link that is not blank,
    and with a destination that is a [.strm] entry directly in the
    season directory of that show.  Refreshing that log starts exactly
    one job: for that show and that season, with the logged links,
    stripped, in the order of the log. *)
Theorem refresh_regroups_season (E : Env) show_name season
    (stamped : list (str * log_line)) :
  plain_root -> segment show_name -> (1 <= season <= 99)%Z ->
  stamped <> [] ->
  Forall (fun x => stamp (fst x) = true /\ loggable (snd x) = true
                   /\ episode_place show_name season (log_target (snd x)))
         stamped ->
  spawn_refresh_job_simple (py "tv") (Some (file_lines (log_file stamped)))
  = Ret [TvJob show_name season
           (map (fun x => strip (log_link (snd x))) stamped)].
Proof.
  intros Hroot Hshow Hseason Hne Hall.
  assert (Hlog : Forall (fun x => stamp (fst x) = true
                                  /\ loggable (snd x) = true) stamped).
  { eapply Forall_impl; [exact Hall|]. intros x (H1 & H2 & _). auto. }
  assert (Hparsed := log_entries_parsed _ Hlog).
  destruct (tv_jobs_partition (py "tv") (file_lines (log_file stamped)))
    as (groups & Hjobs & Hnd & Hnonempty & Hunder).
  - discriminate.
  - rewrite Hparsed. destruct stamped; [congruence | discriminate].
  - rewrite Hjobs. rewrite Hparsed in Hunder.
    assert (Hkeyed : forall k,
              links_keyed k (map entry_of stamped)
              = if bool_decide (k = (show_name, season))
                then map (fun x => strip (log_link (snd x))) stamped
                else []).
    { intros k. clear Hne Hparsed Hunder Hjobs Hlog.
      induction Hall as [|x stamped (_ & Hx & Hplace) _ IH].
      - cbn [map]. destruct (bool_decide _); reflexivity.
      - cbn [map]. rewrite links_keyed_cons, IH.
        cbn [entry_of e_link truthy_opt default from_option id].
        rewrite (loggable_link _ Hx). cbn [andb].
        assert (Hkey : key_of (entry_of x) = (show_name, season)).
        { unfold key_of. cbn [entry_of e_link e_target default from_option id].
          destruct (episode_place_text _ _ _ Hroot Hshow Hplace)
            as (Hstrip & Htruthy & Hinf).
          rewrite Hstrip.
          rewrite (season_folder_read_back season) in Hinf by lia.
          rewrite (group_key_of_target _ _ show_name (Some season)
                     Htruthy Hinf (proj1 Hshow)).
          cbn [truthy_int default from_option id].
          replace (season =? 0)%Z with false
            by (symmetry; apply Z.eqb_neq; lia).
          reflexivity. }
        rewrite Hkey.
        destruct (bool_decide (k = (show_name, season))) eqn:Hk.
        + apply bool_decide_eq_true in Hk. subst k.
          rewrite bool_decide_eq_true_2 by reflexivity. reflexivity.
        + apply bool_decide_eq_false in Hk.
          rewrite bool_decide_eq_false_2 by congruence. reflexivity. }
    rewrite (single_group (show_name, season)
               (map (fun x => strip (log_link (snd x))) stamped) groups
               Hnd Hnonempty).
    + reflexivity.
    + intros k. rewrite Hunder. apply Hkeyed.
    + destruct stamped; [congruence | discriminate].
Qed.

Lemma refresh_regroups_season_witness :
  spawn_refresh_job_simple (py "tv")
    (Some (file_lines (log_file sample_stamped)))
  = Ret [TvJob (py "Show") 2
           [py "https://host/f?id=1"; py "https://host/f?id=2"]].
Proof.
  apply (refresh_regroups_season sample_env (py "Show") 2 sample_stamped).
  - exact sample_plain_root.
  - split; [reflexivity | split; [discriminate | reflexivity]].
  - lia.
  - discriminate.
  - constructor; [|constructor; [|constructor]].
    + split; [reflexivity | split; [reflexivity|]].
      apply (sample_place (py "pilot - S02E01.strm")); reflexivity.
    + split; [reflexivity | split; [reflexivity|]].
      apply (sample_place (py "Show.S02E02.strm")); reflexivity.
Defined.

(** ** The lines handed to the batch handlers *)

Lemma strip_idem s : strip (strip s) = strip s.
Proof. apply strip_by_idem. Qed.

Lemma batch_loop_clean_lines body links : forall written errors w,
  batch_loop body (clean_lines links) written errors w
  = batch_loop body links written errors w.
Proof.
  unfold clean_lines.
  induction links as [|l links IH]; intros written errors w; [reflexivity|].
  cbn [List.filter batch_loop].
  destruct (truthy (strip l)) eqn:Hl; cbn [negb]; [|apply IH].
  cbn [map batch_loop]. rewrite strip_idem, Hl. cbn [negb].
  destruct (body (strip l) w) as [[u|e] w']; apply IH.
Qed.

(** X11.  Cleaning the lines changes nothing for the batch handlers.
    They strip each line and skip the blank ones themselves, so they do
    the same to the lines as [main] cleans them and to the raw lines:
    the same requests, files, log lines, count and errors. *)
Theorem batch_handlers_clean_lines (E : Env) :
  (forall links w,
     add_movie_links_from_list (clean_lines links) w
     = add_movie_links_from_list links w)
  /\ (forall show season links w,
     add_episode_links_from_list show season (clean_lines links) w
     = add_episode_links_from_list show season links w).
Proof.
  split; [intros; apply batch_loop_clean_lines|].
  intros show season links w. unfold add_episode_links_from_list.
  rewrite batch_loop_clean_lines. reflexivity.
Qed.

Lemma is_break_space c : is_break c = true -> isspace c = true.
Proof.
  destruct c as [[] [] [] [] [] [] [] []]; vm_compute; congruence.
Qed.

Lemma strip_nil_iff s : strip s = [] <-> forallb isspace s = true.
Proof.
  split.
  - intros H. destruct (lstrip_by_suffix isspace s) as (pre & Hs & Hpre).
    unfold strip, strip_by in H.
    destruct (rstrip_by_prefix isspace (lstrip_by isspace s))
      as (suf & Hsuf & Hall).
    rewrite H in Hsuf. cbn [app] in Hsuf.
    rewrite Hs, Hsuf, forallb_app, Hpre, Hall. reflexivity.
  - intros H. unfold strip, strip_by.
    rewrite (lstrip_by_nil _ _ H). reflexivity.
Qed.

Lemma truthy_strip s : truthy (strip s) = negb (forallb isspace s).
Proof.
  destruct (forallb isspace s) eqn:H.
  - apply strip_nil_iff in H. rewrite H. reflexivity.
  - destruct (strip s) eqn:Hs; [|reflexivity].
    apply strip_nil_iff in Hs. congruence.
Qed.

(** The pieces of [splitlines] are blank exactly when the text is. *)
Lemma splitlines_go_blank n : forall s cur,
  (length s <= n)%nat ->
  forallb (fun ln => forallb isspace ln) (splitlines_go cur s)
  = forallb isspace cur && forallb isspace s.
Proof.
  induction n as [|n IH]; intros s cur Hn.
  - destruct s; [|cbn [length] in Hn; lia].
    cbn [splitlines_go]. destruct cur as [|c cur]; [reflexivity|].
    cbn [truthy forallb]. rewrite forallb_rev, !andb_true_r. reflexivity.
  - destruct s as [|c s].
    + cbn [splitlines_go]. destruct cur as [|c cur]; [reflexivity|].
      cbn [truthy forallb]. rewrite forallb_rev, !andb_true_r. reflexivity.
    + cbn [length] in Hn. cbn [splitlines_go].
      destruct (Ascii.eqb c cr) eqn:Hcr.
      * apply Ascii.eqb_eq in Hcr. subst c.
        destruct s as [|d s].
        -- cbn [forallb]. rewrite forallb_rev, !andb_true_r. reflexivity.
        -- destruct (Ascii.eqb d newline) eqn:Hnl.
           ++ apply Ascii.eqb_eq in Hnl. subst d.
              cbn [forallb]. cbn [length] in Hn.
              rewrite forallb_rev, (IH s []) by lia. reflexivity.
           ++ cbn [forallb].
              rewrite forallb_rev, (IH (d :: s) []) by lia. reflexivity.
      * destruct (is_break c) eqn:Hb.
        -- cbn [forallb]. rewrite forallb_rev, (IH s []) by lia.
           rewrite (is_break_space _ Hb). reflexivity.
        -- rewrite (IH s (c :: cur)) by lia. cbn [forallb].
           destruct (isspace c), (forallb isspace cur); reflexivity.
Qed.

Lemma clean_lines_nil lines :
  clean_lines lines = []
  <-> forallb (fun ln => forallb isspace ln) lines = true.
Proof.
  unfold clean_lines. induction lines as [|l lines IH]; [tauto|].
  cbn [List.filter forallb]. rewrite truthy_strip.
  destruct (forallb isspace l); cbn [negb andb map].
  - exact IH.
  - split; discriminate.
Qed.

(** X12.  The check of the routes is exact.  The routes [add_movie] and
    [add_episode] refuse a text that is empty once stripped; that is
    the case exactly when [main], splitting the text into lines and
    dropping the blank ones, is left with no link. *)
Theorem links_of_text_empty text :
  links_of_text text = [] <-> truthy (strip text) = false.
Proof.
  unfold links_of_text, splitlines.
  rewrite clean_lines_nil, (splitlines_go_blank (length text)) by lia.
  rewrite truthy_strip. cbn [forallb andb].
  destruct (forallb isspace text); cbn [negb]; split; congruence.
Qed.

(** ** The jobs of a refresh *)

Lemma accepts_length i t : accepts i t -> (length t <= 1)%nat.
Proof.
  destruct i; cbn [accepts].
  - intros (a & -> & _). cbn. lia.
  - intros [-> | (a & -> & _)]; cbn; lia.
Qed.

Lemma concat_short (pieces : list str) :
  Forall (fun t => (length t <= 1)%nat) pieces ->
  (length (concat pieces) <= length pieces)%nat.
Proof.
  induction 1 as [|t pieces Ht _ IH]; [reflexivity|].
  cbn [concat]. rewrite length_app. cbn [length]. lia.
Qed.

Lemma reads_span_length p pieces i j :
  reads p pieces ->
  (length (concat (take (j - i) (drop i pieces))) <= j - i)%nat.
Proof.
  intros Hr.
  assert (Hall : Forall (fun t => (length t <= 1)%nat) pieces).
  { unfold reads in Hr. induction Hr as [|x t p' pieces Hx _ IH];
      constructor; [exact (accepts_length _ _ Hx) | exact IH]. }
  etransitivity; [apply concat_short|].
  - apply Forall_take, Forall_drop, Hall.
  - rewrite length_take. lia.
Qed.

Lemma py_int_short d n :
  py_int d = Ret n -> (length d <= 2)%nat -> (0 <= n <= 99)%Z.
Proof.
  assert (Hd : forall c, isdigit c = true -> (0 <= digit_value c <= 9)%Z).
  { intros c. destruct c as [[] [] [] [] [] [] [] []]; vm_compute;
      intuition congruence. }
  unfold py_int.
  destruct d as [|a [|b [|c d]]]; cbn [truthy forallb length andb fold_left];
    try discriminate; try (intros _ H; lia).
  - destruct (isdigit a) eqn:Ha; cbn [andb]; [|discriminate].
    intros [= <-] _. pose proof (Hd a Ha). lia.
  - destruct (isdigit a) eqn:Ha; cbn [andb]; [|discriminate].
    destruct (isdigit b) eqn:Hb; cbn [andb]; [|discriminate].
    intros [= <-] _. pose proof (Hd a Ha). pose proof (Hd b Hb). lia.
Qed.

Lemma infer_from_filename_range fname s z :
  infer_from_filename_for_season fname = Ret (s, Some z) ->
  (0 <= z <= 99)%Z.
Proof.
  unfold infer_from_filename_for_season.
  destruct (truthy fname); cbn [negb]; [|discriminate].
  set (base := path_stem (parse_parts fname)).
  destruct (re_search re_SdEd base) as [m|] eqn:Hm.
  - apply re_search_reads in Hm.
    pose proof (reads_span_length _ _ 1 3 Hm) as Hlen.
    fold (m_span 1 3 m) in Hlen.
    destruct (py_int (m_span 1 3 m)) as [n|e] eqn:Hn; [|discriminate].
    cbn [mbind result_bind].
    destruct (py_split (m_group0 m) base) as [pieces|e]; [|discriminate].
    cbn [mbind result_bind].
    destruct (py_index pieces 0) as [first|e]; [|discriminate].
    cbn [mbind result_bind mret result_ret].
    intros [= _ <-]. apply (py_int_short _ _ Hn). exact Hlen.
  - destruct (re_search re_season base) as [m|] eqn:Hm2; [|discriminate].
    apply re_search_reads in Hm2.
    pose proof (reads_span_length _ _ 7 9 Hm2) as Hlen.
    fold (m_span 7 9 m) in Hlen.
    destruct (py_int (m_span 7 9 m)) as [n|e] eqn:Hn; [|discriminate].
    cbn [mbind result_bind].
    destruct (py_split (m_group0 m) base) as [pieces|e]; [|discriminate].
    cbn [mbind result_bind].
    destruct (py_index pieces 0) as [first|e]; [|discriminate].
    cbn [mbind result_bind mret result_ret].
    intros [= _ <-]. apply (py_int_short _ _ Hn). exact Hlen.
Qed.

Lemma infer_target_range target s z :
  infer_show_and_season_from_target target = Ret (s, Some z) ->
  (0 <= z <= 99)%Z.
Proof.
  unfold infer_show_and_season_from_target.
  destruct (truthy target); cbn [negb]; [|discriminate].
  destruct (infer_target_body target) as [[[s' sn]|]|e] eqn:Hb;
    cbn [try_except mbind result_bind default from_option id];
    try discriminate.
  intros [= -> ->]. revert Hb. unfold infer_target_body.
  destruct (existsb _ _).
  - destruct (list_index _ _) as [idx|e]; [|discriminate].
    cbn [mbind result_bind].
    destruct (if (idx + 1 <? _)%nat then _ else _) as [show|e];
      [|discriminate].
    cbn [mbind result_bind].
    destruct (if (idx + 2 <? _)%nat then _ else _) as [folder|e];
      [|discriminate].
    cbn [mbind result_bind].
    destruct (truthy_opt folder).
    + rewrite season_number_spec. cbn [mbind result_bind].
      intros [= _ H]. apply (first_digit_run_range _ _ H).
    + cbn [mbind result_bind]. discriminate.
  - destruct (3 <=? _)%nat; [|discriminate].
    destruct (py_index_back _ 3) as [show|e]; [|discriminate].
    cbn [mbind result_bind].
    destruct (py_index_back _ 2) as [folder|e]; [|discriminate].
    cbn [mbind result_bind].
    rewrite season_number_spec. cbn [mbind result_bind].
    intros [= _ H]. apply (first_digit_run_range _ _ H).
Qed.

(** The key of a record: a show name that is not empty and a season
    between 1 and 99. *)
Lemma group_key_range link target show season :
  group_key link target = Ret (show, season) ->
  truthy show = true /\ (1 <= season <= 99)%Z.
Proof.
  assert (Hfinal : forall (s : option str) (sn : option Z),
            (forall z, sn = Some z -> (0 <= z <= 99)%Z) ->
            truthy (if negb (truthy_opt s) then py "Unknown"
                    else default [] s) = true
            /\ (1 <= (if negb (truthy_int sn) then 1 else default 1 sn)
                <= 99)%Z).
  { intros s sn Hsn. split.
    - destruct s as [[|c s]|]; reflexivity.
    - destruct sn as [z|]; cbn [truthy_int negb default from_option id];
        [|lia].
      specialize (Hsn z eq_refl).
      destruct (z =? 0)%Z eqn:Hz; cbn [negb]; [lia|].
      apply Z.eqb_neq in Hz. lia. }
  unfold group_key.
  set (tgt := default [] target).
  (* first inference *)
  assert (H1 : exists s1 sn1,
            (if truthy_opt target then
               '(s, sn) ← infer_show_and_season_from_target tgt;
               Ret (if truthy_opt s then (s, sn) else (None, None))
             else Ret (None, None)) = Ret (s1, sn1)
            /\ forall z, sn1 = Some z -> (0 <= z <= 99)%Z).
  { destruct (truthy_opt target).
    - destruct (infer_target_returns tgt) as [[s sn] Hr]. rewrite Hr.
      cbn [mbind result_bind].
      destruct (truthy_opt s); eexists _, _; (split; [reflexivity|]).
      + intros z ->. apply (infer_target_range _ _ _ Hr).
      + discriminate.
    - eexists _, _. split; [reflexivity | discriminate]. }
  destruct H1 as (s1 & sn1 & -> & Hr1). cbn [mbind result_bind].
  assert (H2 : exists s2 sn2,
            (if negb (truthy_opt s1) && truthy_opt target then
               try_except
                 ('(s, sn) ← infer_from_filename_for_season
                                (path_name (parse_parts tgt));
                  Ret (if truthy_opt s || truthy_int sn then (s, sn)
                       else (s1, sn1)))
                 (fun _ => Ret (s1, sn1))
             else Ret (s1, sn1)) = Ret (s2, sn2)
            /\ forall z, sn2 = Some z -> (0 <= z <= 99)%Z).
  { destruct (negb (truthy_opt s1) && truthy_opt target).
    - destruct (infer_from_filename_returns (path_name (parse_parts tgt)))
        as [[s sn] Hr]. rewrite Hr.
      cbn [mbind result_bind try_except].
      destruct (truthy_opt s || truthy_int sn);
        eexists _, _; (split; [reflexivity|]).
      + intros z ->. apply (infer_from_filename_range _ _ _ Hr).
      + exact Hr1.
    - eexists _, _. split; [reflexivity | exact Hr1]. }
  destruct H2 as (s2 & sn2 & -> & Hr2). cbn [mbind result_bind].
  assert (H3 : exists s3 sn3,
            (if negb (truthy_opt s2) then
               '(s, sn) ← infer_from_filename_for_season link;
               Ret (if truthy_opt s || truthy_int sn then (s, sn)
                    else (s2, sn2))
             else Ret (s2, sn2)) = Ret (s3, sn3)
            /\ forall z, sn3 = Some z -> (0 <= z <= 99)%Z).
  { destruct (negb (truthy_opt s2)).
    - destruct (infer_from_filename_returns link) as [[s sn] Hr].
      rewrite Hr. cbn [mbind result_bind].
      destruct (truthy_opt s || truthy_int sn);
        eexists _, _; (split; [reflexivity|]).
      + intros z ->. apply (infer_from_filename_range _ _ _ Hr).
      + exact Hr2.
    - eexists _, _. split; [reflexivity | exact Hr2]. }
  destruct H3 as (s3 & sn3 & -> & Hr3). cbn [mbind result_bind].
  intros [= <- <-]. apply Hfinal. exact Hr3.
Qed.

Lemma links_under_NoDup k l (groups : list ((str * Z) * list str)) :
  NoDup (map fst groups) -> In (k, l) groups -> links_under k groups = l.
Proof.
  induction groups as [|[k' l'] groups IH]; [intros _ []|].
  cbn [map fst]. intros Hnd Hin. apply NoDup_cons in Hnd.
  destruct Hnd as [Hnotin Hnd]. cbn [links_under].
  destruct Hin as [Heq | Hin].
  - injection Heq as -> ->. rewrite bool_decide_eq_true_2 by reflexivity.
    reflexivity.
  - rewrite bool_decide_eq_false_2; [apply (IH Hnd Hin)|].
    intros ->. apply Hnotin. apply list_elem_of_In.
    apply (in_map fst _ _ Hin).
Qed.

Lemma links_keyed_In k entries l :
  In l (links_keyed k entries) ->
  exists e, In e entries /\ e_link e = Some l /\ truthy l = true
            /\ key_of e = k.
Proof.
  induction entries as [|e entries IH]; [intros []|].
  rewrite links_keyed_cons. intros Hin. apply in_app_or in Hin.
  destruct Hin as [Hin | Hin].
  - destruct (truthy_opt (e_link e)) eqn:Ht; [|destruct Hin].
    destruct (bool_decide (key_of e = k)) eqn:Hk; [|destruct Hin].
    cbn [andb] in Hin. destruct Hin as [<- | []].
    apply bool_decide_eq_true in Hk.
    exists e. destruct (e_link e) as [x|]; [|discriminate Ht].
    cbn [truthy_opt] in Ht. cbn [default from_option id].
    repeat split; try assumption. left. reflexivity.
  - destruct (IH Hin) as (e' & He' & Hrest). exists e'.
    split; [right; exact He' | exact Hrest].
Qed.

(** X13.  What a tv refresh starts.  Whatever the log holds, when the
    refresh of a tv log returns, each job it started has a show name
    that is not empty, a season between 1 and 99 and at least one link,
    and no two jobs have the same show and season. *)
Theorem tv_jobs_well_formed lines jobs :
  spawn_refresh_job_simple (py "tv") (Some lines) = Ret jobs ->
  Forall (fun j =>
            exists show season links,
              j = TvJob show season links
              /\ truthy show = true /\ (1 <= season <= 99)%Z
              /\ links <> []) jobs
  /\ NoDup (map job_key jobs).
Proof.
  intros Hrun.
  assert (Hne : parse_log_entries (Some lines) <> []).
  { intros Hnil. unfold spawn_refresh_job_simple in Hrun.
    rewrite Hnil in Hrun. discriminate Hrun. }
  destruct (tv_jobs_partition (py "tv") lines ltac:(discriminate) Hne)
    as (groups & Hjobs & Hnd & Hnonempty & Hunder).
  rewrite Hjobs in Hrun. injection Hrun as <-. split.
  - apply Forall_forall. intros j Hj. apply list_elem_of_In in Hj.
    apply in_map_iff in Hj. destruct Hj as ([[show season] links] & <- & Hg).
    exists show, season, links. split; [reflexivity|].
    assert (Hl : links <> []).
    { rewrite Forall_forall in Hnonempty.
      apply (Hnonempty _ (proj2 (list_elem_of_In _ _) Hg)). }
    pose proof (links_under_NoDup _ _ _ Hnd Hg) as Hu.
    rewrite Hunder in Hu.
    destruct links as [|l links]; [congruence|].
    destruct (links_keyed_In (show, season)
                (parse_log_entries (Some lines)) l) as (e & _ & _ & _ & Hk).
    { rewrite Hu. left. reflexivity. }
    pose proof (group_key_key_of e) as Hkey. rewrite Hk in Hkey.
    destruct (group_key_range _ _ _ _ Hkey) as [Hs Hz].
    repeat split; try assumption; try lia; try discriminate.
  - clear -Hnd. induction groups as [|[[show season] links] groups IH];
      [constructor|].
    cbn [map fst job_of_group job_key] in *.
    apply NoDup_cons in Hnd. destruct Hnd as [Hnotin Hnd].
    apply NoDup_cons. split; [|apply IH, Hnd].
    intros Hin. apply Hnotin.
    apply list_elem_of_In in Hin. apply in_map_iff in Hin.
    destruct Hin as (j & Hj & Hin). apply in_map_iff in Hin.
    destruct Hin as ([[s z] ls] & <- & Hg). cbn in Hj.
    injection Hj as -> ->. apply list_elem_of_In.
    apply (in_map fst _ _ Hg).
Qed.

Lemma tv_jobs_well_formed_witness :
  Forall (fun j =>
            exists show season links,
              j = TvJob show season links
              /\ truthy show = true /\ (1 <= season <= 99)%Z
              /\ links <> [])
         [TvJob (py "A") 1 [py "L0"; py "L1"]; TvJob (py "B") 2 [py "L2"]]
  /\ NoDup (map job_key
              [TvJob (py "A") 1 [py "L0"; py "L1"];
               TvJob (py "B") 2 [py "L2"]]).
Proof.
  apply (tv_jobs_well_formed
           [log_line_of "L0" "/media/tv/A/Season 00/a.strm";
            log_line_of "L1" "/media/tv/A/Season 01/a.strm";
            log_line_of "L2" "/media/tv/B/Season 02/c.strm"]).
  vm_compute. reflexivity.
Defined.

(** ** The links handed to a job *)

Lemma universal_newlines_no_cr n : forall s,
  (length s <= n)%nat -> mem cr (universal_newlines s) = false.
Proof.
  induction n as [|n IH]; intros s Hn.
  - destruct s; [reflexivity | cbn [length] in Hn; lia].
  - destruct s as [|c s]; [reflexivity|]. cbn [length] in Hn.
    cbn [universal_newlines].
    destruct (Ascii.eqb c cr) eqn:Hc.
    + destruct s as [|d s]; [reflexivity|]. cbn [length] in Hn.
      destruct (Ascii.eqb d newline); rewrite mem_cons.
      * rewrite (IH s) by lia. reflexivity.
      * rewrite (IH (d :: s)) by (cbn [length]; lia). reflexivity.
    + rewrite mem_cons, Ascii.eqb_sym, Hc, (IH s) by lia. reflexivity.
Qed.

(** A line of a text file: at most one line feed, at its end. *)
Lemma lines_go_lines s : forall cur ln,
  mem newline cur = false ->
  In ln (lines_go cur s) ->
  exists body tail,
    ln = body ++ tail /\ mem newline body = false
    /\ forallb isspace tail = true
    /\ forall c, In c body -> In c cur \/ In c s.
Proof.
  induction s as [|c s IH]; intros cur ln Hcur Hin.
  - cbn [lines_go] in Hin. destruct (truthy cur); [|destruct Hin].
    destruct Hin as [<- | []]. exists (rev cur), [].
    rewrite app_nil_r. split; [reflexivity|]. split.
    + destruct (mem newline (rev cur)) eqn:Hm; [|reflexivity].
      apply mem_In, in_rev, mem_In in Hm. congruence.
    + split; [reflexivity|]. intros c Hc. left. apply in_rev. exact Hc.
  - cbn [lines_go] in Hin.
    destruct (Ascii.eqb c newline) eqn:Hc.
    + destruct Hin as [<- | Hin].
      * exists (rev cur), [c]. cbn [rev]. split; [reflexivity|]. split.
        -- destruct (mem newline (rev cur)) eqn:Hm; [|reflexivity].
           apply mem_In, in_rev, mem_In in Hm. congruence.
        -- apply Ascii.eqb_eq in Hc. subst c.
           split; [reflexivity|]. intros x Hx. left. apply in_rev. exact Hx.
      * destruct (IH [] ln eq_refl Hin) as (body & tail & -> & Hb & Ht & Hsub).
        exists body, tail. repeat split; try assumption.
        intros x Hx. destruct (Hsub x Hx) as [[] | Hs].
        right. right. exact Hs.
    + destruct (IH (c :: cur) ln) as (body & tail & -> & Hb & Ht & Hsub).
      * rewrite mem_cons, Ascii.eqb_sym, Hc. exact Hcur.
      * exact Hin.
      * exists body, tail. repeat split; try assumption.
        intros x Hx. destruct (Hsub x Hx) as [[<- | Hcu] | Hs].
        -- right. left. reflexivity.
        -- left. exact Hcu.
        -- right. right. exact Hs.
Qed.

Lemma not_In_mem c s : ~ In c s -> mem c s = false.
Proof.
  intros H. destruct (mem c s) eqn:Hm; [|reflexivity].
  apply mem_In in Hm. contradiction.
Qed.

Lemma mem_sub c s t :
  (forall x, In x t -> In x s) -> mem c s = false -> mem c t = false.
Proof.
  intros Hsub Hs. apply not_In_mem. intros Hin.
  apply Hsub, mem_In in Hin. congruence.
Qed.

(** A stripped line of a text file holds no line break. *)
Lemma file_lines_stripped text ln :
  In ln (file_lines text) ->
  mem newline (strip ln) = false /\ mem cr (strip ln) = false.
Proof.
  unfold file_lines. intros Hin.
  pose proof (universal_newlines_no_cr (length text) text (le_n _)) as Hcr.
  destruct (lines_go_lines _ [] ln eq_refl Hin)
    as (body & tail & -> & Hb & Ht & Hsub).
  assert (Hs : strip (body ++ tail) = strip body).
  { unfold strip. apply (strip_by_pad isspace [] body tail eq_refl Ht). }
  rewrite Hs. split.
  - apply (mem_sub _ body); [intros x; apply strip_by_In | exact Hb].
  - apply (mem_sub _ (universal_newlines text)); [|exact Hcr].
    intros x Hx. apply strip_by_In in Hx.
    destruct (Hsub x Hx) as [[] | H]. exact H.
Qed.

Lemma split_go_In sep s : forall skip cur piece c,
  In piece (split_go sep skip cur s) -> In c piece -> In c cur \/ In c s.
Proof.
  induction s as [|a s IH]; intros skip cur piece c Hp Hc.
  - cbn [split_go] in Hp. destruct Hp as [<- | []].
    left. apply in_rev. exact Hc.
  - cbn [split_go] in Hp. destruct skip as [|k].
    + destruct (startswith sep (a :: s)).
      * destruct Hp as [<- | Hp].
        -- left. apply in_rev. exact Hc.
        -- destruct (IH _ _ _ _ Hp Hc) as [[] | H]. right. right. exact H.
      * destruct (IH _ _ _ _ Hp Hc) as [[<- | H] | H].
        -- right. left. reflexivity.
        -- left. exact H.
        -- right. right. exact H.
    + destruct (IH _ _ _ _ Hp Hc) as [H | H]; [left | right; right];
        exact H.
Qed.

Lemma partition_after_In sep s c :
  In c (partition_after sep s) -> In c s.
Proof.
  induction s as [|a s IH]; [intros []|]. cbn [partition_after].
  destruct (Ascii.eqb a sep); intros H; right; [exact H | exact (IH H)].
Qed.

(** The link and the target that [scan_tokens] finds are stripped and
    made of characters of the parts. *)
Lemma scan_tokens_from parts :
  let found (o : option str) :=
    forall l, o = Some l ->
      strip l = l /\ forall c, In c l -> exists p, In p parts /\ In c p in
  found (fst (scan_tokens parts)) /\ found (snd (scan_tokens parts)).
Proof.
  intros found. unfold scan_tokens.
  assert (Hgen : forall done rest acc,
            parts = done ++ rest ->
            (let found' (o : option str) :=
               forall l, o = Some l ->
                 strip l = l
                 /\ forall c, In c l -> exists p, In p done /\ In c p in
             found' (fst acc) /\ found' (snd acc)) ->
            found (fst (fold_left
              (fun '(link, target) p =>
                 let lp := lower p in
                 if startswith (py "link=") lp
                 then (Some (strip (partition_after "="%char p)), target)
                 else if startswith (py "target=") lp
                 then (link, Some (strip (partition_after "="%char p)))
                 else (link, target)) rest acc))
            /\ found (snd (fold_left
              (fun '(link, target) p =>
                 let lp := lower p in
                 if startswith (py "link=") lp
                 then (Some (strip (partition_after "="%char p)), target)
                 else if startswith (py "target=") lp
                 then (link, Some (strip (partition_after "="%char p)))
                 else (link, target)) rest acc))).
  { intros done rest. revert done.
    induction rest as [|p rest IH]; intros done [link target] Hparts Hacc.
    - rewrite app_nil_r in Hparts. subst done. exact Hacc.
    - cbn [fold_left].
      assert (Hnew : forall l, Some (strip (partition_after "="%char p))
                               = Some l ->
                strip l = l
                /\ forall c, In c l ->
                     exists q, In q (done ++ [p]) /\ In c q).
      { intros l [= <-]. split; [apply strip_idem|].
        intros c Hc. exists p. split; [apply in_or_app; right; left;
          reflexivity|].
        apply strip_by_In in Hc. apply (partition_after_In _ _ _ Hc). }
      assert (Hold : forall o : option str,
                (forall l, o = Some l ->
                   strip l = l
                   /\ forall c, In c l -> exists q, In q done /\ In c q) ->
                forall l, o = Some l ->
                   strip l = l
                   /\ forall c, In c l ->
                        exists q, In q (done ++ [p]) /\ In c q).
      { intros o Ho l Hl. destruct (Ho l Hl) as [Hs Hc].
        split; [exact Hs|]. intros c Hin. destruct (Hc c Hin) as (q & Hq & Hcq).
        exists q. split; [apply in_or_app; left; exact Hq | exact Hcq]. }
      cbn [fst snd] in Hacc. destruct Hacc as [Hl Ht].
      apply (IH (done ++ [p]));
        [rewrite <- app_assoc; exact Hparts|].
      destruct (startswith (py "link=") (lower p)); cbn [fst snd].
      + split; [exact Hnew | apply Hold, Ht].
      + destruct (startswith (py "target=") (lower p)); cbn [fst snd].
        * split; [apply Hold, Hl | exact Hnew].
        * split; [apply Hold, Hl | apply Hold, Ht]. }
  apply (Hgen [] parts (None, None) eq_refl).
  cbn [fst snd]. split; intros l; discriminate.
Qed.

Lemma parse_line_link ln e l :
  parse_line ln = Some e -> e_link e = Some l -> truthy l = true ->
  strip l = l /\ forall c, In c l -> In c (strip ln).
Proof.
  unfold parse_line.
  destruct (truthy (strip ln)); cbn [negb]; [|discriminate].
  set (parts := map strip (split_on (py "|") (strip ln))).
  assert (Hparts : forall p c, In p parts -> In c p -> In c (strip ln)).
  { intros p c Hp Hc. subst parts. apply in_map_iff in Hp.
    destruct Hp as (piece & <- & Hpiece). apply strip_by_In in Hc.
    destruct (split_go_In _ _ _ _ _ _ Hpiece Hc) as [[] | H]. exact H. }
  pose proof (scan_tokens_from parts) as [Hlink _].
  destruct (scan_tokens parts) as [link target]. cbn [fst] in Hlink.
  intros [= <-]. cbn [e_link]. intros Hl Ht.
  destruct (negb (truthy_opt link)) eqn:Hneg.
  - destruct (bare_url parts) as [p|] eqn:Hb.
    + injection Hl as ->. unfold bare_url in Hb.
      apply find_some in Hb. destruct Hb as [Hin _].
      apply in_rev in Hin. split.
      * subst parts. apply in_map_iff in Hin.
        destruct Hin as (piece & <- & _). apply strip_idem.
      * intros c Hc. apply (Hparts _ _ Hin Hc).
    + subst link. cbn [truthy_opt] in Hneg. rewrite Ht in Hneg.
      discriminate Hneg.
  - destruct (Hlink l Hl) as [Hs Hc]. split; [exact Hs|].
    intros c Hin. destruct (Hc c Hin) as (p & Hp & Hcp).
    apply (Hparts _ _ Hp Hcp).
Qed.

(** The links of the records of a log file are fit for a file of links. *)
Lemma log_links_clean text e l :
  In e (parse_log_entries (Some (file_lines text))) ->
  e_link e = Some l -> truthy l = true -> clean_link l.
Proof.
  unfold parse_log_entries. intros Hin Hl Ht.
  apply list_elem_of_In, list_elem_of_omap in Hin.
  destruct Hin as (ln & Hln & Hparse). apply list_elem_of_In in Hln.
  destruct (parse_line_link _ _ _ Hparse Hl Ht) as [Hs Hsub].
  destruct (file_lines_stripped _ _ Hln) as [Hn Hc].
  split; [exact Ht|]. split; [exact Hs|]. split.
  - apply (mem_sub _ (strip ln)); assumption.
  - apply (mem_sub _ (strip ln)); assumption.
Qed.

(** A file of clean links reads back as these links. *)
Lemma links_file_read_back links :
  Forall clean_link links -> links_of_file (links_file links) = links.
Proof.
  intros Hall. unfold links_of_file, links_file.
  rewrite file_lines_concat.
  - unfold clean_lines.
    induction Hall as [|l links (Ht & Hs & _ & _) _ IH]; [reflexivity|].
    cbn [map List.filter].
    assert (Hl : strip (l ++ [newline]) = l).
    { rewrite <- Hs at 2. unfold strip.
      apply (strip_by_pad isspace [] l [newline]); reflexivity. }
    rewrite Hl, Ht. cbn [map]. rewrite Hl, IH. reflexivity.
  - eapply Forall_impl; [exact Hall|]. intros l (_ & _ & Hn & Hc).
    split; assumption.
Qed.

(** X14.  The links survive the hand-over.  Whatever the log file
    holds, when a refresh returns, the file of links it wrote for each
    job is read back by [main] as exactly the links of that job, in
    order. *)
Theorem refresh_links_survive media text jobs :
  spawn_refresh_job_simple media (Some (file_lines text)) = Ret jobs ->
  Forall (fun j => links_of_file (links_file (job_links j)) = job_links j)
         jobs.
Proof.
  intros Hrun.
  set (entries := parse_log_entries (Some (file_lines text))) in *.
  assert (Hne : entries <> []).
  { intros Hnil. unfold spawn_refresh_job_simple in Hrun.
    fold entries in Hrun. rewrite Hnil in Hrun. discriminate Hrun. }
  destruct (str_eqb media (py "movies")) eqn:Hm.
  - unfold spawn_refresh_job_simple in Hrun. fold entries in Hrun.
    rewrite Hm in Hrun. destruct entries as [|e0 rest] eqn:He; [congruence|].
    rewrite <- He in *.
    set (links := omap (fun e => if truthy_opt (e_link e) then e_link e
                                 else None) entries) in *.
    destruct links as [|l0 links'] eqn:Hlinks; [discriminate Hrun|].
    injection Hrun as <-. constructor; [|constructor].
    cbn [job_links]. apply links_file_read_back.
    apply Forall_forall. intros l Hl. rewrite <- Hlinks in Hl. subst links.
    apply list_elem_of_omap in Hl. destruct Hl as (e & He' & Hsome).
    destruct (truthy_opt (e_link e)) eqn:Ht; [|discriminate Hsome].
    rewrite Hsome in Ht. cbn [truthy_opt] in Ht.
    apply (log_links_clean text e l);
      [apply list_elem_of_In; exact He' | exact Hsome | exact Ht].
  - destruct (tv_jobs_partition media (file_lines text))
      as (groups & Hjobs & Hnd & _ & Hunder).
    + intros ->. unfold str_eqb in Hm.
      rewrite bool_decide_eq_true_2 in Hm by reflexivity. discriminate Hm.
    + exact Hne.
    + rewrite Hjobs in Hrun. injection Hrun as <-.
      apply Forall_forall. intros j Hj. apply list_elem_of_In in Hj.
      apply in_map_iff in Hj.
      destruct Hj as ([[show season] links] & <- & Hg).
      cbn [job_of_group job_links]. apply links_file_read_back.
      apply Forall_forall. intros l Hl. apply list_elem_of_In in Hl.
      pose proof (links_under_NoDup _ _ _ Hnd Hg) as Hu.
      rewrite Hunder in Hu. rewrite <- Hu in Hl.
      destruct (links_keyed_In _ _ _ Hl) as (e & He & Hsome & Ht & _).
      apply (log_links_clean text e l He Hsome Ht).
Qed.

Lemma refresh_links_survive_witness :
  Forall (fun j => links_of_file (links_file (job_links j)) = job_links j)
         [MoviesJob [py "https://host/a b.mkv"; py "https://host/c.mkv"]].
Proof.
  apply (refresh_links_survive (py "movies")
           (py "t | link= https://host/a b.mkv | target=/media/movies/a/a.strm"
            ++ [cr; newline; newline]
            ++ py "https://host/c.mkv | note" ++ [cr])).
  vm_compute. reflexivity.
Defined.

(** ** One link, alone or in a batch *)

(** X15.  The single handlers and the batch handlers agree.  Take a
    link that is not blank and has no white space around it, answered
    by the service with a direct URL and a file name.  Whatever the
    file system does, [add_movie] called with the file name as title
    leaves the world that a batch of this one link leaves; when it
    returns the batch counts one descriptor and no error, and when it
    raises the batch counts none and reports the message of the
    exception with the link.  So does [add_episode], called with the
    next free index of the season directory, next to an episode batch
    whose season directory could be made. *)
Theorem single_and_batch_agree (E : Env) link w r :
  truthy link = true -> strip link = link ->
  unrestrict_answer (calls w) link = Ret r ->
  truthy_opt (direct r) = true ->
  truthy_opt (filename r) = true ->
  (forall show season,
     os_mkdir (calls w) (season_dir (sanitize_name show) season) = None ->
     let next :=
       Z.of_nat (count_strm (season_dir (sanitize_name show) season) (fs w)
                 + 1) in
     match add_episode show season next link w with
     | (Ret _, w') =>
       add_episode_links_from_list show season [link] w
       = (Ret (1%nat, []), w')
     | (Raise e, w') =>
       add_episode_links_from_list show season [link] w
       = (Ret (0%nat, [(link, exn_msg e)]), w')
     end)
  /\ match add_movie (default [] (filename r)) link w with
     | (Ret _, w') =>
       add_movie_links_from_list [link] w = ((1%nat, []), w')
     | (Raise e, w') =>
       add_movie_links_from_list [link] w
       = ((0%nat, [(link, exn_msg e)]), w')
     end.
Proof.
  intros Ht Hs Ha Hd Hf.
  assert (Hcand : forall fb,
            batch_candidate r link fb = Ret (default [] (filename r))).
  { intros fb. unfold batch_candidate. rewrite Hf. cbn [negb andb].
    cbn [mbind result_bind]. rewrite Hf. reflexivity. }
  assert (Hbase : episode_base r
                  = Ret (strip_extension (default [] (filename r)))).
  { unfold episode_base. rewrite Hf. reflexivity. }
  split.
  - intros show season Hmk next.
    rewrite add_episode_cases, Ha, Hd, Hbase.
    unfold add_episode_links_from_list. rewrite Hmk.
    cbn [batch_loop]. rewrite Hs, Ht. cbn [negb].
    rewrite episode_link_cases, Ha, Hd, (Hcand _).
    change (batch_final_name (sanitize_name show) season (fs w)
              (sanitize_name (strip_extension (default [] (filename r)))))
      with (episode_final_name
              (sanitize_name (strip_extension (default [] (filename r))))
              season next).
    destruct (deliver _ _ _ _ _) as [[u|e] w']; reflexivity.
  - rewrite add_movie_cases, Ha, Hd.
    unfold add_movie_links_from_list. cbn [batch_loop].
    rewrite Hs, Ht. cbn [negb].
    rewrite movie_link_cases, Ha, Hd, (Hcand _).
    destruct (deliver _ _ _ _ _) as [[u|e] w']; reflexivity.
Qed.

(** A title of 300 letters, which no directory takes: the single
    handler raises, the batch reports the same message, and no file is
    written. *)
Lemma single_and_batch_agree_witness :
  let link := py "host/" ++ long_name ++ py ".mkv" in
  let e := Exn OSError
             (py "[Errno 36] File name too long: '/media/movies/"
              ++ long_name ++ py "'") in
  @add_movie sample_env (long_name ++ py ".mkv") link empty_world
  = (Raise e, after_call empty_world)
  /\ @add_movie_links_from_list sample_env [link] empty_world
     = ((0%nat, [(link, exn_msg e)]), after_call empty_world).
Proof.
  intros link e. split; [vm_compute; reflexivity|].
  exact (proj2 (single_and_batch_agree sample_env link empty_world
                  (Resp (Some (long_name ++ py ".mkv"))
                        (Some (py "https://cdn.example/d/" ++ long_name
                               ++ py ".mkv")))
                  eq_refl eq_refl eq_refl eq_refl eq_refl)).
Defined.

(** ** A link resolved again *)

(** X16.  Resolving a link again replaces its descriptor.  Take a batch
    that holds a link twice, the service answering both times with a
    direct URL and naming the same file, and a file system that carries
    both deliveries out.  The movie handler counts two descriptors and
    leaves one new file, holding the second direct URL; so does the
    episode handler, its season directory made, when the base name
    holds a marker S<2 digits>E<2 digits>. *)
Theorem rerun_overwrites (E : Env) l w r1 r2 :
  truthy (strip l) = true ->
  unrestrict_answer (calls w) (strip l) = Ret r1 ->
  unrestrict_answer (S (calls w)) (strip l) = Ret r2 ->
  truthy_opt (direct r1) = true -> truthy_opt (direct r2) = true ->
  (forall cand,
     let dest := movie_dest (sanitize_name (strip_extension cand)) in
     batch_candidate r1 (strip l) (py "unnamed") = Ret cand ->
     batch_candidate r2 (strip l) (py "unnamed") = Ret cand ->
     carried_out (S (calls w)) (py "movies") dest ->
     carried_out (S (S (calls w))) (py "movies") dest ->
     exists w',
       add_movie_links_from_list [l; l] w = ((2%nat, []), w')
       /\ fs w' = <[resolve dest
                    := strip (default [] (direct r2)) ++ [newline]]> (fs w))
  /\ (forall show season cand,
     let show_name := sanitize_name show in
     let base := sanitize_name (strip_extension cand) in
     let dest := season_dir show_name season ++ [base ++ py ".strm"] in
     batch_candidate r1 (strip l) (show_name ++ py "_ep") = Ret cand ->
     batch_candidate r2 (strip l) (show_name ++ py "_ep") = Ret cand ->
     has_fixed_marker base ->
     os_mkdir (calls w) (season_dir show_name season) = None ->
     carried_out (S (calls w)) (py "tv") dest ->
     carried_out (S (S (calls w))) (py "tv") dest ->
     exists w',
       add_episode_links_from_list show season [l; l] w
       = (Ret (2%nat, []), w')
       /\ fs w' = <[resolve dest
                    := strip (default [] (direct r2)) ++ [newline]]> (fs w)).
Proof.
  intros Hl Ha1 Ha2 Hd1 Hd2. split.
  - intros cand dest Hc1 Hc2 Hio1 Hio2. unfold add_movie_links_from_list.
    cbn [batch_loop]. rewrite Hl. cbn [negb].
    rewrite (movie_link_written _ _ _ _ Ha1 Hd1 Hc1 Hio1).
    rewrite (movie_link_written (strip l) (after_write _ _ _ _ _) r2 cand
               Ha2 Hd2 Hc2 Hio2).
    eexists. split; [reflexivity|].
    cbn [after_write fs]. apply insert_insert_eq.
  - intros show season cand show_name base dest Hc1 Hc2 Hm Hmk Hio1 Hio2.
    assert (Hname : forall files,
              batch_final_name show_name season files base
              = base ++ py ".strm").
    { intros files. unfold batch_final_name.
      apply has_fixed_marker_search in Hm. destruct Hm as [m ->].
      reflexivity. }
    assert (Hseg : joinpath (season_dir show_name season) (base ++ py ".strm")
                   = dest).
    { apply joinpath_segment. rewrite <- (Hname (fs w)).
      apply batch_final_name_segment, sanitize_name_no_slash. }
    assert (Hdest : forall files,
              joinpath (season_dir show_name season)
                (batch_final_name show_name season files
                   (sanitize_name (strip_extension cand))) = dest).
    { intros files. fold base. rewrite Hname. exact Hseg. }
    unfold add_episode_links_from_list. fold show_name. rewrite Hmk.
    cbn [batch_loop]. rewrite Hl. cbn [negb].
    rewrite (episode_link_written _ _ _ _ _ _ Ha1 Hd1 Hc1)
      by (rewrite Hdest; exact Hio1).
    rewrite Hdest.
    rewrite (episode_link_written show_name season (strip l)
               (after_write _ _ _ _ _) r2 cand Ha2 Hd2 Hc2)
      by (rewrite Hdest; exact Hio2).
    rewrite Hdest.
    eexists. split; [reflexivity|].
    cbn [after_write fs]. apply insert_insert_eq.
Qed.

Lemma rerun_overwrites_witness :
  exists w',
    @add_movie_links_from_list sample_env
      [py "host/Heat.mkv"; py "host/Heat.mkv"] empty_world
    = ((2%nat, []), w')
    /\ fs w' = <[parse_parts (py "/media/movies/Heat/Heat.strm")
                 := py "https://cdn.example/d/Heat.mkv" ++ [newline]]> ∅.
Proof.
  apply (proj1 (rerun_overwrites sample_env (py "host/Heat.mkv") empty_world
                  (Resp (Some (py "Heat.mkv"))
                        (Some (py "https://cdn.example/d/Heat.mkv")))
                  (Resp (Some (py "Heat.mkv"))
                        (Some (py "https://cdn.example/d/Heat.mkv")))
                  eq_refl eq_refl eq_refl eq_refl eq_refl)
           (py "Heat.mkv")); try reflexivity; split; reflexivity.
Defined.

(** ** A file name with a pipe *)

Lemma scan_tokens_log_link p0 rl rt rr x :
  startswith (py "link=") (lower p0) = false ->
  startswith (py "target=") (lower p0) = false ->
  scan_tokens [p0; py "link=" ++ rl; py "target=" ++ rt;
               py "rd_filename=" ++ rr; py "link=" ++ x]
  = (Some (strip x), Some (strip rt)).
Proof.
  intros H0 H1. unfold scan_tokens. cbn [fold_left]. rewrite H0, H1.
  rewrite !lower_app.
  change (lower (py "link=")) with (py "link=").
  change (lower (py "target=")) with (py "target=").
  change (lower (py "rd_filename=")) with (py "rd_filename=").
  rewrite !startswith_app.
  replace (startswith (py "link=") (py "target=" ++ lower rt))
    with false by reflexivity.
  replace (startswith (py "link=") (py "rd_filename=" ++ lower rr))
    with false by reflexivity.
  replace (startswith (py "target=") (py "rd_filename=" ++ lower rr))
    with false by reflexivity.
  reflexivity.
Qed.

(** X17.  The file name of the service is logged as it is.  When it
    holds a pipe followed by [ link=], the record read back from the
    line carries the text after that token as its link, not the link
    that was logged. *)
Theorem logged_file_name_replaces_link ts media link target pre x :
  stamp ts = true -> plain link = true ->
  plain (path_str target) = true ->
  plain pre = true -> plain x = true -> truthy (strip x) = true ->
  parse_line
    (log_text ts (LogLine media link target (pre ++ py "| link=" ++ x)))
  = Some (Entry (Some (strip x)) (Some (strip (path_str target)))
            (strip (log_text ts
                      (LogLine media link target
                               (pre ++ py "| link=" ++ x))))).
Proof.
  intros Hts Hlk Htg Hpre Hx Htr.
  unfold parse_line. rewrite log_text_strip.
  set (tgt := path_str target) in *.
  set (a0 := lstrip_by isspace (ts ++ py " ")).
  assert (Hrd : rstrip_by isspace (pre ++ py "| link=" ++ x)
                = pre ++ "|"%char :: py " link=" ++ rstrip_by isspace x).
  { replace (pre ++ py "| link=" ++ x)
      with ((pre ++ py "| link") ++ "="%char :: x)
      by (flat; reflexivity).
    rewrite rstrip_by_stop by reflexivity. flat. reflexivity. }
  rewrite Hrd.
  assert (Ha0 : mem "|"%char a0 = false).
  { apply plain_no_pipe.
    apply (plain_sub (ts ++ py " ")); [intros c; apply lstrip_by_In|].
    rewrite plain_app, (stamp_plain _ Hts). reflexivity. }
  assert (Hb : mem "|"%char (py " link=" ++ link ++ py " ") = false).
  { rewrite !mem_app, (plain_no_pipe _ Hlk). reflexivity. }
  assert (Hc : mem "|"%char (py " target=" ++ tgt ++ py " ") = false).
  { rewrite !mem_app, (plain_no_pipe _ Htg). reflexivity. }
  assert (Hd : mem "|"%char (py " rd_filename=" ++ pre) = false).
  { rewrite mem_app, (plain_no_pipe _ Hpre). reflexivity. }
  assert (He : mem "|"%char (py " link=" ++ rstrip_by isspace x) = false).
  { rewrite mem_app. apply orb_false_iff. split; [reflexivity|].
    apply plain_no_pipe. apply (plain_sub x); [|exact Hx].
    intros c. apply rstrip_by_In. }
  set (raw := a0 ++ _).
  replace (truthy raw) with true by (subst raw; destruct a0; reflexivity).
  cbn [negb]. subst raw. unfold split_on. change (py "|") with ["|"%char].
  rewrite split_go_sep by exact Ha0.
  rewrite split_go_sep by exact Hb.
  rewrite split_go_sep by exact Hc.
  replace (py " rd_filename=" ++ pre ++ "|"%char
           :: py " link=" ++ rstrip_by isspace x)
    with ((py " rd_filename=" ++ pre) ++ "|"%char
          :: py " link=" ++ rstrip_by isspace x)
    by (rewrite <- app_assoc; reflexivity).
  rewrite split_go_sep by exact Hd.
  rewrite split_go_no_sep by exact He.
  cbn [rev app map].
  assert (H0 : strip a0 = strip ts).
  { unfold strip, strip_by, a0. rewrite lstrip_by_idem.
    change (rstrip_by isspace (lstrip_by isspace (ts ++ py " ")))
      with (strip_by isspace ([] ++ ts ++ py " ")).
    apply strip_by_pad; reflexivity. }
  rewrite H0.
  change (py " link=" ++ link ++ py " ")
    with (py " " ++ py "link=" ++ link ++ py " ").
  change (py " target=" ++ tgt ++ py " ")
    with (py " " ++ py "target=" ++ tgt ++ py " ").
  rewrite (strip_tagged (py "link=") link (py " ")) by reflexivity.
  rewrite (strip_tagged (py "target=") tgt (py " ")) by reflexivity.
  replace (py " rd_filename=" ++ pre)
    with (py " " ++ py "rd_filename=" ++ pre ++ [])
    by (rewrite app_nil_r; reflexivity).
  rewrite (strip_tagged (py "rd_filename=") _ []) by reflexivity.
  replace (py " link=" ++ rstrip_by isspace x)
    with (py " " ++ py "link=" ++ rstrip_by isspace x ++ [])
    by (rewrite app_nil_r; reflexivity).
  rewrite (strip_tagged (py "link=") (rstrip_by isspace x) []) by reflexivity.
  rewrite scan_tokens_log_link
    by (apply lower_stamp; [exact Hts | cbn; tauto]).
  rewrite !strip_rstrip. cbn [truthy_opt]. rewrite Htr. cbn [negb].
  rewrite !app_nil_r. flat. reflexivity.
Qed.

Lemma logged_file_name_replaces_link_witness :
  e_link <$> parse_line
    (log_text (py "2024-05-01T10:00:00+02:00")
       (LogLine (py "movies") (py "https://host/a")
          (parse_parts (py "/media/movies/a/a.strm"))
          (py "a.mkv | link=https://other/b")))
  = Some (Some (py "https://other/b")).
Proof.
  exact (f_equal (fmap e_link)
           (logged_file_name_replaces_link (py "2024-05-01T10:00:00+02:00")
              (py "movies") (py "https://host/a")
              (parse_parts (py "/media/movies/a/a.strm"))
              (py "a.mkv ") (py "https://other/b")
              eq_refl eq_refl eq_refl eq_refl eq_refl eq_refl)).
Defined.

